(** * pico_i2c_slave: the interrupt-driven I2C slave (i2c_slave.c) and the
    Wire buffering facade (Wire.h, Wire.cpp), embedded as functions over an
    explicit machine state.

    Integers are [Z] with the C conversions written out, the byte buffer is a
    list updated by index, null pointers are [None], function pointers are
    names whose code is looked up in the platform, and a failed assertion or
    another abnormal stop is a [fault]. *)

From Stdlib Require Import ZArith Lia Bool List.
From stdpp Require Import base tactics option list gmap.

Local Open Scope Z_scope.

(** ** Hardware handles, events and function pointers *)

(** The two I2C peripherals of the RP2040; an [i2c_inst_t *] is an
    [option i2c_inst_t], [None] standing for a pointer that is neither. *)
Inductive i2c_inst_t := i2c0 | i2c1.

Definition hw_index (inst : i2c_inst_t) : Z :=
  match inst with i2c0 => 0 | i2c1 => 1 end.

Inductive i2c_slave_event_t :=
  | I2C_SLAVE_RECEIVE
  | I2C_SLAVE_REQUEST
  | I2C_SLAVE_FINISH.

(** A slave event handler is either the facade's own [TwoWire::handleEvent] or
    some other function of the application, named by its address. *)
Inductive i2c_slave_handler_t :=
  | TwoWire_handleEvent
  | extern_handler (addr : N).

Definition WireReceiveHandler := N.
Definition WireRequestHandler := N.

(** The only routine this code installs on an interrupt line. *)
Inductive irq_handler_t := i2c_slave_irq_handler_fn.

#[global] Instance i2c_inst_eq_dec : EqDecision i2c_inst_t.
Proof. solve_decision. Defined.

#[global] Instance i2c_slave_handler_eq_dec : EqDecision i2c_slave_handler_t.
Proof. solve_decision. Defined.

(** ** i2c_slave.c: the per-core slave context *)

Record i2c_slave_t := mk_slave {
  i2c : option i2c_inst_t;
  handler : option i2c_slave_handler_t;
  transfer_in_progress : bool
}.

(** Zero-initialised static storage. *)
Definition slave_unbound : i2c_slave_t := mk_slave None None false.

Definition set_i2c (v : option i2c_inst_t) (s : i2c_slave_t) :=
  mk_slave v (handler s) (transfer_in_progress s).
Definition set_handler (v : option i2c_slave_handler_t) (s : i2c_slave_t) :=
  mk_slave (i2c s) v (transfer_in_progress s).
Definition set_transfer_in_progress (v : bool) (s : i2c_slave_t) :=
  mk_slave (i2c s) (handler s) v.

(** [&i2c_core0_slave] or [&i2c_core1_slave]. *)
Inductive slave_ptr := core0_slave | core1_slave.

(** ** Wire.h: the TwoWire object *)

Definition WIRE_BUFFER_LENGTH : Z := 32.
Definition NO_ADDRESS : Z := 255.

Inductive Mode := Unassigned | Master | Slave.

#[global] Instance Mode_eq_dec : EqDecision Mode.
Proof. solve_decision. Defined.

Record TwoWire := mk_wire {
  receiveHandler_ : option WireReceiveHandler;
  requestHandler_ : option WireRequestHandler;
  mode_ : Mode;
  txAddress_ : Z;
  buf_ : list Z;
  bufLen_ : Z;
  bufPos_ : Z
}.

(** The member initialisers of the class; the array itself starts out with
    unspecified content, taken as zeroes (static storage). *)
Definition TwoWire_init : TwoWire :=
  mk_wire None None Unassigned 255 (replicate (Z.to_nat WIRE_BUFFER_LENGTH) 0) 0 0.

Definition set_receiveHandler_ (v : option WireReceiveHandler) (w : TwoWire) :=
  mk_wire v (requestHandler_ w) (mode_ w) (txAddress_ w) (buf_ w) (bufLen_ w) (bufPos_ w).
Definition set_requestHandler_ (v : option WireRequestHandler) (w : TwoWire) :=
  mk_wire (receiveHandler_ w) v (mode_ w) (txAddress_ w) (buf_ w) (bufLen_ w) (bufPos_ w).
Definition set_mode_ (v : Mode) (w : TwoWire) :=
  mk_wire (receiveHandler_ w) (requestHandler_ w) v (txAddress_ w) (buf_ w) (bufLen_ w) (bufPos_ w).
Definition set_txAddress_ (v : Z) (w : TwoWire) :=
  mk_wire (receiveHandler_ w) (requestHandler_ w) (mode_ w) v (buf_ w) (bufLen_ w) (bufPos_ w).
Definition set_buf_ (v : list Z) (w : TwoWire) :=
  mk_wire (receiveHandler_ w) (requestHandler_ w) (mode_ w) (txAddress_ w) v (bufLen_ w) (bufPos_ w).
Definition set_bufLen_ (v : Z) (w : TwoWire) :=
  mk_wire (receiveHandler_ w) (requestHandler_ w) (mode_ w) (txAddress_ w) (buf_ w) v (bufPos_ w).
Definition set_bufPos_ (v : Z) (w : TwoWire) :=
  mk_wire (receiveHandler_ w) (requestHandler_ w) (mode_ w) (txAddress_ w) (buf_ w) (bufLen_ w) v.

(** [this]: the class is only ever instantiated as the globals [Wire] and
    [Wire1]. *)
Inductive wire_ptr := Wire_ptr | Wire1_ptr.

(** ** The hardware the code talks to *)

(** The registers of one DW_apb_i2c block that the code reads or writes, and
    its two FIFOs. *)
Record i2c_hw_t := mk_hw {
  raw_intr_stat : Z;
  intr_mask : Z;
  rx_fifo : list Z;
  tx_fifo : list Z;
  slave_mode : bool;
  slave_address : Z
}.

Definition set_raw_intr_stat (v : Z) (h : i2c_hw_t) :=
  mk_hw v (intr_mask h) (rx_fifo h) (tx_fifo h) (slave_mode h) (slave_address h).
Definition set_intr_mask (v : Z) (h : i2c_hw_t) :=
  mk_hw (raw_intr_stat h) v (rx_fifo h) (tx_fifo h) (slave_mode h) (slave_address h).
Definition set_rx_fifo (v : list Z) (h : i2c_hw_t) :=
  mk_hw (raw_intr_stat h) (intr_mask h) v (tx_fifo h) (slave_mode h) (slave_address h).
Definition set_tx_fifo (v : list Z) (h : i2c_hw_t) :=
  mk_hw (raw_intr_stat h) (intr_mask h) (rx_fifo h) v (slave_mode h) (slave_address h).
Definition set_slave_mode (en : bool) (addr : Z) (h : i2c_hw_t) :=
  mk_hw (raw_intr_stat h) (intr_mask h) (rx_fifo h) (tx_fifo h) en addr.

(** One entry of a core's interrupt controller. *)
Record irq_line := mk_irq {
  irq_handler : option irq_handler_t;
  irq_enabled : bool
}.

Definition irq_line_reset : irq_line := mk_irq None false.

(** ** The machine: what one core executing this code can see *)

Record machine := mk_machine {
  core_num : Z;
  i2c_core0_slave : i2c_slave_t;
  i2c_core1_slave : i2c_slave_t;
  i2c0_hw : i2c_hw_t;
  i2c1_hw : i2c_hw_t;
  nvic : gmap (Z * Z) irq_line;
  Wire : TwoWire;
  Wire1 : TwoWire
}.

Definition set_i2c_core0_slave (v : i2c_slave_t) (m : machine) :=
  mk_machine (core_num m) v (i2c_core1_slave m) (i2c0_hw m) (i2c1_hw m) (nvic m) (Wire m) (Wire1 m).
Definition set_i2c_core1_slave (v : i2c_slave_t) (m : machine) :=
  mk_machine (core_num m) (i2c_core0_slave m) v (i2c0_hw m) (i2c1_hw m) (nvic m) (Wire m) (Wire1 m).
Definition set_i2c0_hw (v : i2c_hw_t) (m : machine) :=
  mk_machine (core_num m) (i2c_core0_slave m) (i2c_core1_slave m) v (i2c1_hw m) (nvic m) (Wire m) (Wire1 m).
Definition set_i2c1_hw (v : i2c_hw_t) (m : machine) :=
  mk_machine (core_num m) (i2c_core0_slave m) (i2c_core1_slave m) (i2c0_hw m) v (nvic m) (Wire m) (Wire1 m).
Definition set_nvic (v : gmap (Z * Z) irq_line) (m : machine) :=
  mk_machine (core_num m) (i2c_core0_slave m) (i2c_core1_slave m) (i2c0_hw m) (i2c1_hw m) v (Wire m) (Wire1 m).
Definition set_Wire (v : TwoWire) (m : machine) :=
  mk_machine (core_num m) (i2c_core0_slave m) (i2c_core1_slave m) (i2c0_hw m) (i2c1_hw m) (nvic m) v (Wire1 m).
Definition set_Wire1 (v : TwoWire) (m : machine) :=
  mk_machine (core_num m) (i2c_core0_slave m) (i2c_core1_slave m) (i2c0_hw m) (i2c1_hw m) (nvic m) (Wire m) v.

Definition slave_at (p : slave_ptr) (m : machine) : i2c_slave_t :=
  match p with core0_slave => i2c_core0_slave m | core1_slave => i2c_core1_slave m end.
Definition set_slave_at (p : slave_ptr) (v : i2c_slave_t) (m : machine) : machine :=
  match p with core0_slave => set_i2c_core0_slave v m | core1_slave => set_i2c_core1_slave v m end.

Definition hw_at (inst : i2c_inst_t) (m : machine) : i2c_hw_t :=
  match inst with i2c0 => i2c0_hw m | i2c1 => i2c1_hw m end.
Definition set_hw_at (inst : i2c_inst_t) (v : i2c_hw_t) (m : machine) : machine :=
  match inst with i2c0 => set_i2c0_hw v m | i2c1 => set_i2c1_hw v m end.

Definition wire_at (p : wire_ptr) (m : machine) : TwoWire :=
  match p with Wire_ptr => Wire m | Wire1_ptr => Wire1 m end.
Definition set_wire_at (p : wire_ptr) (v : TwoWire) (m : machine) : machine :=
  match p with Wire_ptr => set_Wire v m | Wire1_ptr => set_Wire1 v m end.

(** ** Faults, the call log and the monad of the code *)

Inductive fault :=
  | AssertionFailed   (* assert, hard_assert_if, invalid_params_if *)
  | NullPointer       (* call through a null function pointer *)
  | OutOfBounds       (* access outside an array *)
  | Hang              (* a busy-wait that saw no progress *)
  | HandlerFault.     (* application code stopped the program *)

(** Calls through function pointers, in the order they are made. *)
Inductive call_event :=
  | CallSlaveHandler (h : i2c_slave_handler_t) (inst : option i2c_inst_t) (ev : i2c_slave_event_t)
  | CallReceiveHandler (h : WireReceiveHandler) (count : Z)
  | CallRequestHandler (h : WireRequestHandler).

(** A computation runs on a machine, logs its calls, and either stops with a
    fault or returns a value and the machine it leaves. The log is kept when
    the computation faults. *)
Definition M (A : Type) : Type := machine -> list call_event * (fault + A * machine).

Definition ret {A} (a : A) : M A := fun m => ([], inr (a, m)).
Definition throw {A} (f : fault) : M A := fun _ => ([], inl f).
Definition bind {A B} (x : M A) (k : A -> M B) : M B := fun m =>
  match x m with
  | (t1, inl f) => (t1, inl f)
  | (t1, inr (a, m1)) => let '(t2, r) := k a m1 in (t1 ++ t2, r)
  end.

#[global] Instance M_ret : MRet M := @ret.
#[global] Instance M_bind : MBind M := fun A B k x => bind x k.

Definition gets {A} (f : machine -> A) : M A := fun m => ([], inr (f m, m)).
Definition modify (f : machine -> machine) : M unit := fun m => ([], inr (tt, f m)).
Definition log (e : call_event) : M unit := fun m => ([e], inr (tt, m)).

(** Modelled from the spec: the SDK's macros [hard_assert_if] and
    [invalid_params_if] are not among the sources. The spec takes a violated
    precondition as fatal, so they stop the program when their condition
    holds, as C's [assert(c)] does when [c] is false. The argument is the
    condition that has to hold. *)
Definition assert (c : bool) : M unit :=
  if c then ret tt else throw AssertionFailed.

(** Run application code, which has no log of its own. *)
Definition run_extern (f : machine -> fault + machine) : M unit := fun m =>
  match f m with
  | inl e => ([], inl e)
  | inr m1 => ([], inr (tt, m1))
  end.

Definition trace_of {A} (r : list call_event * (fault + A * machine)) := fst r.
Definition result_of {A} (r : list call_event * (fault + A * machine)) := snd r.

Definition update_slave (p : slave_ptr) (f : i2c_slave_t -> i2c_slave_t) (m : machine) :=
  set_slave_at p (f (slave_at p m)) m.
Definition update_hw (inst : i2c_inst_t) (f : i2c_hw_t -> i2c_hw_t) (m : machine) :=
  set_hw_at inst (f (hw_at inst m)) m.
Definition update_wire (p : wire_ptr) (f : TwoWire -> TwoWire) (m : machine) :=
  set_wire_at p (f (wire_at p m)) m.

(** ** The platform: what the sources use but do not define

    The register bit masks and the interrupt number come from the SDK's
    register headers; the blocking bulk transfers depend on the peer on the
    bus; the handlers are application code. All of them are parameters. *)
Class Platform := {
  I2C_IC_INTR_STAT_R_TX_ABRT_BITS : Z;
  I2C_IC_INTR_STAT_R_START_DET_BITS : Z;
  I2C_IC_INTR_STAT_R_STOP_DET_BITS : Z;
  I2C_IC_INTR_STAT_R_RX_FULL_BITS : Z;
  I2C_IC_INTR_STAT_R_RD_REQ_BITS : Z;
  I2C_IC_INTR_MASK_M_RX_FULL_BITS : Z;
  I2C_IC_INTR_MASK_M_RD_REQ_BITS : Z;
  I2C_IC_RAW_INTR_STAT_TX_ABRT_BITS : Z;
  I2C_IC_INTR_MASK_M_STOP_DET_BITS : Z;
  I2C_IC_INTR_MASK_M_START_DET_BITS : Z;
  I2C_IC_INTR_MASK_RESET : Z;
  I2C_IC_STATUS_TFNF_BITS : Z;
  I2C0_IRQ : Z;
  (** depth of the transmit FIFO *)
  tx_fifo_depth : Z;
  (** [i2c_write_blocking(i2c, addr, src, len, nostop)]: the [int] it
      returns and the registers it leaves *)
  i2c_write_blocking :
    i2c_inst_t -> Z -> list Z -> Z -> bool -> i2c_hw_t -> Z * i2c_hw_t;
  (** [i2c_read_blocking(i2c, addr, dst, len, nostop)]: the [int] it returns,
      the bytes it received (it stores at most [len] of them at [dst]) and
      the registers it leaves *)
  i2c_read_blocking :
    i2c_inst_t -> Z -> Z -> bool -> i2c_hw_t -> Z * list Z * i2c_hw_t;
  (** what the bus did to the block between two polls of a register *)
  bus_progress : i2c_hw_t -> i2c_hw_t;
  (** how many polls a busy-wait is followed for *)
  spin_limit : nat;
  (** the code behind the function pointers of the application *)
  extern_slave_code :
    N -> option i2c_inst_t -> i2c_slave_event_t -> machine -> fault + machine;
  receive_code : WireReceiveHandler -> Z -> machine -> fault + machine;
  request_code : WireRequestHandler -> machine -> fault + machine
}.

(** The conversions of C that the code relies on. *)
Definition to_uint8 (x : Z) : Z := x mod 256.
Definition to_size_t (x : Z) : Z := x mod 2 ^ 32.

(** The SDK's macro [MIN(a, b)], which is [((b)>(a)?(a):(b))]. *)
Definition MIN (a b : Z) : Z := if b >? a then a else b.

Section Code.
Context `{P : Platform}.

(** *** Hardware access *)

(** [get_core_num() ? &i2c_core1_slave : &i2c_core0_slave] *)
Definition this_core_slave : M slave_ptr :=
  gets (fun m => if core_num m =? 0 then core0_slave else core1_slave).

(** [i2c_hw_index(i2c)], which checks that the pointer is one of the two
    instances. *)
Definition i2c_hw_index (p : option i2c_inst_t) : M Z :=
  match p with
  | Some inst => mret (hw_index inst)
  | None => throw AssertionFailed
  end.

(** [i2c_get_hw(i2c)], which makes the same check before it reads through
    the pointer. *)
Definition i2c_get_hw (p : option i2c_inst_t) : M i2c_inst_t :=
  match p with
  | Some inst => mret inst
  | None => throw AssertionFailed
  end.

(** The masked interrupt status, [hw->intr_stat]. *)
Definition read_intr_stat (inst : i2c_inst_t) : M Z :=
  gets (fun m => Z.land (raw_intr_stat (hw_at inst m)) (intr_mask (hw_at inst m))).

(** Reading one of the [clr_*] registers clears that condition. *)
Definition read_clr (bits : Z) (inst : i2c_inst_t) : M unit :=
  modify (update_hw inst (fun h =>
    set_raw_intr_stat (Z.land (raw_intr_stat h) (Z.lnot bits)) h)).

Definition write_intr_mask (inst : i2c_inst_t) (v : Z) : M unit :=
  modify (update_hw inst (set_intr_mask v)).

(** [hw->status] is volatile: the bus has moved on since the last access.
    Only the transmit-FIFO-not-full bit is modelled, the one the code
    tests. *)
Definition read_status (inst : i2c_inst_t) : M Z :=
  modify (update_hw inst bus_progress);;
  gets (fun m =>
    if Z.of_nat (length (tx_fifo (hw_at inst m))) <? tx_fifo_depth
    then I2C_IC_STATUS_TFNF_BITS else 0).

(** Modelled from the spec: the SDK functions [i2c_set_slave_mode],
    [irq_set_exclusive_handler], [irq_remove_handler] and [irq_set_enabled]
    are not among the sources. In the spec they enable or disable slave
    addressing with an address, install or remove the interrupt service
    routine of a line, and enable or disable the line, on the core that
    calls them. *)
Definition i2c_set_slave_mode (p : option i2c_inst_t) (slave : bool) (addr : Z) : M unit :=
  inst ← i2c_get_hw p;
  modify (update_hw inst (set_slave_mode slave addr)).

Definition update_irq (num : Z) (f : irq_line -> irq_line) (m : machine) : machine :=
  set_nvic (<[(core_num m, num) := f (default irq_line_reset (nvic m !! (core_num m, num)))]> (nvic m)) m.

Definition irq_set_exclusive_handler (num : Z) (h : irq_handler_t) : M unit :=
  modify (update_irq num (fun l => mk_irq (Some h) (irq_enabled l))).
Definition irq_remove_handler (num : Z) (h : irq_handler_t) : M unit :=
  modify (update_irq num (fun l => mk_irq None (irq_enabled l))).
Definition irq_set_enabled (num : Z) (en : bool) : M unit :=
  modify (update_irq num (fun l => mk_irq (irq_handler l) en)).

(** Modelled from the spec: i2c_fifo.h is not among the sources. The spec
    lists byte-level FIFO read and write and the FIFO status among the
    capabilities of the hardware interface: the number of bytes waiting in
    the receive FIFO, popping its first byte, and pushing a byte onto the
    transmit FIFO. *)
Definition i2c_get_read_available (inst : i2c_inst_t) : M Z :=
  gets (fun m => Z.of_nat (length (rx_fifo (hw_at inst m)))).

Definition i2c_read_byte (inst : i2c_inst_t) : M Z :=
  fifo ← gets (fun m => rx_fifo (hw_at inst m));
  match fifo with
  | [] => throw AssertionFailed
  | b :: rest => modify (update_hw inst (set_rx_fifo rest));; mret (to_uint8 b)
  end.

Definition i2c_write_byte (inst : i2c_inst_t) (value : Z) : M unit :=
  modify (update_hw inst (fun h => set_tx_fifo (tx_fifo h ++ [value]) h)).

(** *** i2c_slave.c: init and deinit *)

Definition i2c_slave_init (inst : option i2c_inst_t) (address : Z)
    (h : option i2c_slave_handler_t) : M unit :=
  assert (negb (bool_decide (inst ≠ Some i2c0) && bool_decide (inst ≠ Some i2c1)));;
  assert (negb (bool_decide (h = None)));;
  slave ← this_core_slave;
  modify (update_slave slave (set_i2c inst));;
  modify (update_slave slave (set_handler h));;
  i2c_set_slave_mode inst true address;;
  hw ← i2c_get_hw inst;
  write_intr_mask hw
    (Z.lor I2C_IC_INTR_MASK_M_RX_FULL_BITS
      (Z.lor I2C_IC_INTR_MASK_M_RD_REQ_BITS
        (Z.lor I2C_IC_RAW_INTR_STAT_TX_ABRT_BITS
          (Z.lor I2C_IC_INTR_MASK_M_STOP_DET_BITS I2C_IC_INTR_MASK_M_START_DET_BITS))));;
  idx ← i2c_hw_index inst;
  let num := I2C0_IRQ + idx in
  irq_set_exclusive_handler num i2c_slave_irq_handler_fn;;
  irq_set_enabled num true.

Definition i2c_slave_deinit : M unit :=
  slave ← this_core_slave;
  inst ← gets (fun m => i2c (slave_at slave m));
  assert (negb (bool_decide (inst = None)));;
  modify (update_slave slave (set_i2c None));;
  modify (update_slave slave (set_handler None));;
  modify (update_slave slave (set_transfer_in_progress false));;
  idx ← i2c_hw_index inst;
  let num := I2C0_IRQ + idx in
  irq_set_enabled num false;;
  irq_remove_handler num i2c_slave_irq_handler_fn;;
  hw ← i2c_get_hw inst;
  write_intr_mask hw I2C_IC_INTR_MASK_RESET;;
  i2c_set_slave_mode inst false 0.

(** *** Wire.cpp and Wire.h: the TwoWire methods *)

(** [this == &Wire ? i2c0 : i2c1]; the assertion on [this] holds for both
    objects. *)
Definition TwoWire_i2c (this : wire_ptr) : i2c_inst_t :=
  match this with Wire_ptr => i2c0 | Wire1_ptr => i2c1 end.

(** [buf_[bufLen_++] = value] *)
Definition buf_push (this : wire_ptr) (value : Z) : M unit :=
  w ← gets (wire_at this);
  let i := bufLen_ w in
  modify (update_wire this (set_bufLen_ (to_uint8 (i + 1))));;
  if bool_decide (0 ≤ i < Z.of_nat (length (buf_ w))) then
    modify (update_wire this (fun w => set_buf_ (<[Z.to_nat i := value]> (buf_ w)) w))
  else throw OutOfBounds.

(** [while ((hw->status & I2C_IC_STATUS_TFNF_BITS) == 0) tight_loop_contents();] *)
Fixpoint wait_tx_not_full (inst : i2c_inst_t) (polls : nat) : M unit :=
  match polls with
  | O => throw Hang
  | S n =>
      status ← read_status inst;
      if Z.land status I2C_IC_STATUS_TFNF_BITS =? 0
      then wait_tx_not_full inst n
      else mret tt
  end.

Definition begin (this : wire_ptr) : M unit :=
  w ← gets (wire_at this);
  assert (bool_decide (txAddress_ w = NO_ADDRESS));;
  (if bool_decide (mode_ w ≠ Unassigned) then i2c_slave_deinit else mret tt);;
  modify (update_wire this (set_mode_ Master));;
  modify (update_wire this (set_bufLen_ 0));;
  modify (update_wire this (set_bufPos_ 0)).

Definition begin_slave (this : wire_ptr) (selfAddress : Z) : M unit :=
  w ← gets (wire_at this);
  assert (bool_decide (txAddress_ w = NO_ADDRESS));;
  (if bool_decide (mode_ w ≠ Unassigned) then i2c_slave_deinit else mret tt);;
  modify (update_wire this (set_mode_ Slave));;
  modify (update_wire this (set_bufLen_ 0));;
  modify (update_wire this (set_bufPos_ 0));;
  i2c_slave_init (Some (TwoWire_i2c this)) selfAddress (Some TwoWire_handleEvent).

Definition beginTransmission (this : wire_ptr) (address : Z) : M unit :=
  w ← gets (wire_at this);
  assert (bool_decide (mode_ w = Master));;
  assert (bool_decide (txAddress_ w = NO_ADDRESS));;
  assert (bool_decide (address ≠ NO_ADDRESS));;
  modify (update_wire this (set_txAddress_ address));;
  modify (update_wire this (set_bufLen_ 0));;
  modify (update_wire this (set_bufPos_ 0)).

Definition endTransmission (this : wire_ptr) (sendStop : bool) : M Z :=
  w ← gets (wire_at this);
  assert (bool_decide (mode_ w = Master));;
  assert (bool_decide (txAddress_ w ≠ NO_ADDRESS));;
  assert (bool_decide (bufPos_ w = 0));;
  let inst := TwoWire_i2c this in
  hw ← gets (hw_at inst);
  let '(result, hw') :=
    i2c_write_blocking inst (txAddress_ w) (buf_ w) (bufLen_ w) (negb sendStop) hw in
  modify (set_hw_at inst hw');;
  modify (update_wire this (set_txAddress_ NO_ADDRESS));;
  modify (update_wire this (set_bufLen_ 0));;
  w ← gets (wire_at this);
  if result <? 0 then mret 4
  else if result <? bufLen_ w then mret 3
  else mret 0.

Definition requestFrom (this : wire_ptr) (address count : Z) (sendStop : bool) : M Z :=
  w ← gets (wire_at this);
  assert (bool_decide (mode_ w = Master));;
  assert (bool_decide (txAddress_ w = NO_ADDRESS));;
  let count := MIN count WIRE_BUFFER_LENGTH in
  let inst := TwoWire_i2c this in
  hw ← gets (hw_at inst);
  let '(result, received, hw') :=
    i2c_read_blocking inst address count (negb sendStop) hw in
  let stored := take (Z.to_nat count) received in
  modify (set_hw_at inst hw');;
  (if bool_decide (length stored ≤ length (buf_ w))%nat then
     modify (update_wire this (set_buf_ (stored ++ drop (length stored) (buf_ w))))
   else throw OutOfBounds);;
  let result := if result <? 0 then 0 else result in
  modify (update_wire this (set_bufLen_ (to_uint8 result)));;
  modify (update_wire this (set_bufPos_ 0));;
  mret (to_uint8 result).

(** [write(uint8_t value)] *)
Definition write (this : wire_ptr) (value : Z) : M Z :=
  w ← gets (wire_at this);
  assert (bool_decide (mode_ w ≠ Unassigned));;
  if bool_decide (mode_ w = Master) then
    assert (bool_decide (txAddress_ w ≠ NO_ADDRESS));;
    if bufLen_ w =? WIRE_BUFFER_LENGTH then mret 0
    else buf_push this value;; mret 1
  else
    let inst := TwoWire_i2c this in
    wait_tx_not_full inst spin_limit;;
    i2c_write_byte inst value;;
    mret 1.

(** The two loops of [write(const uint8_t *data, size_t size)], counting [i]
    up from its current value for [n] more rounds; [data] is the array the
    pointer refers to. *)
Fixpoint write_master_loop (this : wire_ptr) (data : list Z) (i : nat) (n : nat) : M unit :=
  match n with
  | O => mret tt
  | S n' =>
      match data !! i with
      | None => throw OutOfBounds
      | Some v => buf_push this v;; write_master_loop this data (S i) n'
      end
  end.

Fixpoint write_slave_loop (inst : i2c_inst_t) (data : list Z) (i : nat) (n : nat) : M unit :=
  match n with
  | O => mret tt
  | S n' =>
      wait_tx_not_full inst spin_limit;;
      match data !! i with
      | None => throw OutOfBounds
      | Some v => i2c_write_byte inst v;; write_slave_loop inst data (S i) n'
      end
  end.

(** [write(const uint8_t *data, size_t size)] *)
Definition write_data (this : wire_ptr) (data : list Z) (size : Z) : M Z :=
  w ← gets (wire_at this);
  assert (bool_decide (mode_ w ≠ Unassigned));;
  if bool_decide (mode_ w = Master) then
    assert (bool_decide (txAddress_ w ≠ NO_ADDRESS));;
    let size := MIN size (to_size_t (WIRE_BUFFER_LENGTH - bufLen_ w)) in
    write_master_loop this data 0 (Z.to_nat size);;
    mret size
  else
    write_slave_loop (TwoWire_i2c this) data 0 (Z.to_nat size);;
    mret size.

Definition onReceive (this : wire_ptr) (h : option WireReceiveHandler) : M unit :=
  modify (update_wire this (set_receiveHandler_ h)).

Definition onRequest (this : wire_ptr) (h : option WireRequestHandler) : M unit :=
  modify (update_wire this (set_requestHandler_ h)).

Definition available (this : wire_ptr) : M Z :=
  w ← gets (wire_at this);
  assert (bool_decide (mode_ w ≠ Unassigned));;
  assert (bool_decide (txAddress_ w = NO_ADDRESS));;
  mret (to_size_t (bufLen_ w - bufPos_ w)).

(** [buf_[bufPos_]], an access outside the array being a fault. *)
Definition buf_at (w : TwoWire) (i : Z) : M Z :=
  match (if bool_decide (0 ≤ i) then buf_ w !! Z.to_nat i else None) with
  | Some b => mret b
  | None => throw OutOfBounds
  end.

Definition peek (this : wire_ptr) : M Z :=
  w ← gets (wire_at this);
  assert (bool_decide (mode_ w ≠ Unassigned));;
  assert (bool_decide (txAddress_ w = NO_ADDRESS));;
  if bufPos_ w <? bufLen_ w then buf_at w (bufPos_ w) else mret (-1).

Definition read (this : wire_ptr) : M Z :=
  w ← gets (wire_at this);
  assert (bool_decide (mode_ w ≠ Unassigned));;
  assert (bool_decide (txAddress_ w = NO_ADDRESS));;
  if bufPos_ w <? bufLen_ w then
    modify (update_wire this (set_bufPos_ (to_uint8 (bufPos_ w + 1))));;
    buf_at w (bufPos_ w)
  else mret (-1).

(** Calls through the two user handler pointers. *)
Definition call_receiveHandler (h : WireReceiveHandler) (count : Z) : M unit :=
  log (CallReceiveHandler h count);; run_extern (receive_code h count).

Definition call_requestHandler (h : WireRequestHandler) : M unit :=
  log (CallRequestHandler h);; run_extern (request_code h).

(** The loop of the receive case: [n] bytes are taken from the FIFO. *)
Fixpoint receive_loop (inst : i2c_inst_t) (wire : wire_ptr) (n : nat) : M unit :=
  match n with
  | O => mret tt
  | S n' =>
      value ← i2c_read_byte inst;
      w ← gets (wire_at wire);
      (if bufLen_ w <? WIRE_BUFFER_LENGTH then buf_push wire value else mret tt);;
      receive_loop inst wire n'
  end.

Definition handleEvent (p : option i2c_inst_t) (event : i2c_slave_event_t) : M unit :=
  idx ← i2c_hw_index p;
  let wire := if idx =? 0 then Wire_ptr else Wire1_ptr in
  w ← gets (wire_at wire);
  assert (bool_decide (mode_ w = Slave));;
  assert (bool_decide (bufPos_ w = 0));;
  match event with
  | I2C_SLAVE_RECEIVE =>
      inst ← i2c_get_hw p;
      n ← i2c_get_read_available inst;
      receive_loop inst wire (Z.to_nat n)
  | I2C_SLAVE_REQUEST =>
      assert (bool_decide (bufLen_ w = 0));;
      assert (bool_decide (bufPos_ w = 0));;
      match requestHandler_ w with
      | Some h => call_requestHandler h
      | None => mret tt
      end
  | I2C_SLAVE_FINISH =>
      (if 0 <? bufLen_ w then
         match receiveHandler_ w with
         | Some h => call_receiveHandler h (bufLen_ w)
         | None => mret tt
         end;;
         modify (update_wire wire (set_bufLen_ 0));;
         modify (update_wire wire (set_bufPos_ 0))
       else mret tt);;
      w ← gets (wire_at wire);
      assert (bool_decide (bufPos_ w = 0))
  end.

(** *** i2c_slave.c: the interrupt handler *)

(** [slave->handler(i2c, event)] *)
Definition call_handler (h : option i2c_slave_handler_t) (p : option i2c_inst_t)
    (event : i2c_slave_event_t) : M unit :=
  match h with
  | None => throw NullPointer
  | Some f =>
      log (CallSlaveHandler f p event);;
      match f with
      | TwoWire_handleEvent => handleEvent p event
      | extern_handler a => run_extern (extern_slave_code a p event)
      end
  end.

Definition finish_transfer (slave : slave_ptr) : M unit :=
  s ← gets (slave_at slave);
  if transfer_in_progress s then
    call_handler (handler s) (i2c s) I2C_SLAVE_FINISH;;
    modify (update_slave slave (set_transfer_in_progress false))
  else mret tt.

Definition i2c_slave_irq_handler : M unit :=
  slave ← this_core_slave;
  p ← gets (fun m => i2c (slave_at slave m));
  hw ← i2c_get_hw p;
  intr_stat ← read_intr_stat hw;
  if intr_stat =? 0 then mret tt
  else
    (if negb (Z.land intr_stat I2C_IC_INTR_STAT_R_TX_ABRT_BITS =? 0) then
       finish_transfer slave;;
       read_clr I2C_IC_INTR_STAT_R_TX_ABRT_BITS hw
     else mret tt);;
    (if negb (Z.land intr_stat I2C_IC_INTR_STAT_R_START_DET_BITS =? 0) then
       finish_transfer slave;;
       read_clr I2C_IC_INTR_STAT_R_START_DET_BITS hw
     else mret tt);;
    (if negb (Z.land intr_stat I2C_IC_INTR_STAT_R_STOP_DET_BITS =? 0) then
       finish_transfer slave;;
       read_clr I2C_IC_INTR_STAT_R_STOP_DET_BITS hw
     else mret tt);;
    (if negb (Z.land intr_stat I2C_IC_INTR_STAT_R_RX_FULL_BITS =? 0) then
       modify (update_slave slave (set_transfer_in_progress true));;
       h ← gets (fun m => handler (slave_at slave m));
       call_handler h p I2C_SLAVE_RECEIVE
     else mret tt);;
    (if negb (Z.land intr_stat I2C_IC_INTR_STAT_R_RD_REQ_BITS =? 0) then
       modify (update_slave slave (set_transfer_in_progress true));;
       h ← gets (fun m => handler (slave_at slave m));
       call_handler h p I2C_SLAVE_REQUEST;;
       read_clr I2C_IC_INTR_STAT_R_RD_REQ_BITS hw
     else mret tt).

End Code.

(** ** A concrete platform

    The register layout of the RP2040, a peer that answers every bulk write
    with [write_result] and every bulk read either in full, with
    [read_bytes], or with an error, and a small application. *)

(** Application code: the receive handler at address 1 takes one byte out of
    [Wire] with [read()]; every other handler returns at once. *)
Definition app_receive (h : WireReceiveHandler) (count : Z) (m : machine) : fault + machine :=
  if (h =? 1)%N then
    match result_of (read Wire_ptr m) with
    | inl e => inl e
    | inr (_, m1) => inr m1
    end
  else inr m.

Definition rp2040 (write_result : Z) (read_ok : bool) (read_bytes : list Z) : Platform := {|
  I2C_IC_INTR_STAT_R_TX_ABRT_BITS := 0x40;
  I2C_IC_INTR_STAT_R_START_DET_BITS := 0x400;
  I2C_IC_INTR_STAT_R_STOP_DET_BITS := 0x200;
  I2C_IC_INTR_STAT_R_RX_FULL_BITS := 0x4;
  I2C_IC_INTR_STAT_R_RD_REQ_BITS := 0x20;
  I2C_IC_INTR_MASK_M_RX_FULL_BITS := 0x4;
  I2C_IC_INTR_MASK_M_RD_REQ_BITS := 0x20;
  I2C_IC_RAW_INTR_STAT_TX_ABRT_BITS := 0x40;
  I2C_IC_INTR_MASK_M_STOP_DET_BITS := 0x200;
  I2C_IC_INTR_MASK_M_START_DET_BITS := 0x400;
  I2C_IC_INTR_MASK_RESET := 0x8ff;
  I2C_IC_STATUS_TFNF_BITS := 0x2;
  I2C0_IRQ := 23;
  tx_fifo_depth := 16;
  i2c_write_blocking := fun _ _ _ _ _ hw => (write_result, hw);
  i2c_read_blocking := fun _ _ len _ hw =>
    (if read_ok then len else -1, if read_ok then read_bytes else [], hw);
  bus_progress := fun hw => set_tx_fifo (tail (tx_fifo hw)) hw;
  spin_limit := 64;
  extern_slave_code := fun _ _ _ m => inr m;
  receive_code := app_receive;
  request_code := fun _ m => inr m
|}.

Definition hw_reset : i2c_hw_t := mk_hw 0 0x8ff [] [] false 0.

(** The machine after reset, running on core 0. *)
Definition machine_reset : machine :=
  mk_machine 0 slave_unbound slave_unbound hw_reset hw_reset ∅ TwoWire_init TwoWire_init.

(** [Wire1] as a master with an open transmission to 0x17 and the four bytes
    05 41 42 43 buffered. *)
Definition wire_four_buffered : TwoWire :=
  mk_wire None None Master 0x17
    ([0x05; 0x41; 0x42; 0x43] ++ replicate 28 0) 4 0.

Definition machine_four_buffered : machine :=
  set_Wire1 wire_four_buffered machine_reset.

(** ** What the claims speak about *)

(** Calls of the slave handler with the Finish event. *)
Definition is_finish_call (e : call_event) : bool :=
  match e with
  | CallSlaveHandler _ _ I2C_SLAVE_FINISH => true
  | _ => false
  end.

Definition finish_calls (t : list call_event) : nat :=
  length (List.filter is_finish_call t).

(** The state invariant of one TwoWire object. *)
Definition wire_inv (w : TwoWire) : Prop :=
  0 ≤ bufPos_ w ∧ bufPos_ w ≤ bufLen_ w ∧ bufLen_ w ≤ WIRE_BUFFER_LENGTH ∧
  (txAddress_ w ≠ NO_ADDRESS → mode_ w = Master).

Definition wires_inv (m : machine) : Prop :=
  wire_inv (Wire m) ∧ wire_inv (Wire1 m).

(** Partial correctness: from a machine in [pre], a run that returns ends
    in [post]. *)
Definition hoare {A} (pre : machine → Prop) (x : M A) (post : A → machine → Prop) : Prop :=
  ∀ m, pre m →
    match result_of (x m) with
    | inr (a, m') => post a m'
    | inl _ => True
    end.

(** A computation keeps a property of the machine whenever it returns. *)
Definition preserves {A} (inv : machine → Prop) (x : M A) : Prop :=
  hoare inv x (λ _, inv).

(** A computation that leaves both TwoWire objects as they are. *)
Definition keeps_wires {A} (x : M A) : Prop :=
  ∀ m, match result_of (x m) with
       | inr (_, m') => Wire m' = Wire m ∧ Wire1 m' = Wire1 m
       | inl _ => True
       end.

(** The same for application code. *)
Definition extern_preserves (inv : machine → Prop) (f : machine → fault + machine) : Prop :=
  ∀ m, inv m →
    match f m with
    | inr m' => inv m'
    | inl _ => True
    end.

(** [n] calls of [read()] in a row, with their results in order. *)
Fixpoint read_n (this : wire_ptr) (n : nat) : M (list Z) :=
  match n with
  | O => mret []
  | S n' => b ← read this; bs ← read_n this n'; mret (b :: bs)
  end.

(** The object [handleEvent] selects for an instance. *)
Definition wire_of (inst : i2c_inst_t) : wire_ptr :=
  match inst with i2c0 => Wire_ptr | i2c1 => Wire1_ptr end.

(** The slave context of the core the machine runs on. *)
Definition current_slave (m : machine) : slave_ptr :=
  if core_num m =? 0 then core0_slave else core1_slave.

(** How many Finish events the context [slave] may still raise: one while a
    transfer is in progress, none otherwise. *)
Definition budget (slave : slave_ptr) (m : machine) : nat :=
  if transfer_in_progress (slave_at slave m) then 1 else 0.

(** The Finish events a run raised, plus what it leaves of the budget. *)
Definition spent {A} (slave : slave_ptr) (r : list call_event * (fault + A * machine)) : nat :=
  finish_calls (trace_of r) +
  match result_of r with
  | inr (_, m') => budget slave m'
  | inl _ => 0
  end.

Definition within_budget {A} (slave : slave_ptr) (x : M A) : Prop :=
  ∀ m, (spent slave (x m) ≤ budget slave m)%nat.

Definition capped {A} (slave : slave_ptr) (x : M A) : Prop :=
  ∀ m, (finish_calls (trace_of (x m)) ≤ budget slave m)%nat.

Definition quiet {A} (x : M A) : Prop :=
  ∀ m, finish_calls (trace_of (x m)) = 0%nat.

(** A peer that answers a bulk read with the five bytes of "Hello". *)
Definition hello : list Z := [0x48; 0x65; 0x6c; 0x6c; 0x6f].

(** [Wire1] after [Wire1.begin()] on the machine after reset: a master, with
    no slave context bound on the core. *)
Definition machine_wire1_master : machine :=
  set_Wire1 (set_mode_ Master TwoWire_init) machine_reset.

(** The setup of the example program: [Wire.begin(0x17)] has bound the slave
    context of core 0 to i2c0, and [Wire1.begin()] has made [Wire1] a
    master. *)
Definition machine_example_setup : machine :=
  mk_machine 0
    (mk_slave (Some i2c0) (Some TwoWire_handleEvent) false) slave_unbound
    (mk_hw 0 0x664 [] [] true 0x17) hw_reset
    {[ (0, 23) := mk_irq (Some i2c_slave_irq_handler_fn) true ]}
    (set_mode_ Slave TwoWire_init) (set_mode_ Master TwoWire_init).

(** [buf_[bufLen_++] = value] on the object, for an index inside the
    array. *)
Definition pushed (value : Z) (w : TwoWire) : TwoWire :=
  set_buf_ (<[Z.to_nat (bufLen_ w) := value]> (buf_ w))
    (set_bufLen_ (to_uint8 (bufLen_ w + 1)) w).

(** The object after [data] was appended to the [bufLen_] bytes it holds. *)
Definition appended (data : list Z) (w : TwoWire) : TwoWire :=
  set_buf_
    (take (Z.to_nat (bufLen_ w)) (buf_ w) ++ data ++
     drop (Z.to_nat (bufLen_ w) + length data) (buf_ w))
    (set_bufLen_ (bufLen_ w + Z.of_nat (length data)) w).

(** The example's slave after the master wrote 05 41 42 43: the bytes are
    buffered in [Wire], whose receive handler is the one at address 1, a
    transfer is in progress and the hardware reports stop and start. *)
Definition wire_four_received (h : option WireReceiveHandler) : TwoWire :=
  mk_wire h None Slave 255 ([0x05; 0x41; 0x42; 0x43] ++ replicate 28 0) 4 0.

Definition machine_four_received (h : option WireReceiveHandler) : machine :=
  mk_machine 0
    (mk_slave (Some i2c0) (Some TwoWire_handleEvent) true) slave_unbound
    (mk_hw 0x600 0x664 [] [] true 0x17) hw_reset
    {[ (0, 23) := mk_irq (Some i2c_slave_irq_handler_fn) true ]}
    (wire_four_received h) (set_mode_ Master TwoWire_init).

(** ** More of what the theorems speak about *)

#[global] Instance i2c_slave_event_eq_dec : EqDecision i2c_slave_event_t.
Proof. solve_decision. Defined.

(** The events the slave handler was called with, in order. *)
Definition slave_event_of (e : call_event) : option i2c_slave_event_t :=
  match e with
  | CallSlaveHandler _ _ ev => Some ev
  | _ => None
  end.

Definition slave_events (t : list call_event) : list i2c_slave_event_t :=
  omap slave_event_of t.

(** The elements of [l] that a mask selects. *)
Fixpoint picks {A} (mask : list bool) (l : list A) : list A :=
  match mask, l with
  | b :: mask', x :: l' => if b then x :: picks mask' l' else picks mask' l'
  | _, _ => []
  end.

(** A run whose slave handler calls are a selection of [l], in order. *)
Definition selects {A} (l : list i2c_slave_event_t) (x : M A) : Prop :=
  ∀ m, ∃ mask, length mask = length l ∧
               slave_events (trace_of (x m)) = picks mask l.

(** A computation that leaves a part of the machine as it is whenever it
    returns. *)
Definition keeps {A B} (part : machine → B) (x : M A) : Prop :=
  ∀ m, match result_of (x m) with
       | inr (_, m') => part m' = part m
       | inl _ => True
       end.

(** The same for application code. *)
Definition extern_keeps {B} (part : machine → B) (f : machine → fault + machine) : Prop :=
  ∀ m, match f m with
       | inr m' => part m' = part m
       | inl _ => True
       end.

(** The context [sl] with a given flag and the other two fields as in
    [s0]. *)
Definition flagged (sl : slave_ptr) (s0 : i2c_slave_t) (t : bool) (m : machine) : Prop :=
  slave_at sl m = set_transfer_in_progress t s0.

(** The masked interrupt status the handler reads, and its tests. *)
Definition masked_status (inst : i2c_inst_t) (m : machine) : Z :=
  Z.land (raw_intr_stat (hw_at inst m)) (intr_mask (hw_at inst m)).

Definition asserted (status bits : Z) : bool := negb (Z.land status bits =? 0).

(** The interrupt line of an instance on the core the machine runs on. *)
Definition irq_line_of `{P : Platform} (inst : i2c_inst_t) (m : machine) : irq_line :=
  default irq_line_reset (nvic m !! (core_num m, I2C0_IRQ + hw_index inst)).

(** The five interrupt sources [i2c_slave_init] unmasks. *)
Definition slave_intr_mask `{P : Platform} : Z :=
  Z.lor I2C_IC_INTR_MASK_M_RX_FULL_BITS
    (Z.lor I2C_IC_INTR_MASK_M_RD_REQ_BITS
      (Z.lor I2C_IC_RAW_INTR_STAT_TX_ABRT_BITS
        (Z.lor I2C_IC_INTR_MASK_M_STOP_DET_BITS I2C_IC_INTR_MASK_M_START_DET_BITS))).

(** ** example_mem_wire.cpp: the handlers of the memory example

    The example keeps a 256 byte memory and a current address in a static
    [context]; its two handlers use [Wire]. They are run on the context and
    the machine. *)

Record context_t := mk_context {
  mem : list Z;
  mem_address : Z
}.

(** [while (Wire.available()) context.mem[context.mem_address++] =
    (uint8_t)Wire.read();], followed for [rounds] tests of the condition. *)
Fixpoint slave_on_receive_loop (rounds : nat) (ctx : context_t) : M context_t :=
  match rounds with
  | O => throw Hang
  | S k =>
      n ← available Wire_ptr;
      if n =? 0 then mret ctx
      else
        b ← read Wire_ptr;
        let a := mem_address ctx in
        if bool_decide (0 ≤ a < Z.of_nat (length (mem ctx))) then
          slave_on_receive_loop k
            (mk_context (<[Z.to_nat a := to_uint8 b]> (mem ctx)) (to_uint8 (a + 1)))
        else throw OutOfBounds
  end.

Definition slave_on_receive (rounds : nat) (count : Z) (ctx : context_t) : M context_t :=
  n ← available Wire_ptr;
  assert (negb (n =? 0));;
  b ← read Wire_ptr;
  slave_on_receive_loop rounds (mk_context (mem ctx) (to_uint8 b)).

Definition slave_on_request `{P : Platform} (ctx : context_t) : M context_t :=
  let a := mem_address ctx in
  match (if bool_decide (0 ≤ a) then mem ctx !! Z.to_nat a else None) with
  | None => throw OutOfBounds
  | Some value =>
      write Wire_ptr value;;
      mret (mk_context (mem ctx) (to_uint8 (a + 1)))
  end.

(** The context after the bytes [data] were stored from the current address
    on, one cell after the other. *)
Definition stored (data : list Z) (ctx : context_t) : context_t :=
  foldl (λ c b, mk_context (<[Z.to_nat (mem_address c) := to_uint8 b]> (mem c))
                  (to_uint8 (mem_address c + 1)))
    ctx data.

(** The bytes [read()] has still to hand out: the buffer from the cursor to
    the fill level. *)
Definition pending (this : wire_ptr) (m : machine) : list Z :=
  let w := wire_at this m in
  take (Z.to_nat (bufLen_ w - bufPos_ w)) (drop (Z.to_nat (bufPos_ w)) (buf_ w)).

(** A TwoWire object whose buffer can be read: it has a mode, no transmission
    is open, and cursor and fill level are inside the array. *)
Definition readable (this : wire_ptr) (m : machine) : Prop :=
  let w := wire_at this m in
  mode_ w ≠ Unassigned ∧ txAddress_ w = NO_ADDRESS ∧
  0 ≤ bufPos_ w ≤ bufLen_ w ∧
  bufLen_ w ≤ Z.of_nat (length (buf_ w)) ∧ bufLen_ w ≤ WIRE_BUFFER_LENGTH.

(** The same port with a master that has stopped clocking: the bus never
    takes a byte out of the transmit FIFO. *)
Definition rp2040_stuck : Platform := {|
  I2C_IC_INTR_STAT_R_TX_ABRT_BITS := 0x40;
  I2C_IC_INTR_STAT_R_START_DET_BITS := 0x400;
  I2C_IC_INTR_STAT_R_STOP_DET_BITS := 0x200;
  I2C_IC_INTR_STAT_R_RX_FULL_BITS := 0x4;
  I2C_IC_INTR_STAT_R_RD_REQ_BITS := 0x20;
  I2C_IC_INTR_MASK_M_RX_FULL_BITS := 0x4;
  I2C_IC_INTR_MASK_M_RD_REQ_BITS := 0x20;
  I2C_IC_RAW_INTR_STAT_TX_ABRT_BITS := 0x40;
  I2C_IC_INTR_MASK_M_STOP_DET_BITS := 0x200;
  I2C_IC_INTR_MASK_M_START_DET_BITS := 0x400;
  I2C_IC_INTR_MASK_RESET := 0x8ff;
  I2C_IC_STATUS_TFNF_BITS := 0x2;
  I2C0_IRQ := 23;
  tx_fifo_depth := 16;
  i2c_write_blocking := fun _ _ _ _ _ hw => (0, hw);
  i2c_read_blocking := fun _ _ _ _ hw => (-1, [], hw);
  bus_progress := fun hw => hw;
  spin_limit := 64;
  extern_slave_code := fun _ _ _ m => inr m;
  receive_code := app_receive;
  request_code := fun _ m => inr m
|}.

(** The example's slave with the transmit FIFO of i2c0 filled to its depth. *)
Definition machine_tx_full : machine :=
  set_i2c0_hw (mk_hw 0 0x664 [] (replicate 16 0x11) true 0x17) machine_example_setup.

(** * Theorems *)

(** ** The monad *)

Lemma trace_bind {A B} (x : M A) (k : A → M B) m :
  trace_of ((x ≫= k) m) =
  trace_of (x m) ++
  match result_of (x m) with
  | inr (a, m1) => trace_of (k a m1)
  | inl _ => []
  end.
Proof.
  unfold mbind, M_bind, bind, trace_of, result_of.
  destruct (x m) as [t1 [e|[a m1]]]; simpl.
  - by rewrite app_nil_r.
  - by destruct (k a m1).
Qed.

Lemma result_bind {A B} (x : M A) (k : A → M B) m :
  result_of ((x ≫= k) m) =
  match result_of (x m) with
  | inr (a, m1) => result_of (k a m1)
  | inl e => inl e
  end.
Proof.
  unfold mbind, M_bind, bind, result_of.
  destruct (x m) as [t1 [e|[a m1]]]; simpl; [done|].
  by destruct (k a m1).
Qed.

(** Running a sequence step by step. *)
Lemma run_bind_ret {A B} (a : A) (k : A → M B) m : (mret a ≫= k) m = k a m.
Proof. unfold mbind, M_bind, bind. simpl. by destruct (k a m). Qed.

Lemma run_bind_gets {A B} (f : machine → A) (k : A → M B) m :
  (gets f ≫= k) m = k (f m) m.
Proof. unfold mbind, M_bind, bind. simpl. by destruct (k (f m) m). Qed.

Lemma run_bind_modify {B} (f : machine → machine) (k : unit → M B) m :
  (modify f ≫= k) m = k tt (f m).
Proof. unfold mbind, M_bind, bind. simpl. by destruct (k tt (f m)). Qed.

Lemma run_bind_throw {A B} e (k : A → M B) m :
  (throw e ≫= k) m = ([], inl e).
Proof. done. Qed.

Lemma run_bind_assert {B} (c : bool) (k : unit → M B) m :
  (assert c ≫= k) m = if c then k tt m else ([], inl AssertionFailed).
Proof. destruct c; [apply run_bind_ret|done]. Qed.

Lemma run_bind_assoc {A B C} (x : M A) (f : A → M B) (g : B → M C) m :
  ((x ≫= f) ≫= g) m = (x ≫= (λ a, f a ≫= g)) m.
Proof.
  unfold mbind, M_bind, bind.
  destruct (x m) as [t1 [e|[a m1]]]; [done|].
  destruct (f a m1) as [t2 [e|[b m2]]]; [done|].
  destruct (g b m2) as [t3 r]. by rewrite app_assoc.
Qed.

Lemma run_ret {A} (a : A) m : mret (M := M) a m = ([], inr (a, m)).
Proof. done. Qed.

Lemma run_modify f m : modify f m = ([], inr (tt, f m)).
Proof. done. Qed.

Lemma run_assert (c : bool) m :
  assert c m = if c then ([], inr (tt, m)) else ([], inl AssertionFailed).
Proof. by destruct c. Qed.

Ltac run_step :=
  first
    [ rewrite run_bind_assoc | rewrite run_bind_ret | rewrite run_bind_gets
    | rewrite run_bind_modify | rewrite run_bind_throw | rewrite run_bind_assert
    | rewrite run_ret | rewrite run_modify | rewrite run_assert ].

Ltac run_prog := repeat (run_step; cbv beta).

Lemma finish_calls_app t1 t2 :
  finish_calls (t1 ++ t2) = (finish_calls t1 + finish_calls t2)%nat.
Proof. unfold finish_calls. by rewrite List.filter_app, length_app. Qed.

Lemma finish_calls_nil : finish_calls [] = 0%nat.
Proof. done. Qed.

(** ** Finish events of one pass of the interrupt handler *)

Section Quiet.
Context `{P : Platform}.

Lemma quiet_bind {A B} (x : M A) (k : A → M B) :
  quiet x → (∀ a, quiet (k a)) → quiet (x ≫= k).
Proof.
  intros Hx Hk m. rewrite trace_bind, finish_calls_app, Hx.
  destruct (result_of (x m)) as [e|[a m1]]; [done|apply Hk].
Qed.

Lemma quiet_ret {A} (a : A) : quiet (mret a).
Proof. done. Qed.
Lemma quiet_throw {A} e : quiet (throw (A := A) e).
Proof. done. Qed.
Lemma quiet_gets {A} (f : machine → A) : quiet (gets f).
Proof. done. Qed.
Lemma quiet_modify f : quiet (modify f).
Proof. done. Qed.
Lemma quiet_assert c : quiet (assert c).
Proof. by destruct c. Qed.
Lemma quiet_run_extern f : quiet (run_extern f).
Proof. intros m. unfold run_extern. by destruct (f m). Qed.
Lemma quiet_log e : is_finish_call e = false → quiet (log e).
Proof. intros He m. unfold log, finish_calls. simpl. by rewrite He. Qed.

Ltac quiet :=
  repeat first
    [ apply quiet_ret | apply quiet_throw | apply quiet_gets | apply quiet_modify
    | apply quiet_assert | apply quiet_run_extern | by apply quiet_log
    | match goal with H : context [quiet] |- _ => apply H end
    | apply quiet_bind; [|intros]
    | match goal with
      | |- quiet (if ?c then _ else _) => destruct c
      | |- quiet (match ?x with _ => _ end) => destruct x
      | |- quiet (let '(_, _) := ?x in _) => destruct x
      end ].

Lemma quiet_buf_push this v : quiet (buf_push this v).
Proof. unfold buf_push. quiet. Qed.

Lemma quiet_i2c_read_byte inst : quiet (i2c_read_byte inst).
Proof. unfold i2c_read_byte. quiet. Qed.

Lemma quiet_receive_loop inst wire n : quiet (receive_loop inst wire n).
Proof.
  induction n as [|n IH]; simpl; [apply quiet_ret|].
  pose proof (quiet_buf_push wire). pose proof (quiet_i2c_read_byte inst).
  quiet.
Qed.

Lemma quiet_handleEvent p ev : quiet (handleEvent p ev).
Proof.
  unfold handleEvent, i2c_hw_index, i2c_get_hw, i2c_get_read_available,
    call_requestHandler, call_receiveHandler.
  pose proof (quiet_receive_loop). quiet.
Qed.

Lemma quiet_call_handler h p ev :
  ev ≠ I2C_SLAVE_FINISH → quiet (call_handler h p ev).
Proof.
  intros Hev. unfold call_handler. pose proof (quiet_handleEvent p ev).
  destruct h as [f|]; [|apply quiet_throw].
  apply quiet_bind; [apply quiet_log; by destruct ev|intros _].
  destruct f; [done|apply quiet_run_extern].
Qed.

Lemma quiet_read_clr bits hw : quiet (read_clr bits hw).
Proof. apply quiet_modify. Qed.

End Quiet.

Section Budget.
Context `{P : Platform}.
Variable slave : slave_ptr.

Lemma within_budget_bind {A B} (x : M A) (k : A → M B) :
  within_budget slave x → (∀ a, within_budget slave (k a)) →
  within_budget slave (x ≫= k).
Proof.
  intros Hx Hk m. specialize (Hx m). unfold spent in *.
  rewrite trace_bind, result_bind, finish_calls_app.
  destruct (result_of (x m)) as [e|[a m1]]; simpl in *;
    [rewrite finish_calls_nil; lia|].
  specialize (Hk a m1). unfold spent in Hk. lia.
Qed.

Lemma capped_bind {A B} (x : M A) (k : A → M B) :
  within_budget slave x → (∀ a, capped slave (k a)) → capped slave (x ≫= k).
Proof.
  intros Hx Hk m. specialize (Hx m). unfold spent in Hx.
  rewrite trace_bind, finish_calls_app.
  destruct (result_of (x m)) as [e|[a m1]]; simpl in *;
    [rewrite finish_calls_nil; lia|].
  specialize (Hk a m1). lia.
Qed.

Lemma quiet_capped {A} (x : M A) : quiet x → capped slave x.
Proof. intros Hx m. rewrite Hx. lia. Qed.

Lemma within_budget_ret {A} (a : A) : within_budget slave (mret a).
Proof. intros m. unfold spent. simpl. lia. Qed.

Lemma within_budget_gets {A} (f : machine → A) : within_budget slave (gets f).
Proof. intros m. unfold spent. simpl. lia. Qed.

Lemma within_budget_read_clr bits hw : within_budget slave (read_clr bits hw).
Proof.
  intros m. unfold spent, budget. simpl.
  by destruct slave, hw.
Qed.

Lemma call_handler_at_most_one h p ev m :
  (finish_calls (trace_of (call_handler h p ev m)) ≤ 1)%nat.
Proof.
  unfold call_handler. destruct h as [f|]; [|simpl; unfold finish_calls; simpl; lia].
  rewrite trace_bind, finish_calls_app.
  assert (finish_calls (trace_of (log (CallSlaveHandler f p ev) m)) ≤ 1)%nat
    by (unfold finish_calls; simpl; destruct ev; simpl; lia).
  simpl result_of. cbv iota beta.
  destruct f.
  - rewrite quiet_handleEvent. lia.
  - rewrite quiet_run_extern. lia.
Qed.

Lemma within_budget_finish_transfer :
  within_budget slave (finish_transfer slave).
Proof.
  intros m. unfold finish_transfer, spent.
  rewrite trace_bind, result_bind. simpl.
  destruct (transfer_in_progress (slave_at slave m)) eqn:Htip.
  - unfold budget at 2. rewrite Htip.
    rewrite trace_bind, result_bind, finish_calls_app.
    pose proof (call_handler_at_most_one (handler (slave_at slave m))
      (i2c (slave_at slave m)) I2C_SLAVE_FINISH m).
    destruct (result_of (call_handler _ _ _ m)) as [e|[[] m1]]; simpl;
      rewrite finish_calls_nil; [lia|].
    unfold budget. replace (transfer_in_progress _) with false; [simpl; lia|].
    by destruct slave.
  - simpl. lia.
Qed.

Lemma within_budget_stage (c : bool) bits hw :
  within_budget slave
    (if c then finish_transfer slave;; read_clr bits hw else mret tt).
Proof.
  destruct c; [|apply within_budget_ret].
  apply within_budget_bind; [apply within_budget_finish_transfer|intros _].
  apply within_budget_read_clr.
Qed.

Lemma capped_dispatch p hw :
  capped slave
    (intr_stat ← read_intr_stat hw;
     if intr_stat =? 0 then mret tt
     else
       (if negb (Z.land intr_stat I2C_IC_INTR_STAT_R_TX_ABRT_BITS =? 0) then
          finish_transfer slave;;
          read_clr I2C_IC_INTR_STAT_R_TX_ABRT_BITS hw
        else mret tt);;
       (if negb (Z.land intr_stat I2C_IC_INTR_STAT_R_START_DET_BITS =? 0) then
          finish_transfer slave;;
          read_clr I2C_IC_INTR_STAT_R_START_DET_BITS hw
        else mret tt);;
       (if negb (Z.land intr_stat I2C_IC_INTR_STAT_R_STOP_DET_BITS =? 0) then
          finish_transfer slave;;
          read_clr I2C_IC_INTR_STAT_R_STOP_DET_BITS hw
        else mret tt);;
       (if negb (Z.land intr_stat I2C_IC_INTR_STAT_R_RX_FULL_BITS =? 0) then
          modify (update_slave slave (set_transfer_in_progress true));;
          h ← gets (fun m => handler (slave_at slave m));
          call_handler h p I2C_SLAVE_RECEIVE
        else mret tt);;
       (if negb (Z.land intr_stat I2C_IC_INTR_STAT_R_RD_REQ_BITS =? 0) then
          modify (update_slave slave (set_transfer_in_progress true));;
          h ← gets (fun m => handler (slave_at slave m));
          call_handler h p I2C_SLAVE_REQUEST;;
          read_clr I2C_IC_INTR_STAT_R_RD_REQ_BITS hw
        else mret tt)).
Proof.
  apply capped_bind; [apply within_budget_gets|intros intr_stat].
  destruct (intr_stat =? 0); [apply quiet_capped, quiet_ret|].
  do 3 (apply capped_bind; [apply within_budget_stage|intros _]).
  apply quiet_capped.
  apply quiet_bind; [|intros _].
  - destruct (negb _); [|apply quiet_ret].
    apply quiet_bind; [apply quiet_modify|intros _].
    apply quiet_bind; [apply quiet_gets|intros h].
    by apply quiet_call_handler.
  - destruct (negb _); [|apply quiet_ret].
    apply quiet_bind; [apply quiet_modify|intros _].
    apply quiet_bind; [apply quiet_gets|intros h].
    apply quiet_bind; [by apply quiet_call_handler|intros _].
    apply quiet_read_clr.
Qed.

End Budget.

(** C2. In one invocation of the interrupt handler, whatever the interrupt
    status and whatever the handler does, the slave handler is called with
    the Finish event at most once, and not at all unless
    [transfer_in_progress] of this core's context was true on entry. *)
Theorem irq_handler_finish_at_most_once `{P : Platform} (m : machine) :
  (finish_calls (trace_of (i2c_slave_irq_handler m)) ≤
   if transfer_in_progress (slave_at (current_slave m) m) then 1 else 0)%nat.
Proof.
  unfold i2c_slave_irq_handler.
  rewrite trace_bind. simpl. fold (current_slave m).
  rewrite trace_bind. simpl.
  destruct (i2c (slave_at (current_slave m) m)) as [hw|] eqn:Hp.
  - rewrite trace_bind. simpl.
    apply (capped_dispatch (current_slave m) (Some hw) hw m).
  - rewrite trace_bind. simpl. unfold finish_calls. simpl. lia.
Qed.

(** ** Binding and unbinding the slave context *)

Section Binding.
Context `{P : Platform}.

Lemma i2c_slave_deinit_unbound m :
  i2c (slave_at (current_slave m) m) = None →
  i2c_slave_deinit m = ([], inl AssertionFailed).
Proof.
  intros Hnone. unfold i2c_slave_deinit, this_core_slave. run_prog.
  fold (current_slave m). by rewrite Hnone.
Qed.

(** What a successful [i2c_slave_deinit] leaves of this core's context. *)
Lemma i2c_slave_deinit_bound m inst :
  i2c (slave_at (current_slave m) m) = Some inst →
  ∃ m', i2c_slave_deinit m = ([], inr (tt, m')) ∧
        core_num m' = core_num m ∧
        slave_at (current_slave m) m' = slave_unbound ∧
        Wire m' = Wire m ∧ Wire1 m' = Wire1 m.
Proof.
  intros Hsome.
  unfold i2c_slave_deinit, this_core_slave, i2c_hw_index, i2c_set_slave_mode,
    i2c_get_hw, irq_set_enabled, irq_remove_handler, write_intr_mask.
  run_prog. fold (current_slave m).
  rewrite Hsome. simpl negb. cbv iota. run_prog.
  eexists. split; [reflexivity|].
  destruct (current_slave m), inst; done.
Qed.

Lemma i2c_slave_init_binds m inst address h :
  ∃ m', i2c_slave_init (Some inst) address (Some h) m = ([], inr (tt, m')) ∧
        core_num m' = core_num m ∧
        i2c (slave_at (current_slave m) m') = Some inst ∧
        handler (slave_at (current_slave m) m') = Some h.
Proof.
  unfold i2c_slave_init, this_core_slave, i2c_hw_index, i2c_set_slave_mode,
    i2c_get_hw, irq_set_enabled, irq_set_exclusive_handler, write_intr_mask.
  assert (Hvalid : negb (bool_decide (Some inst ≠ Some i2c0) &&
                         bool_decide (Some inst ≠ Some i2c1)) = true)
    by (by destruct inst).
  run_prog. rewrite Hvalid. simpl negb. cbv iota. run_prog.
  fold (current_slave m).
  eexists. split; [reflexivity|].
  destruct (current_slave m), inst; done.
Qed.

End Binding.

(** C9. [i2c_slave_deinit] on a context that is not bound fails its
    assertion; and after any init followed by a deinit on the same core the
    context is back in the unbound state (instance, handler and flag
    cleared), so that a second deinit fails the assertion. *)
Theorem deinit_requires_bound_context `{P : Platform} :
  (∀ m, i2c (slave_at (current_slave m) m) = None →
        i2c_slave_deinit m = ([], inl AssertionFailed)) ∧
  (∀ m inst address h, ∃ m1 m2,
      i2c_slave_init (Some inst) address (Some h) m = ([], inr (tt, m1)) ∧
      i2c_slave_deinit m1 = ([], inr (tt, m2)) ∧
      slave_at (current_slave m2) m2 = slave_unbound ∧
      i2c_slave_deinit m2 = ([], inl AssertionFailed)).
Proof.
  split; [apply @i2c_slave_deinit_unbound|].
  intros m inst address h.
  destruct (i2c_slave_init_binds m inst address h) as (m1 & Hinit & Hc1 & Hi & _).
  assert (Hcur1 : current_slave m1 = current_slave m)
    by (unfold current_slave; by rewrite Hc1).
  rewrite <- Hcur1 in Hi.
  destruct (i2c_slave_deinit_bound m1 inst Hi) as (m2 & Hde & Hc2 & Hs & _).
  assert (Hcur2 : current_slave m2 = current_slave m1)
    by (unfold current_slave; by rewrite Hc2).
  exists m1, m2. rewrite Hcur2. repeat split; try done.
  apply i2c_slave_deinit_unbound. rewrite Hcur2, Hs. done.
Qed.

(** The first part at the machine after reset, where nothing is bound. *)
Lemma deinit_requires_bound_context_witness :
  i2c_slave_deinit (P := rp2040 0 true []) machine_reset = ([], inl AssertionFailed).
Proof.
  apply (proj1 (deinit_requires_bound_context (P := rp2040 0 true []))).
  reflexivity.
Defined.

(** ** endTransmission *)

(** X6. The result code of [endTransmission] in general: 4 for a negative
    bulk write result and 0 for every other one, with the transmission
    closed and the buffer empty afterwards. The comparison with [bufLen_]
    comes after [bufLen_] was set to 0. *)
Lemma endTransmission_code `{P : Platform} this sendStop m :
  let w := wire_at this m in
  let result :=
    (i2c_write_blocking (TwoWire_i2c this) (txAddress_ w) (buf_ w) (bufLen_ w)
       (negb sendStop) (hw_at (TwoWire_i2c this) m)).1 in
  mode_ w = Master → txAddress_ w ≠ NO_ADDRESS → bufPos_ w = 0 →
  ∃ m', endTransmission this sendStop m
          = ([], inr (if result <? 0 then 4 else 0, m')) ∧
        txAddress_ (wire_at this m') = NO_ADDRESS ∧
        bufLen_ (wire_at this m') = 0.
Proof.
  intros w result Hmode Htx Hpos. subst result.
  unfold endTransmission. run_prog. fold w.
  rewrite !bool_decide_eq_true_2 by done. cbv iota.
  destruct (i2c_write_blocking _ _ _ _ _ _) as [result hw'] eqn:Hw.
  run_prog. simpl fst.
  assert (Hlen : bufLen_ (wire_at this
            (update_wire this (set_bufLen_ 0)
               (update_wire this (set_txAddress_ NO_ADDRESS)
                  (set_hw_at (TwoWire_i2c this) hw' m)))) = 0)
    by (by destruct this).
  rewrite Hlen.
  destruct (result <? 0) eqn:Hneg.
  - rewrite run_ret. eexists. split; [reflexivity|]. by destruct this.
  - rewrite run_ret. eexists. split; [reflexivity|]. by destruct this.
Qed.

(** C1. Four bytes are buffered and the bulk write transfers two of them:
    [endTransmission] returns 0, the success code, where its documentation
    promises 3. *)
Theorem endTransmission_partial_write_returns_success :
  endTransmission (P := rp2040 2 true []) Wire1_ptr true machine_four_buffered
  = ([], inr (0, set_Wire1 (set_bufLen_ 0 (set_txAddress_ NO_ADDRESS wire_four_buffered))
                   machine_reset)).
Proof. vm_compute. reflexivity. Qed.

(** ** begin *)

(** From the Unassigned mode [begin()] does not touch the slave context. *)
Lemma begin_unassigned `{P : Platform} this m :
  mode_ (wire_at this m) = Unassigned →
  txAddress_ (wire_at this m) = NO_ADDRESS →
  begin this m =
    ([], inr (tt, update_wire this (set_bufPos_ 0)
                    (update_wire this (set_bufLen_ 0)
                       (update_wire this (set_mode_ Master) m)))).
Proof.
  intros Hmode Htx. unfold begin. run_prog.
  rewrite Hmode, Htx. simpl. run_prog. done.
Qed.

(** From every other mode, Master included, [begin()] starts with
    [i2c_slave_deinit], and stops there when this core has no bound
    context. *)
Lemma begin_assigned_unbound `{P : Platform} this m :
  mode_ (wire_at this m) ≠ Unassigned →
  txAddress_ (wire_at this m) = NO_ADDRESS →
  i2c (slave_at (current_slave m) m) = None →
  begin this m = ([], inl AssertionFailed).
Proof.
  intros Hmode Htx Hnone. unfold begin. run_prog.
  rewrite Htx, bool_decide_eq_true_2 by done.
  rewrite (bool_decide_eq_true_2 _ Hmode). cbv iota.
  unfold mbind, M_bind, bind. by rewrite i2c_slave_deinit_unbound.
Qed.

(** C3. [Wire1] is already a master and this core has no bound slave
    context: [begin()] calls [i2c_slave_deinit], whose assertion fails,
    instead of leaving the slave context alone. *)
Theorem begin_in_master_mode_calls_deinit :
  begin (P := rp2040 0 true []) Wire1_ptr machine_reset
    = ([], inr (tt, machine_wire1_master)) ∧
  begin (P := rp2040 0 true []) Wire1_ptr machine_wire1_master
    = ([], inl AssertionFailed).
Proof. split; vm_compute; reflexivity. Qed.

(** The setup of the example program is what its two calls of [begin]
    produce on the machine after reset. *)
Example example_setup_reached :
  (begin_slave (P := rp2040 0 true []) Wire_ptr 0x17;;
   begin (P := rp2040 0 true []) Wire1_ptr) machine_reset
  = ([], inr (tt, machine_example_setup)).
Proof. vm_compute. reflexivity. Qed.

(** In the setup of the example program, a second [Wire1.begin()] unbinds
    the slave context that [Wire] bound, and [Wire] stays in slave mode. *)
Example begin_in_master_mode_unbinds_other_port :
  ∃ m', begin (P := rp2040 0 true []) Wire1_ptr machine_example_setup
          = ([], inr (tt, m')) ∧
        i2c_core0_slave m' = slave_unbound ∧
        mode_ (Wire m') = Slave ∧ mode_ (Wire1 m') = Master.
Proof. eexists. split; [vm_compute; reflexivity|]. done. Qed.

(** ** write *)

Lemma update_wire_compose this f g m :
  update_wire this f (update_wire this g m) = update_wire this (λ w, f (g w)) m.
Proof. by destruct this. Qed.

Lemma update_wire_same this f m :
  f (wire_at this m) = wire_at this m → update_wire this f m = m.
Proof. unfold update_wire. intros ->. by destruct m, this. Qed.

Lemma wire_at_update this f m :
  wire_at this (update_wire this f m) = f (wire_at this m).
Proof. by destruct this. Qed.

Lemma update_wire_ext this f g m :
  f (wire_at this m) = g (wire_at this m) →
  update_wire this f m = update_wire this g m.
Proof. unfold update_wire. by intros ->. Qed.

Lemma MIN_min a b : MIN a b = Z.min a b.
Proof. unfold MIN. destruct (Z.gtb_spec b a); lia. Qed.

Lemma to_uint8_small x : 0 ≤ x < 256 → to_uint8 x = x.
Proof. intros. unfold to_uint8. by rewrite Z.mod_small. Qed.

Lemma to_size_t_small x : 0 ≤ x < 2 ^ 32 → to_size_t x = x.
Proof. intros. unfold to_size_t. by rewrite Z.mod_small. Qed.

Lemma run_buf_push this value m :
  0 ≤ bufLen_ (wire_at this m) < Z.of_nat (length (buf_ (wire_at this m))) →
  buf_push this value m = ([], inr (tt, update_wire this (pushed value) m)).
Proof.
  intros Hin. unfold buf_push. run_prog.
  rewrite bool_decide_eq_true_2 by done.
  run_prog. rewrite update_wire_compose. done.
Qed.

Lemma appended_nil w : 0 ≤ bufLen_ w → appended [] w = w.
Proof.
  intros. unfold appended. simpl. rewrite Nat.add_0_r, take_drop, Z.add_0_r.
  by destruct w.
Qed.

Lemma appended_cons v l w :
  0 ≤ bufLen_ w →
  bufLen_ w + 1 + Z.of_nat (length l) ≤ Z.of_nat (length (buf_ w)) →
  Z.of_nat (length (buf_ w)) ≤ 255 →
  appended l (pushed v w) = appended (v :: l) w.
Proof.
  intros Hlo Hhi Hcap. unfold appended, pushed. destruct w as [rh qh md tx buf L pos].
  simpl in *. rewrite to_uint8_small by lia.
  unfold set_buf_, set_bufLen_. simpl. f_equal; [|lia].
  replace (Z.to_nat (L + 1)) with (S (Z.to_nat L)) by lia.
  rewrite (take_S_r _ _ v) by (apply list_lookup_insert_eq; lia).
  rewrite take_insert_ge by lia.
  rewrite drop_insert_lt by lia.
  replace (Z.to_nat L + S (length l))%nat with (S (Z.to_nat L) + length l)%nat by lia.
  by rewrite <- app_assoc.
Qed.

Lemma run_write_master_loop this data n : ∀ i m,
  0 ≤ bufLen_ (wire_at this m) →
  bufLen_ (wire_at this m) + Z.of_nat n ≤ Z.of_nat (length (buf_ (wire_at this m))) →
  Z.of_nat (length (buf_ (wire_at this m))) ≤ 255 →
  (i + n ≤ length data)%nat →
  write_master_loop this data i n m
  = ([], inr (tt, update_wire this (appended (take n (drop i data))) m)).
Proof.
  induction n as [|n IH]; intros i m Hlo Hhi Hcap Hdata; simpl.
  - rewrite run_ret, update_wire_same; [done|by apply appended_nil].
  - destruct (lookup_lt_is_Some_2 data i) as [v Hv]; [lia|].
    rewrite Hv. unfold mbind, M_bind, bind.
    rewrite run_buf_push by lia.
    assert (Hlen : length (buf_ (pushed v (wire_at this m))) = length (buf_ (wire_at this m)))
      by apply length_insert.
    assert (HL : bufLen_ (pushed v (wire_at this m)) = bufLen_ (wire_at this m) + 1)
      by (simpl; apply to_uint8_small; lia).
    rewrite IH; rewrite ?wire_at_update, ?Hlen, ?HL; try lia.
    simpl. rewrite update_wire_compose. do 3 f_equal.
    apply update_wire_ext.
    rewrite (drop_S _ _ _ Hv). simpl.
    apply appended_cons; rewrite ?length_take, ?length_drop; lia.
Qed.

Lemma run_write_data_master `{P : Platform} this (data : list Z) size m :
  let w := wire_at this m in
  let n := Z.min size (WIRE_BUFFER_LENGTH - bufLen_ w) in
  mode_ w = Master → txAddress_ w ≠ NO_ADDRESS →
  length (buf_ w) = Z.to_nat WIRE_BUFFER_LENGTH →
  0 ≤ bufLen_ w ≤ WIRE_BUFFER_LENGTH →
  0 ≤ size ≤ Z.of_nat (length data) →
  write_data this data size m
  = ([], inr (n, update_wire this (appended (take (Z.to_nat n) data)) m)).
Proof.
  intros w n Hmode Htx Hbuf HL Hsize. unfold write_data. run_prog. fold w.
  rewrite Hmode. rewrite !bool_decide_eq_true_2 by done. cbv iota.
  run_prog. rewrite MIN_min, to_size_t_small by (unfold WIRE_BUFFER_LENGTH in *; lia).
  fold n. unfold WIRE_BUFFER_LENGTH in *.
  unfold mbind, M_bind, bind.
  rewrite run_write_master_loop; fold w; rewrite ?Hbuf; try lia.
  by rewrite drop_0.
Qed.

Lemma run_write_master `{P : Platform} this value m :
  let w := wire_at this m in
  mode_ w = Master → txAddress_ w ≠ NO_ADDRESS →
  length (buf_ w) = Z.to_nat WIRE_BUFFER_LENGTH →
  0 ≤ bufLen_ w ≤ WIRE_BUFFER_LENGTH →
  write this value m
  = if bufLen_ w =? WIRE_BUFFER_LENGTH then ([], inr (0, m))
    else ([], inr (1, update_wire this (pushed value) m)).
Proof.
  intros w Hmode Htx Hbuf HL. unfold write. run_prog. fold w.
  rewrite Hmode. rewrite !bool_decide_eq_true_2 by done. cbv iota.
  run_prog.
  destruct (Z.eqb_spec (bufLen_ w) WIRE_BUFFER_LENGTH) as [Hfull|Hroom]; [done|].
  unfold mbind, M_bind, bind. unfold WIRE_BUFFER_LENGTH in *.
  rewrite run_buf_push by (fold w; lia). done.
Qed.

(** C4. In master mode with an open transmission, [write(data, size)]
    accepts [min(size, capacity - bufLen_)] bytes and returns that count; the
    accepted bytes follow the bytes already buffered, in order, the others
    are dropped, and the length stays within the capacity. [write(value)]
    does what [write(&value, 1)] does: it returns 0 when the buffer is full
    and 1 otherwise. *)
Theorem write_master_clamps `{P : Platform} this (data : list Z) size value m :
  let w := wire_at this m in
  let n := Z.min size (WIRE_BUFFER_LENGTH - bufLen_ w) in
  mode_ w = Master → txAddress_ w ≠ NO_ADDRESS →
  length (buf_ w) = Z.to_nat WIRE_BUFFER_LENGTH →
  0 ≤ bufLen_ w ≤ WIRE_BUFFER_LENGTH →
  0 ≤ size ≤ Z.of_nat (length data) →
  (∃ m', write_data this data size m = ([], inr (n, m')) ∧
         m' = update_wire this (appended (take (Z.to_nat n) data)) m ∧
         bufLen_ (wire_at this m') = bufLen_ w + n ∧
         bufLen_ (wire_at this m') ≤ WIRE_BUFFER_LENGTH ∧
         take (Z.to_nat (bufLen_ w + n)) (buf_ (wire_at this m'))
           = take (Z.to_nat (bufLen_ w)) (buf_ w) ++ take (Z.to_nat n) data) ∧
  write this value m = write_data this [value] 1 m ∧
  (∃ m', write this value m
         = ([], inr (if bufLen_ w =? WIRE_BUFFER_LENGTH then 0 else 1, m'))).
Proof.
  intros w n Hmode Htx Hbuf HL Hsize.
  assert (Hn : length (take (Z.to_nat n) data) = Z.to_nat n)
    by (rewrite length_take; lia).
  repeat split.
  - exists (update_wire this (appended (take (Z.to_nat n) data)) m).
    split; [by apply run_write_data_master|].
    split; [done|]. rewrite wire_at_update. fold w. simpl. rewrite Hn.
    unfold WIRE_BUFFER_LENGTH in *.
    split; [lia|]. split; [lia|].
    rewrite app_assoc, take_app_length'; [done|].
    rewrite length_app, Hn, length_take. lia.
  - rewrite run_write_master by done.
    rewrite run_write_data_master by (simpl; try done; lia).
    fold w. unfold WIRE_BUFFER_LENGTH in *.
    destruct (Z.eqb_spec (bufLen_ w) 32) as [Hfull|Hroom].
    + rewrite Hfull. simpl.
      rewrite update_wire_same; [done|]. apply appended_nil. fold w. lia.
    + replace (Z.min 1 (32 - bufLen_ w)) with 1 by lia. simpl.
      do 3 f_equal. apply update_wire_ext. fold w.
      rewrite <- (appended_cons value [] w); simpl; rewrite ?Hbuf; try lia.
      symmetry. apply appended_nil. simpl. unfold to_uint8.
      apply Z.mod_pos_bound. lia.
  - rewrite run_write_master by done. fold w.
    destruct (bufLen_ w =? WIRE_BUFFER_LENGTH); by eexists.
Qed.

Lemma write_master_clamps_witness :
  ∃ m', write_data (P := rp2040 0 true []) Wire1_ptr (replicate 40 0x55) 40
          machine_four_buffered = ([], inr (28, m')) ∧
        bufLen_ (Wire1 m') = 32.
Proof.
  assert (Hmode : mode_ (wire_at Wire1_ptr machine_four_buffered) = Master)
    by reflexivity.
  assert (Htx : txAddress_ (wire_at Wire1_ptr machine_four_buffered) ≠ NO_ADDRESS)
    by (vm_compute; discriminate).
  assert (Hbuf : length (buf_ (wire_at Wire1_ptr machine_four_buffered))
                 = Z.to_nat WIRE_BUFFER_LENGTH) by reflexivity.
  assert (HL : 0 ≤ bufLen_ (wire_at Wire1_ptr machine_four_buffered)
               ≤ WIRE_BUFFER_LENGTH) by (vm_compute; split; discriminate).
  assert (Hsize : 0 ≤ 40 ≤ Z.of_nat (length (replicate 40 0x55)))
    by (vm_compute; split; discriminate).
  destruct (write_master_clamps (P := rp2040 0 true []) Wire1_ptr
              (replicate 40 0x55) 40 0x55 machine_four_buffered
              Hmode Htx Hbuf HL Hsize)
    as [(m' & Hrun & _ & Hlen & _) _].
  exists m'. split; [exact Hrun|exact Hlen].
Defined.

(** ** requestFrom and read *)

Lemma run_requestFrom `{P : Platform} this address count sendStop m :
  let w := wire_at this m in
  let inst := TwoWire_i2c this in
  let len := Z.min count WIRE_BUFFER_LENGTH in
  let r := i2c_read_blocking inst address len (negb sendStop) (hw_at inst m) in
  let stored := take (Z.to_nat len) r.1.2 in
  let n := to_uint8 (Z.max r.1.1 0) in
  mode_ w = Master → txAddress_ w = NO_ADDRESS →
  length (buf_ w) = Z.to_nat WIRE_BUFFER_LENGTH →
  requestFrom this address count sendStop m
  = ([], inr (n,
       update_wire this (set_bufPos_ 0)
         (update_wire this (set_bufLen_ n)
            (update_wire this (set_buf_ (stored ++ drop (length stored) (buf_ w)))
               (set_hw_at inst r.2 m))))).
Proof.
  intros w inst len r stored n Hmode Htx Hbuf. subst n.
  unfold requestFrom. run_prog. fold w inst.
  rewrite !bool_decide_eq_true_2 by done. cbv iota.
  rewrite MIN_min. fold len. subst stored. fold r.
  destruct r as [[result received] hw']. simpl fst. simpl snd.
  run_prog.
  assert (Hfit : (length (take (Z.to_nat len) received) ≤ length (buf_ w))%nat).
  { rewrite length_take, Hbuf. unfold len, WIRE_BUFFER_LENGTH. lia. }
  rewrite (bool_decide_eq_true_2 _ Hfit). run_prog.
  replace (if result <? 0 then 0 else result) with (Z.max result 0)
    by (destruct (Z.ltb_spec result 0); lia).
  done.
Qed.

(** C5. In master mode with no open transmission, [requestFrom] asks the
    bulk read for [min(count, 32)] bytes; a negative result counts as zero
    bytes and is not reported otherwise; the buffer length becomes the number
    of bytes read, the read cursor 0, and that number is returned. With
    [count = 0] the call returns 0 and leaves length 0 and cursor 0. *)
Theorem requestFrom_clamps_and_degrades `{P : Platform} this address count sendStop m :
  let w := wire_at this m in
  let inst := TwoWire_i2c this in
  let len := Z.min count WIRE_BUFFER_LENGTH in
  let result := (i2c_read_blocking inst address len (negb sendStop) (hw_at inst m)).1.1 in
  let n := Z.max result 0 in
  mode_ w = Master → txAddress_ w = NO_ADDRESS →
  length (buf_ w) = Z.to_nat WIRE_BUFFER_LENGTH →
  0 ≤ count → result ≤ len →
  (∃ m', requestFrom this address count sendStop m = ([], inr (n, m')) ∧
         bufLen_ (wire_at this m') = n ∧
         bufPos_ (wire_at this m') = 0) ∧
  (result < 0 → n = 0) ∧
  (count = 0 → n = 0).
Proof.
  intros w inst len result n Hmode Htx Hbuf Hcount Hres.
  assert (Hn : to_uint8 n = n)
    by (apply to_uint8_small; unfold len, WIRE_BUFFER_LENGTH in *; lia).
  split; [|unfold len, WIRE_BUFFER_LENGTH in *; lia].
  eexists. split.
  - rewrite run_requestFrom by done. fold inst len result n. rewrite Hn. done.
  - rewrite !wire_at_update. done.
Qed.

Lemma requestFrom_clamps_and_degrades_witness :
  ∃ m', requestFrom (P := rp2040 0 false []) Wire1_ptr 0x17 40 true
          machine_wire1_master = ([], inr (0, m')) ∧
        bufLen_ (Wire1 m') = 0 ∧ bufPos_ (Wire1 m') = 0.
Proof.
  assert (Hmode : mode_ (wire_at Wire1_ptr machine_wire1_master) = Master)
    by reflexivity.
  assert (Htx : txAddress_ (wire_at Wire1_ptr machine_wire1_master) = NO_ADDRESS)
    by reflexivity.
  assert (Hbuf : length (buf_ (wire_at Wire1_ptr machine_wire1_master))
                 = Z.to_nat WIRE_BUFFER_LENGTH) by reflexivity.
  assert (Hcount : 0 ≤ 40) by (vm_compute; discriminate).
  assert (Hres : -1 ≤ Z.min 40 WIRE_BUFFER_LENGTH) by (vm_compute; discriminate).
  destruct (requestFrom_clamps_and_degrades (P := rp2040 0 false [])
              Wire1_ptr 0x17 40 true machine_wire1_master
              Hmode Htx Hbuf Hcount Hres)
    as [(m' & Hrun & Hlen & Hpos) _].
  exists m'. split; [exact Hrun|]. split; [exact Hlen|exact Hpos].
Defined.

Lemma run_read_data this m :
  let w := wire_at this m in
  mode_ w ≠ Unassigned → txAddress_ w = NO_ADDRESS →
  0 ≤ bufPos_ w < bufLen_ w →
  bufLen_ w ≤ Z.of_nat (length (buf_ w)) → bufLen_ w ≤ 255 →
  ∃ b, buf_ w !! Z.to_nat (bufPos_ w) = Some b ∧
       read this m
       = ([], inr (b, update_wire this (set_bufPos_ (bufPos_ w + 1)) m)).
Proof.
  intros w Hmode Htx Hpos Hlen Hcap.
  destruct (lookup_lt_is_Some_2 (buf_ w) (Z.to_nat (bufPos_ w))) as [b Hb]; [lia|].
  exists b. split; [done|].
  unfold read. run_prog. fold w.
  rewrite !bool_decide_eq_true_2 by done. cbv iota.
  destruct (Z.ltb_spec (bufPos_ w) (bufLen_ w)); [|lia].
  run_prog. rewrite to_uint8_small by lia.
  unfold buf_at. rewrite bool_decide_eq_true_2 by lia. by rewrite Hb.
Qed.

Lemma run_read_empty this m :
  let w := wire_at this m in
  mode_ w ≠ Unassigned → txAddress_ w = NO_ADDRESS →
  bufLen_ w ≤ bufPos_ w →
  read this m = ([], inr (-1, m)).
Proof.
  intros w Hmode Htx Hpos. unfold read. run_prog. fold w.
  rewrite !bool_decide_eq_true_2 by done. cbv iota.
  by destruct (Z.ltb_spec (bufPos_ w) (bufLen_ w)); [lia|].
Qed.

(** Reading [j] bytes that are there. *)
Lemma run_read_n_data this j : ∀ m,
  let w := wire_at this m in
  mode_ w ≠ Unassigned → txAddress_ w = NO_ADDRESS →
  0 ≤ bufPos_ w → bufPos_ w + Z.of_nat j ≤ bufLen_ w →
  bufLen_ w ≤ Z.of_nat (length (buf_ w)) → bufLen_ w ≤ 255 →
  read_n this j m
  = ([], inr (take j (drop (Z.to_nat (bufPos_ w)) (buf_ w)),
              update_wire this (set_bufPos_ (bufPos_ w + Z.of_nat j)) m)).
Proof.
  induction j as [|j IH]; intros m w Hmode Htx Hlo Hhi Hlen Hcap.
  - simpl. rewrite run_ret, Z.add_0_r, update_wire_same; [done|].
    fold w. by destruct w.
  - destruct (run_read_data this m) as (b & Hb & Hread); try done; [fold w; lia|].
    fold w in Hb, Hread.
    cbn [read_n]. unfold mbind, M_bind, bind. rewrite Hread.
    rewrite IH; rewrite ?wire_at_update; fold w; simpl; try done; try lia.
    rewrite update_wire_compose. do 3 f_equal.
    + rewrite (drop_S _ _ _ Hb). simpl. do 3 f_equal. lia.
    + apply update_wire_ext. fold w. unfold set_bufPos_. simpl. f_equal. lia.
Qed.

(** Reading past the end. *)
Lemma run_read_n_empty this k : ∀ m,
  let w := wire_at this m in
  mode_ w ≠ Unassigned → txAddress_ w = NO_ADDRESS →
  bufLen_ w ≤ bufPos_ w →
  read_n this k m = ([], inr (replicate k (-1), m)).
Proof.
  induction k as [|k IH]; intros m w Hmode Htx Hpos; [done|].
  cbn [read_n]. unfold mbind, M_bind, bind.
  rewrite run_read_empty by done. by rewrite IH.
Qed.

Lemma run_read_n_app this a b m :
  read_n this (a + b) m
  = (xs ← read_n this a; ys ← read_n this b; mret (xs ++ ys)) m.
Proof.
  revert m. induction a as [|a IH]; intros m.
  - simpl. rewrite run_bind_ret. unfold mbind, M_bind, bind.
    destruct (read_n this b m) as [t [e|[ys m1]]]; [done|].
    simpl. by rewrite app_nil_r.
  - cbn [Nat.add read_n]. rewrite !run_bind_assoc.
    unfold mbind, M_bind, bind.
    destruct (read this m) as [t0 [e|[x m0]]]; [done|].
    specialize (IH m0). unfold mbind, M_bind, bind in IH. rewrite IH.
    destruct (read_n this a m0) as [t1 [e|[xs m1]]]; [done|].
    unfold mret, M_ret, ret. simpl.
    destruct (read_n this b m1) as [t2 [e|[ys m2]]]; simpl;
      by rewrite !app_nil_r, ?app_assoc.
Qed.

Lemma wire_at_set_hw_at this inst hw m :
  wire_at this (set_hw_at inst hw m) = wire_at this m.
Proof. by destruct this, inst. Qed.

(** C6. After a [requestFrom] whose bulk read delivered all [count] bytes
    ([count] within the capacity), the next [count] calls of [read()] return
    these bytes in order, none of them the sentinel, and any number of
    further calls return -1. *)
Theorem requestFrom_then_read `{P : Platform} this address count sendStop m (k : nat) :
  let w := wire_at this m in
  let inst := TwoWire_i2c this in
  let r := i2c_read_blocking inst address count (negb sendStop) (hw_at inst m) in
  let bytes := take (Z.to_nat count) r.1.2 in
  mode_ w = Master → txAddress_ w = NO_ADDRESS →
  length (buf_ w) = Z.to_nat WIRE_BUFFER_LENGTH →
  0 ≤ count ≤ WIRE_BUFFER_LENGTH →
  r.1.1 = count →
  (Z.to_nat count ≤ length r.1.2)%nat →
  Forall (λ b, 0 ≤ b < 256) r.1.2 →
  ∃ m1 m2,
    requestFrom this address count sendStop m = ([], inr (count, m1)) ∧
    read_n this (Z.to_nat count + k) m1
      = ([], inr (bytes ++ replicate k (-1), m2)) ∧
    length bytes = Z.to_nat count ∧
    Forall (λ b, b ≠ -1) bytes.
Proof.
  intros w inst r bytes Hmode Htx Hbuf Hcount Hres Hrecv Hrange.
  assert (Hlen : Z.min count WIRE_BUFFER_LENGTH = count) by lia.
  assert (Hbytes : length bytes = Z.to_nat count)
    by (unfold bytes; rewrite length_take; lia).
  pose proof (run_requestFrom this address count sendStop m Hmode Htx Hbuf) as Hrun.
  cbv zeta in Hrun. rewrite Hlen in Hrun. fold inst r bytes in Hrun.
  rewrite Hres in Hrun.
  replace (to_uint8 (Z.max count 0)) with count in Hrun
    by (rewrite to_uint8_small; unfold WIRE_BUFFER_LENGTH in *; lia).
  set (m1 := update_wire this (set_bufPos_ 0) _) in Hrun.
  assert (Hw1 : wire_at this m1
                = set_bufPos_ 0 (set_bufLen_ count
                    (set_buf_ (bytes ++ drop (length bytes) (buf_ w)) w))).
  { unfold m1. rewrite !wire_at_update, wire_at_set_hw_at. done. }
  assert (Hfull : length (bytes ++ drop (length bytes) (buf_ w))
                  = Z.to_nat WIRE_BUFFER_LENGTH).
  { rewrite length_app, length_drop, Hbytes, Hbuf.
    unfold WIRE_BUFFER_LENGTH in *. lia. }
  exists m1. eexists. split; [exact Hrun|].
  split; [|split; [done|]].
  - rewrite run_read_n_app. unfold mbind, M_bind, bind.
    rewrite run_read_n_data; rewrite ?Hw1; simpl; rewrite ?Hmode, ?Hfull;
      unfold WIRE_BUFFER_LENGTH in *; try done; try lia.
    rewrite run_read_n_empty; rewrite ?wire_at_update, ?Hw1; simpl;
      rewrite ?Hmode; try done; try lia.
    change (Z.to_nat 0) with 0%nat. rewrite drop_0.
    rewrite <- Hbytes, take_app_length. done.
  - unfold bytes. apply Forall_take.
    eapply Forall_impl; [exact Hrange|]. simpl. intros b Hb. lia.
Qed.

Lemma requestFrom_then_read_witness :
  ∃ m1 m2,
    requestFrom (P := rp2040 0 true hello) Wire1_ptr 0x17 5 true machine_wire1_master
      = ([], inr (5, m1)) ∧
    read_n Wire1_ptr 7 m1 = ([], inr (hello ++ [-1; -1], m2)).
Proof.
  assert (Hmode : mode_ (wire_at Wire1_ptr machine_wire1_master) = Master)
    by reflexivity.
  assert (Htx : txAddress_ (wire_at Wire1_ptr machine_wire1_master) = NO_ADDRESS)
    by reflexivity.
  assert (Hbuf : length (buf_ (wire_at Wire1_ptr machine_wire1_master))
                 = Z.to_nat WIRE_BUFFER_LENGTH) by reflexivity.
  assert (Hcount : 0 ≤ 5 ≤ WIRE_BUFFER_LENGTH) by (vm_compute; split; discriminate).
  assert (Hrange : Forall (λ b, 0 ≤ b < 256) hello)
    by (repeat constructor; vm_compute; congruence).
  destruct (requestFrom_then_read (P := rp2040 0 true hello) Wire1_ptr 0x17 5 true
              machine_wire1_master 2 Hmode Htx Hbuf Hcount eq_refl
              (le_n 5) Hrange)
    as (m1 & m2 & Hrun & Hread & _).
  exists m1, m2. split; [exact Hrun|exact Hread].
Defined.

(** ** The state invariant *)

Section Rules.
Context `{P : Platform}.

Lemma hoare_bind {A B} pre mid post (x : M A) (k : A → M B) :
  hoare pre x mid → (∀ a, hoare (mid a) (k a) post) → hoare pre (x ≫= k) post.
Proof.
  intros Hx Hk m Hpre. rewrite result_bind. specialize (Hx m Hpre).
  destruct (result_of (x m)) as [e|[a m1]]; [done|]. by apply Hk.
Qed.

Lemma hoare_weaken {A} (pre pre' : machine → Prop) (x : M A) post :
  (∀ m, pre m → pre' m) → hoare pre' x post → hoare pre x post.
Proof. intros Himp Hx m Hpre. apply Hx, Himp, Hpre. Qed.

Lemma hoare_ret {A} (pre : machine → Prop) (a : A) (post : A → machine → Prop) :
  (∀ m, pre m → post a m) → hoare pre (mret a) post.
Proof. intros H m Hpre. by apply H. Qed.

Lemma hoare_throw {A} pre e (post : A → machine → Prop) : hoare pre (throw e) post.
Proof. by intros m Hpre. Qed.

(** After [gets] the value read is known to be the one of the state. *)
Lemma hoare_gets_bind {A B} pre (f : machine → A) (k : A → M B) post :
  (∀ v, hoare (λ m, pre m ∧ f m = v) (k v) post) → hoare pre (gets f ≫= k) post.
Proof. intros H m Hpre. rewrite run_bind_gets. by apply (H (f m)). Qed.

(** After [assert] the condition is known to hold. *)
Lemma hoare_assert_bind {B} pre (c : bool) (k : unit → M B) post :
  (c = true → hoare pre (k tt) post) → hoare pre (assert c ≫= k) post.
Proof.
  intros H m Hpre. rewrite run_bind_assert. destruct c; [by apply H|done].
Qed.

Lemma hoare_run_extern (inv : machine → Prop) f :
  extern_preserves inv f → preserves inv (run_extern f).
Proof.
  intros H m Hinv. specialize (H m Hinv). unfold run_extern.
  by destruct (f m).
Qed.

Lemma preserves_bind {A B} inv (x : M A) (k : A → M B) :
  preserves inv x → (∀ a, preserves inv (k a)) → preserves inv (x ≫= k).
Proof. apply hoare_bind. Qed.

(** *** Computations that leave the TwoWire objects alone *)

Lemma keeps_wires_bind {A B} (x : M A) (k : A → M B) :
  keeps_wires x → (∀ a, keeps_wires (k a)) → keeps_wires (x ≫= k).
Proof.
  intros Hx Hk m. rewrite result_bind. specialize (Hx m).
  destruct (result_of (x m)) as [e|[a m1]]; [done|].
  specialize (Hk a m1). destruct (result_of (k a m1)) as [e|[b m2]]; [done|].
  destruct Hx as [Hx0 Hx1], Hk as [Hk0 Hk1]. split; congruence.
Qed.

Lemma keeps_wires_ret {A} (a : A) : keeps_wires (mret a).
Proof. done. Qed.
Lemma keeps_wires_throw {A} e : keeps_wires (throw (A := A) e).
Proof. done. Qed.
Lemma keeps_wires_gets {A} (f : machine → A) : keeps_wires (gets f).
Proof. done. Qed.
Lemma keeps_wires_assert c : keeps_wires (assert c).
Proof. by destruct c. Qed.
Lemma keeps_wires_modify f :
  (∀ m, Wire (f m) = Wire m ∧ Wire1 (f m) = Wire1 m) → keeps_wires (modify f).
Proof. intros H m. apply H. Qed.

Lemma keeps_wires_update_slave p f : keeps_wires (modify (update_slave p f)).
Proof. apply keeps_wires_modify. intros m. by destruct p. Qed.
Lemma keeps_wires_update_hw inst f : keeps_wires (modify (update_hw inst f)).
Proof. apply keeps_wires_modify. intros m. by destruct inst. Qed.
Lemma keeps_wires_update_irq num f : keeps_wires (modify (update_irq num f)).
Proof. by apply keeps_wires_modify. Qed.

Ltac keeps_wires :=
  repeat first
    [ apply keeps_wires_ret | apply keeps_wires_throw | apply keeps_wires_gets
    | apply keeps_wires_assert | apply keeps_wires_update_slave
    | apply keeps_wires_update_hw | apply keeps_wires_update_irq
    | match goal with H : context [keeps_wires] |- _ => apply H end
    | apply keeps_wires_bind; [|intros]
    | match goal with
      | |- keeps_wires (if ?c then _ else _) => destruct c
      | |- keeps_wires (match ?x with _ => _ end) => destruct x
      end ].

Lemma keeps_wires_i2c_slave_deinit : keeps_wires i2c_slave_deinit.
Proof.
  unfold i2c_slave_deinit, this_core_slave, i2c_hw_index, i2c_set_slave_mode,
    i2c_get_hw, irq_set_enabled, irq_remove_handler, write_intr_mask.
  keeps_wires.
Qed.

Lemma keeps_wires_i2c_slave_init p a h : keeps_wires (i2c_slave_init p a h).
Proof.
  unfold i2c_slave_init, this_core_slave, i2c_hw_index, i2c_set_slave_mode,
    i2c_get_hw, irq_set_enabled, irq_set_exclusive_handler, write_intr_mask.
  keeps_wires.
Qed.

Lemma keeps_wires_wait_tx_not_full inst n : keeps_wires (wait_tx_not_full inst n).
Proof.
  induction n as [|n IH]; simpl; [apply keeps_wires_throw|].
  unfold read_status. keeps_wires.
Qed.

Lemma keeps_wires_i2c_write_byte inst v : keeps_wires (i2c_write_byte inst v).
Proof. apply keeps_wires_update_hw. Qed.

Lemma keeps_wires_i2c_read_byte inst : keeps_wires (i2c_read_byte inst).
Proof. unfold i2c_read_byte. keeps_wires. Qed.

Lemma keeps_wires_write_slave_loop inst data n : ∀ i,
  keeps_wires (write_slave_loop inst data i n).
Proof.
  induction n as [|n IH]; intros i; simpl; [apply keeps_wires_ret|].
  pose proof (keeps_wires_wait_tx_not_full inst).
  pose proof (keeps_wires_i2c_write_byte inst).
  keeps_wires.
Qed.

Lemma keeps_wires_preserves {A} (x : M A) :
  keeps_wires x → preserves wires_inv x.
Proof.
  intros H m Hinv. specialize (H m).
  destruct (result_of (x m)) as [e|[a m1]]; [done|].
  destruct H as [H0 H1]. unfold wires_inv. by rewrite H0, H1.
Qed.

End Rules.

Lemma wires_inv_at this m : wires_inv m → wire_inv (wire_at this m).
Proof. intros [H0 H1]. by destruct this. Qed.

Lemma wires_inv_update this f m :
  wires_inv m → wire_inv (f (wire_at this m)) → wires_inv (update_wire this f m).
Proof. intros [H0 H1] Hf. destruct this; split; done. Qed.

Lemma wires_inv_set_hw_at inst hw m : wires_inv m → wires_inv (set_hw_at inst hw m).
Proof. intros H. by destruct inst. Qed.

Lemma wire_inv_pushed v w :
  wire_inv w → bufLen_ w < WIRE_BUFFER_LENGTH → wire_inv (pushed v w).
Proof.
  unfold wire_inv, pushed, WIRE_BUFFER_LENGTH. simpl.
  intros (Hpos & Hlen & Hcap & Htx) Hroom.
  rewrite to_uint8_small by lia. repeat split; try lia. done.
Qed.

Lemma buf_push_cases this v m :
  buf_push this v m = ([], inl OutOfBounds) ∨
  buf_push this v m = ([], inr (tt, update_wire this (pushed v) m)).
Proof.
  unfold buf_push. run_prog. case_bool_decide as Hin.
  - right. run_prog. by rewrite update_wire_compose.
  - by left.
Qed.

Section Invariant.
Context `{P : Platform}.

(** What is left to show once a straight-line method has been run: the
    invariant of the one object that was updated. *)
Ltac finish_inv this Hinv :=
  rewrite ?update_wire_compose;
  apply wires_inv_update; [by auto using wires_inv_set_hw_at|];
  rewrite ?wire_at_set_hw_at;
  pose proof (wires_inv_at this _ Hinv) as (? & ? & ? & ?);
  unfold wire_inv, WIRE_BUFFER_LENGTH in *; simpl.

Lemma wires_inv_reset this (md : Mode) m :
  wires_inv m → md = Master ∨ txAddress_ (wire_at this m) = NO_ADDRESS →
  wires_inv (update_wire this (set_bufPos_ 0)
               (update_wire this (set_bufLen_ 0)
                  (update_wire this (set_mode_ md) m))).
Proof.
  intros Hinv Hmd. finish_inv this Hinv. repeat split; try lia.
  intros Htx. destruct Hmd; done.
Qed.

Lemma hoare_keeps_wires {A} (x : M A) (Q : machine → Prop) :
  keeps_wires x →
  (∀ m m', Wire m' = Wire m → Wire1 m' = Wire1 m → Q m → Q m') →
  hoare Q x (λ _, Q).
Proof.
  intros Hx HQ m Hm. specialize (Hx m).
  destruct (result_of (x m)) as [e|[a m1]]; [done|].
  destruct Hx. by apply (HQ m).
Qed.

Lemma preserves_begin this : preserves wires_inv (begin this).
Proof.
  unfold begin. apply hoare_gets_bind; intros w.
  apply hoare_assert_bind; intros _.
  eapply hoare_bind with (mid := λ _ m, wires_inv m).
  - eapply hoare_weaken; [by intros m [Hm _]|].
    case_bool_decide; [|by apply hoare_ret].
    apply keeps_wires_preserves, keeps_wires_i2c_slave_deinit.
  - intros _ m Hinv. run_prog. simpl. apply wires_inv_reset; auto.
Qed.

Lemma preserves_begin_slave this a : preserves wires_inv (begin_slave this a).
Proof.
  unfold begin_slave. apply hoare_gets_bind; intros w.
  apply hoare_assert_bind; intros Htx.
  apply bool_decide_eq_true_1 in Htx.
  set (Q := λ m, wires_inv m ∧ txAddress_ (wire_at this m) = NO_ADDRESS).
  assert (HQ : ∀ m m', Wire m' = Wire m → Wire1 m' = Wire1 m → Q m → Q m').
  { intros m m' H0 H1 [Hinv Hq]. unfold Q, wires_inv.
    destruct this; simpl in *; rewrite H0, H1; done. }
  eapply hoare_bind with (mid := λ _, Q).
  - eapply hoare_weaken with (pre' := Q); [intros m [Hm <-]; by split|].
    case_bool_decide; [|by apply hoare_ret].
    by apply hoare_keeps_wires; [apply keeps_wires_i2c_slave_deinit|].
  - intros _ m [Hinv Hq]. run_prog.
    apply (keeps_wires_preserves _ (keeps_wires_i2c_slave_init _ _ _)).
    apply wires_inv_reset; auto.
Qed.

Lemma preserves_beginTransmission this a :
  preserves wires_inv (beginTransmission this a).
Proof.
  intros m Hinv. unfold beginTransmission. run_prog.
  case_bool_decide as Hmode; [|done]. case_bool_decide as Htx; [|done].
  case_bool_decide as Ha; [|done]. cbv iota. run_prog. simpl.
  finish_inv this Hinv. repeat split; try lia; try done.
Qed.

Lemma preserves_endTransmission this sendStop :
  preserves wires_inv (endTransmission this sendStop).
Proof.
  intros m Hinv. unfold endTransmission. run_prog.
  case_bool_decide as Hmode; [|done]. case_bool_decide as Htx; [|done].
  case_bool_decide as Hpos; [|done]. cbv iota.
  destruct (i2c_write_blocking _ _ _ _ _ _) as [result hw'].
  run_prog.
  assert (Hgoal : wires_inv
            (update_wire this (set_bufLen_ 0)
               (update_wire this (set_txAddress_ NO_ADDRESS)
                  (set_hw_at (TwoWire_i2c this) hw' m)))).
  { finish_inv this Hinv. repeat split; try lia; try done. }
  by repeat (match goal with |- context [if ?c then _ else _] => destruct c end).
Qed.

Lemma preserves_requestFrom this a count sendStop :
  (∀ inst a len ns hw, 0 ≤ len → (i2c_read_blocking inst a len ns hw).1.1 ≤ len) →
  0 ≤ count →
  preserves wires_inv (requestFrom this a count sendStop).
Proof.
  intros Hbulk Hcount m Hinv. unfold requestFrom. run_prog.
  case_bool_decide as Hmode; [|done]. case_bool_decide as Htx; [|done].
  cbv iota. rewrite MIN_min.
  pose proof (Hbulk (TwoWire_i2c this) a (Z.min count WIRE_BUFFER_LENGTH)
                (negb sendStop) (hw_at (TwoWire_i2c this) m)) as Hres.
  destruct (i2c_read_blocking _ _ _ _ _) as [[result received] hw'].
  simpl in Hres. run_prog.
  case_bool_decide as Hfit; [|done]. cbv iota. run_prog. simpl.
  finish_inv this Hinv.
  assert (0 ≤ (if result <? 0 then 0 else result) ≤ 32)
    by (destruct (Z.ltb_spec result 0); lia).
  rewrite to_uint8_small by lia. repeat split; try lia; try done.
Qed.

Lemma preserves_buf_push this v :
  hoare (λ m, wires_inv m ∧ bufLen_ (wire_at this m) < WIRE_BUFFER_LENGTH)
    (buf_push this v) (λ _, wires_inv).
Proof.
  intros m [Hinv Hroom].
  destruct (buf_push_cases this v m) as [-> | ->]; [done|]. simpl.
  apply wires_inv_update; [done|].
  apply wire_inv_pushed; [by apply wires_inv_at|done].
Qed.

Lemma preserves_write this v : preserves wires_inv (write this v).
Proof.
  intros m Hinv. unfold write. run_prog.
  case_bool_decide as Hassigned; [|done]. cbv iota.
  case_bool_decide as Hmode.
  - run_prog. case_bool_decide as Htx; [|done]. cbv iota.
    destruct (Z.eqb_spec (bufLen_ (wire_at this m)) WIRE_BUFFER_LENGTH) as [|Hroom];
      [done|].
    rewrite result_bind.
    pose proof (preserves_buf_push this v m) as Hpush. simpl in Hpush.
    destruct (result_of (buf_push this v m)) as [e|[[] m1]]; [done|].
    simpl. apply Hpush. split; [done|].
    pose proof (wires_inv_at this _ Hinv) as (? & ? & ? & ?). lia.
  - clear Hassigned Hmode. revert m Hinv. apply keeps_wires_preserves.
    pose proof (keeps_wires_wait_tx_not_full (TwoWire_i2c this)).
    pose proof (keeps_wires_i2c_write_byte (TwoWire_i2c this)).
    repeat first [ apply keeps_wires_ret | apply keeps_wires_bind; [|intros]
                 | match goal with H : context [keeps_wires] |- _ => apply H end ].
Qed.

Lemma preserves_write_master_loop this data n : ∀ i,
  hoare (λ m, wires_inv m ∧
              bufLen_ (wire_at this m) + Z.of_nat n ≤ WIRE_BUFFER_LENGTH)
    (write_master_loop this data i n) (λ _, wires_inv).
Proof.
  induction n as [|n IH]; intros i m [Hinv Hroom]; simpl; [done|].
  destruct (data !! i) as [v|]; [|done].
  rewrite result_bind.
  destruct (buf_push_cases this v m) as [-> | ->]; [done|]. simpl.
  apply IH. split.
  - apply wires_inv_update; [done|].
    apply wire_inv_pushed; [by apply wires_inv_at|lia].
  - rewrite wire_at_update. simpl.
    pose proof (wires_inv_at this _ Hinv) as (? & ? & ? & ?).
    unfold WIRE_BUFFER_LENGTH in *. rewrite to_uint8_small by lia. lia.
Qed.

Lemma preserves_write_data this data size :
  preserves wires_inv (write_data this data size).
Proof.
  intros m Hinv. unfold write_data. run_prog.
  case_bool_decide as Hassigned; [|done]. cbv iota.
  case_bool_decide as Hmode.
  - run_prog. case_bool_decide as Htx; [|done]. cbv iota.
    rewrite result_bind.
    pose proof (wires_inv_at this _ Hinv) as (? & ? & ? & ?).
    set (n := MIN size _).
    pose proof (preserves_write_master_loop this data (Z.to_nat n) 0%nat m) as Hloop.
    simpl in Hloop.
    destruct (result_of (write_master_loop _ _ _ _ _)) as [e|[[] m1]]; [done|].
    simpl. apply Hloop. split; [done|].
    unfold n. rewrite MIN_min. unfold WIRE_BUFFER_LENGTH in *.
    rewrite to_size_t_small by lia. lia.
  - rewrite result_bind.
    pose proof (keeps_wires_preserves _
      (keeps_wires_write_slave_loop (TwoWire_i2c this) data (Z.to_nat size) 0%nat)
      m Hinv) as Hloop.
    simpl in Hloop.
    by destruct (result_of (write_slave_loop _ _ _ _ _)) as [e|[[] m1]].
Qed.

Lemma preserves_available this : preserves wires_inv (available this).
Proof.
  intros m Hinv. unfold available. run_prog.
  case_bool_decide; [|done]. by case_bool_decide.
Qed.

Lemma preserves_buf_at w i : preserves wires_inv (buf_at w i).
Proof.
  intros m Hinv. unfold buf_at.
  by destruct (if bool_decide _ then _ else _).
Qed.

Lemma preserves_peek this : preserves wires_inv (peek this).
Proof.
  intros m Hinv. unfold peek. run_prog.
  case_bool_decide; [|done]. case_bool_decide; [|done]. cbv iota.
  destruct (_ <? _); [by apply preserves_buf_at|done].
Qed.

Lemma preserves_read this : preserves wires_inv (read this).
Proof.
  intros m Hinv. unfold read. run_prog.
  case_bool_decide as Hassigned; [|done]. case_bool_decide as Htx; [|done].
  cbv iota.
  destruct (Z.ltb_spec (bufPos_ (wire_at this m)) (bufLen_ (wire_at this m)));
    [|done].
  run_prog. apply preserves_buf_at.
  finish_inv this Hinv.
  rewrite to_uint8_small by lia. repeat split; try lia; try done.
Qed.

Lemma preserves_onReceive this h : preserves wires_inv (onReceive this h).
Proof.
  intros m Hinv. unfold onReceive. simpl. by finish_inv this Hinv.
Qed.

Lemma preserves_onRequest this h : preserves wires_inv (onRequest this h).
Proof.
  intros m Hinv. unfold onRequest. simpl. by finish_inv this Hinv.
Qed.

Lemma preserves_ret {A} inv (a : A) : preserves inv (mret a).
Proof. by apply hoare_ret. Qed.
Lemma preserves_throw {A} inv e : preserves inv (throw (A := A) e).
Proof. apply hoare_throw. Qed.
Lemma preserves_gets {A} inv (f : machine → A) : preserves inv (gets f).
Proof. by intros m Hinv. Qed.
Lemma preserves_log inv e : preserves inv (log e).
Proof. by intros m Hinv. Qed.
Lemma preserves_assert inv c : preserves inv (assert c).
Proof. intros m Hinv. by destruct c. Qed.

Lemma preserves_receive_loop inst wire n :
  preserves wires_inv (receive_loop inst wire n).
Proof.
  induction n as [|n IH]; simpl; [apply preserves_ret|].
  apply preserves_bind;
    [apply keeps_wires_preserves, keeps_wires_i2c_read_byte|intros value].
  apply hoare_gets_bind; intros w.
  apply hoare_bind with (mid := λ _, wires_inv); [|intros _; apply IH].
  intros m [Hinv Hw]. subst w.
  destruct (Z.ltb_spec (bufLen_ (wire_at wire m)) WIRE_BUFFER_LENGTH); [|done].
  by apply preserves_buf_push.
Qed.

Lemma preserves_handleEvent p ev :
  (∀ h c, extern_preserves wires_inv (receive_code h c)) →
  (∀ h, extern_preserves wires_inv (request_code h)) →
  preserves wires_inv (handleEvent p ev).
Proof.
  intros Hreceive Hrequest. unfold handleEvent.
  apply preserves_bind;
    [destruct p; [apply preserves_ret|apply preserves_throw]|intros idx].
  set (wire := if idx =? 0 then Wire_ptr else Wire1_ptr).
  apply hoare_gets_bind; intros w.
  apply hoare_assert_bind; intros _. apply hoare_assert_bind; intros _.
  eapply hoare_weaken; [intros m [Hm _]; exact Hm|].
  destruct ev.
  - apply preserves_bind;
      [destruct p; [apply preserves_ret|apply preserves_throw]|intros inst].
    apply preserves_bind; [apply preserves_gets|intros n].
    apply preserves_receive_loop.
  - apply hoare_assert_bind; intros _. apply hoare_assert_bind; intros _.
    destruct (requestHandler_ w) as [h|]; [|apply preserves_ret].
    apply preserves_bind; [apply preserves_log|intros _].
    apply hoare_run_extern, Hrequest.
  - apply preserves_bind.
    + destruct (0 <? bufLen_ w); [|apply preserves_ret].
      apply preserves_bind.
      * destruct (receiveHandler_ w) as [h|]; [|apply preserves_ret].
        apply preserves_bind; [apply preserves_log|intros _].
        apply hoare_run_extern, Hreceive.
      * intros _ m Hinv. run_prog. simpl.
        finish_inv wire Hinv. repeat split; try lia; try done.
    + intros _. apply preserves_bind; [apply preserves_gets|intros w'].
      apply preserves_assert.
Qed.

End Invariant.

(** C7. Every operation of the facade keeps [bufPos_ ≤ bufLen_ ≤ capacity]
    and [txAddress_] set only in master mode, for both objects, whenever it
    returns: the bulk read is taken to deliver no more than it was asked
    for, and the user handlers to keep the invariant themselves. *)
Theorem wire_invariant_preserved `{P : Platform} :
  (∀ inst a len ns hw, 0 ≤ len → (i2c_read_blocking inst a len ns hw).1.1 ≤ len) →
  (∀ h c, extern_preserves wires_inv (receive_code h c)) →
  (∀ h, extern_preserves wires_inv (request_code h)) →
  ∀ this,
    preserves wires_inv (begin this) ∧
    (∀ a, preserves wires_inv (begin_slave this a)) ∧
    (∀ a, preserves wires_inv (beginTransmission this a)) ∧
    (∀ s, preserves wires_inv (endTransmission this s)) ∧
    (∀ a c s, 0 ≤ c → preserves wires_inv (requestFrom this a c s)) ∧
    (∀ v, preserves wires_inv (write this v)) ∧
    (∀ d n, preserves wires_inv (write_data this d n)) ∧
    preserves wires_inv (read this) ∧
    preserves wires_inv (peek this) ∧
    preserves wires_inv (available this) ∧
    (∀ h, preserves wires_inv (onReceive this h)) ∧
    (∀ h, preserves wires_inv (onRequest this h)) ∧
    (∀ p ev, preserves wires_inv (handleEvent p ev)).
Proof.
  intros Hbulk Hreceive Hrequest this.
  split_and!; intros.
  - apply preserves_begin.
  - apply preserves_begin_slave.
  - apply preserves_beginTransmission.
  - apply preserves_endTransmission.
  - by apply preserves_requestFrom.
  - apply preserves_write.
  - apply preserves_write_data.
  - apply preserves_read.
  - apply preserves_peek.
  - apply preserves_available.
  - apply preserves_onReceive.
  - apply preserves_onRequest.
  - by apply preserves_handleEvent.
Qed.

Lemma wires_inv_machine_four_buffered : wires_inv machine_four_buffered.
Proof.
  repeat split; vm_compute; try congruence; intros H; by destruct H.
Qed.

Lemma wire_invariant_preserved_witness :
  wires_inv machine_four_buffered ∧
  ∃ m', result_of (write (P := rp2040 0 true hello) Wire1_ptr 0x41 machine_four_buffered)
          = inr (1, m') ∧
        wires_inv m'.
Proof.
  split; [exact wires_inv_machine_four_buffered|].
  eexists. split; [vm_compute; reflexivity|].
  assert (Hbulk : ∀ inst a len ns hw, 0 ≤ len →
            (i2c_read_blocking (Platform := rp2040 0 true hello) inst a len ns hw).1.1 ≤ len)
    by (intros; simpl; lia).
  assert (Hreceive : ∀ h c,
            extern_preserves wires_inv (receive_code (Platform := rp2040 0 true hello) h c)).
  { intros h c m Hinv. simpl. unfold app_receive.
    destruct (h =? 1)%N; [|done].
    pose proof (preserves_read Wire_ptr m Hinv) as Hread.
    by destruct (result_of (read Wire_ptr m)) as [e|[b m1]]. }
  assert (Hrequest : ∀ h,
            extern_preserves wires_inv (request_code (Platform := rp2040 0 true hello) h))
    by (by intros h m Hinv).
  destruct (wire_invariant_preserved (P := rp2040 0 true hello)
              Hbulk Hreceive Hrequest Wire1_ptr)
    as (_ & _ & _ & _ & _ & Hwrite & _).
  exact (Hwrite 0x41 machine_four_buffered wires_inv_machine_four_buffered).
Defined.

(** ** The Finish event in the facade *)

Lemma run_bind_log {B} e (k : unit → M B) m :
  (log e ≫= k) m = (e :: trace_of (k tt m), result_of (k tt m)).
Proof. unfold mbind, M_bind, bind. simpl. by destruct (k tt m). Qed.

Lemma run_bind_extern {B} f (k : unit → M B) m :
  (run_extern f ≫= k) m =
  match f m with
  | inl e => ([], inl e)
  | inr m1 => k tt m1
  end.
Proof.
  unfold mbind, M_bind, bind, run_extern.
  destruct (f m) as [e|m1]; [done|]. by destruct (k tt m1).
Qed.

Lemma run_handleEvent_finish `{P : Platform} inst m :
  let wire := wire_of inst in
  let w := wire_at wire m in
  let cleared m1 :=
    update_wire wire (set_bufPos_ 0) (update_wire wire (set_bufLen_ 0) m1) in
  mode_ w = Slave → bufPos_ w = 0 →
  handleEvent (Some inst) I2C_SLAVE_FINISH m =
    if 0 <? bufLen_ w then
      match receiveHandler_ w with
      | Some h =>
          ([CallReceiveHandler h (bufLen_ w)],
           match receive_code h (bufLen_ w) m with
           | inl e => inl e
           | inr m1 => inr (tt, cleared m1)
           end)
      | None => ([], inr (tt, cleared m))
      end
    else ([], inr (tt, m)).
Proof.
  intros wire w cleared Hmode Hpos. unfold handleEvent, i2c_hw_index.
  rewrite run_bind_ret.
  replace (if hw_index inst =? 0 then Wire_ptr else Wire1_ptr) with wire
    by (by destruct inst).
  run_prog. fold w. rewrite Hmode, Hpos.
  rewrite !bool_decide_eq_true_2 by done. cbv iota.
  destruct (0 <? bufLen_ w).
  - destruct (receiveHandler_ w) as [h|].
    + unfold call_receiveHandler.
      rewrite !run_bind_assoc, run_bind_log, run_bind_extern.
      destruct (receive_code h (bufLen_ w) m) as [e|m1]; [done|].
      run_prog. rewrite wire_at_update. simpl. done.
    + run_prog. rewrite wire_at_update. simpl. done.
  - run_prog. fold w. rewrite Hpos. done.
Qed.

(** C8. In slave mode with the read cursor at 0 and a receive handler
    registered, the Finish event calls the handler once, with the byte
    count, and then sets length and cursor to 0, when bytes are buffered;
    with no bytes buffered it calls nothing and leaves the machine as it
    is. *)
Theorem handleEvent_finish_delivers `{P : Platform} inst m h :
  let wire := wire_of inst in
  let w := wire_at wire m in
  mode_ w = Slave → bufPos_ w = 0 → receiveHandler_ w = Some h →
  (bufLen_ w ≤ 0 →
     handleEvent (Some inst) I2C_SLAVE_FINISH m = ([], inr (tt, m))) ∧
  (0 < bufLen_ w →
     trace_of (handleEvent (Some inst) I2C_SLAVE_FINISH m)
       = [CallReceiveHandler h (bufLen_ w)] ∧
     ∀ m1, receive_code h (bufLen_ w) m = inr m1 →
       ∃ m', result_of (handleEvent (Some inst) I2C_SLAVE_FINISH m) = inr (tt, m') ∧
             m' = update_wire wire (set_bufPos_ 0)
                    (update_wire wire (set_bufLen_ 0) m1) ∧
             bufLen_ (wire_at wire m') = 0 ∧ bufPos_ (wire_at wire m') = 0).
Proof.
  intros wire w Hmode Hpos Hh.
  pose proof (run_handleEvent_finish inst m Hmode Hpos) as Hrun.
  cbv zeta in Hrun. fold wire w in Hrun. rewrite Hh in Hrun.
  split; intros Hlen.
  - destruct (Z.ltb_spec 0 (bufLen_ w)); [lia|done].
  - destruct (Z.ltb_spec 0 (bufLen_ w)); [|lia].
    rewrite Hrun. split; [done|]. intros m1 Hm1. rewrite Hm1.
    eexists. split; [done|]. split; [done|].
    rewrite !wire_at_update. done.
Qed.

(** C10. In slave mode with the read cursor at 0, when bytes are buffered
    and no receive handler is registered, the Finish event calls nothing and
    still sets length and cursor to 0. *)
Theorem handleEvent_finish_without_handler `{P : Platform} inst m :
  let wire := wire_of inst in
  let w := wire_at wire m in
  mode_ w = Slave → bufPos_ w = 0 → receiveHandler_ w = None → 0 < bufLen_ w →
  ∃ m', handleEvent (Some inst) I2C_SLAVE_FINISH m = ([], inr (tt, m')) ∧
        m' = update_wire wire (set_bufPos_ 0) (update_wire wire (set_bufLen_ 0) m) ∧
        bufLen_ (wire_at wire m') = 0 ∧ bufPos_ (wire_at wire m') = 0.
Proof.
  intros wire w Hmode Hpos Hh Hlen.
  pose proof (run_handleEvent_finish inst m Hmode Hpos) as Hrun.
  cbv zeta in Hrun. fold wire w in Hrun. rewrite Hh in Hrun.
  destruct (Z.ltb_spec 0 (bufLen_ w)); [|lia].
  eexists. split; [exact Hrun|]. split; [done|].
  rewrite !wire_at_update. done.
Qed.

Lemma handleEvent_finish_delivers_witness :
  trace_of (handleEvent (P := rp2040 0 true hello) (Some i2c0) I2C_SLAVE_FINISH
              (machine_four_received (Some 1%N)))
    = [CallReceiveHandler 1%N 4] ∧
  ∃ m', result_of (handleEvent (P := rp2040 0 true hello) (Some i2c0) I2C_SLAVE_FINISH
                     (machine_four_received (Some 1%N))) = inr (tt, m') ∧
        bufLen_ (Wire m') = 0 ∧ bufPos_ (Wire m') = 0.
Proof.
  destruct (handleEvent_finish_delivers (P := rp2040 0 true hello) i2c0
              (machine_four_received (Some 1%N)) 1%N eq_refl eq_refl eq_refl)
    as [_ Hdeliver].
  destruct Hdeliver as [Htrace Hresult]; [by vm_compute|].
  split; [exact Htrace|].
  destruct (Hresult (update_wire Wire_ptr (set_bufPos_ 1)
                       (machine_four_received (Some 1%N))))
    as (m' & Hm' & _ & Hlen & Hpos); [by vm_compute|].
  exists m'. split; [exact Hm'|]. split; [exact Hlen|exact Hpos].
Defined.

Lemma handleEvent_finish_without_handler_witness :
  ∃ m', handleEvent (P := rp2040 0 true hello) (Some i2c0) I2C_SLAVE_FINISH
          (machine_four_received None) = ([], inr (tt, m')) ∧
        bufLen_ (Wire m') = 0 ∧ bufPos_ (Wire m') = 0.
Proof.
  destruct (handleEvent_finish_without_handler (P := rp2040 0 true hello) i2c0
              (machine_four_received None) eq_refl eq_refl eq_refl)
    as (m' & Hm' & _ & Hlen & Hpos); [by vm_compute|].
  exists m'. split; [exact Hm'|]. split; [exact Hlen|exact Hpos].
Defined.

(** The facade's assertion on the cursor: in slave mode with the cursor away
    from 0, every event fails it before anything is done. *)
Lemma run_handleEvent_cursor_nonzero `{P : Platform} inst ev m :
  let w := wire_at (wire_of inst) m in
  mode_ w = Slave → bufPos_ w ≠ 0 →
  handleEvent (Some inst) ev m = ([], inl AssertionFailed).
Proof.
  intros w Hmode Hpos. unfold handleEvent, i2c_hw_index.
  rewrite run_bind_ret.
  replace (if hw_index inst =? 0 then Wire_ptr else Wire1_ptr) with (wire_of inst)
    by (by destruct inst).
  run_prog. fold w. rewrite Hmode.
  rewrite bool_decide_eq_true_2 by done. cbv iota.
  by rewrite bool_decide_eq_false_2 by done.
Qed.

(** C8, counterexample. The main program takes one of the four buffered
    bytes with [read()] before the transfer ends: the object is still a
    slave with a receive handler and four bytes buffered, the cursor is at
    1, and the Finish event fails the assertion on the cursor. The handler
    is not called and nothing is cleared. *)
Lemma handleEvent_finish_after_read_fails :
  ∃ m1, read Wire_ptr (machine_four_received (Some 1%N)) = ([], inr (0x05, m1)) ∧
        mode_ (Wire m1) = Slave ∧ receiveHandler_ (Wire m1) = Some 1%N ∧
        bufLen_ (Wire m1) = 4 ∧ bufPos_ (Wire m1) = 1 ∧
        handleEvent (P := rp2040 0 true hello) (Some i2c0) I2C_SLAVE_FINISH m1
        = ([], inl AssertionFailed).
Proof. eexists. split; [reflexivity|]. by vm_compute. Qed.

(** C10, counterexample. The same with no receive handler registered: after
    one [read()] from the main program the Finish event fails the assertion
    on the cursor, so the buffered bytes are not discarded and length and
    cursor are not reset. *)
Lemma handleEvent_finish_without_handler_after_read_fails :
  ∃ m1, read Wire_ptr (machine_four_received None) = ([], inr (0x05, m1)) ∧
        mode_ (Wire m1) = Slave ∧ receiveHandler_ (Wire m1) = None ∧
        bufLen_ (Wire m1) = 4 ∧ bufPos_ (Wire m1) = 1 ∧
        handleEvent (P := rp2040 0 true hello) (Some i2c0) I2C_SLAVE_FINISH m1
        = ([], inl AssertionFailed).
Proof. eexists. split; [reflexivity|]. by vm_compute. Qed.

(** ** The layers together *)

(** Stop and start are both reported while the four bytes are buffered: one
    pass of the interrupt handler raises Finish once, the facade passes the
    count 4 to the receive handler, and the transfer is over. *)
Example irq_handler_stop_and_start :
  ∃ m', i2c_slave_irq_handler (P := rp2040 0 true hello) (machine_four_received (Some 1%N))
        = ([CallSlaveHandler TwoWire_handleEvent (Some i2c0) I2C_SLAVE_FINISH;
            CallReceiveHandler 1%N 4], inr (tt, m')) ∧
        transfer_in_progress (i2c_core0_slave m') = false ∧
        bufLen_ (Wire m') = 0 ∧
        raw_intr_stat (i2c0_hw m') = 0.
Proof. eexists. split; [vm_compute; reflexivity|]. done. Qed.

(** ** The order of the events of one pass *)

Lemma slave_events_app t1 t2 :
  slave_events (t1 ++ t2) = slave_events t1 ++ slave_events t2.
Proof. apply omap_app. Qed.

Lemma finish_calls_slave_events t :
  finish_calls t
  = length (List.filter (λ ev, bool_decide (ev = I2C_SLAVE_FINISH)) (slave_events t)).
Proof.
  unfold finish_calls, slave_events. induction t as [|e t IH]; [done|].
  destruct e as [h p []| |]; simpl; by rewrite ?IH.
Qed.

Lemma picks_app {A} mask1 mask2 (l1 l2 : list A) :
  length mask1 = length l1 →
  picks (mask1 ++ mask2) (l1 ++ l2) = picks mask1 l1 ++ picks mask2 l2.
Proof.
  revert l1. induction mask1 as [|b mask1 IH]; intros [|x l1] Hlen; try done.
  simpl in *. rewrite IH by lia. by destruct b.
Qed.

Lemma picks_none {A} (l : list A) : picks (replicate (length l) false) l = [].
Proof. induction l as [|x l IH]; [done|]. simpl. done. Qed.

Section Order.
Context `{P : Platform}.

Lemma selects_bind {A B} l1 l2 (x : M A) (k : A → M B) :
  selects l1 x → (∀ a, selects l2 (k a)) → selects (l1 ++ l2) (x ≫= k).
Proof.
  intros Hx Hk m. rewrite trace_bind, slave_events_app.
  destruct (Hx m) as (mask1 & Hlen1 & ->).
  destruct (result_of (x m)) as [e|[a m1]].
  - exists (mask1 ++ replicate (length l2) false). split.
    + rewrite !length_app, length_replicate. lia.
    + rewrite picks_app by done. by rewrite picks_none.
  - destruct (Hk a m1) as (mask2 & Hlen2 & ->).
    exists (mask1 ++ mask2). split.
    + rewrite !length_app. lia.
    + by rewrite picks_app.
Qed.

Lemma selects_nil_bind {A B} l (x : M A) (k : A → M B) :
  selects [] x → (∀ a, selects l (k a)) → selects l (x ≫= k).
Proof. apply (selects_bind [] l). Qed.

Lemma selects_bind_nil {A B} l (x : M A) (k : A → M B) :
  selects l x → (∀ a, selects [] (k a)) → selects l (x ≫= k).
Proof. intros Hx Hk. rewrite <- (app_nil_r l). by apply selects_bind. Qed.

Lemma selects_silent {A} (x : M A) :
  (∀ m, trace_of (x m) = []) → selects [] x.
Proof. intros H m. exists []. by rewrite H. Qed.

Lemma selects_ret {A} (a : A) : selects [] (mret a).
Proof. by apply selects_silent. Qed.
Lemma selects_throw {A} e : selects [] (throw (A := A) e).
Proof. by apply selects_silent. Qed.
Lemma selects_gets {A} (f : machine → A) : selects [] (gets f).
Proof. by apply selects_silent. Qed.
Lemma selects_modify f : selects [] (modify f).
Proof. by apply selects_silent. Qed.
Lemma selects_assert c : selects [] (assert c).
Proof. apply selects_silent. by destruct c. Qed.
Lemma selects_run_extern f : selects [] (run_extern f).
Proof. apply selects_silent. intros m. unfold run_extern. by destruct (f m). Qed.
Lemma selects_log_user e : slave_event_of e = None → selects [] (log e).
Proof. intros He m. exists []. split; [done|]. simpl. unfold slave_events. simpl. by rewrite He. Qed.
Lemma selects_log_slave h p ev : selects [ev] (log (CallSlaveHandler h p ev)).
Proof. intros m. by exists [true]. Qed.

Lemma selects_skip {A} ev (x : M A) : selects [] x → selects [ev] x.
Proof.
  intros Hx m. destruct (Hx m) as (mask & _ & Hm). exists [false].
  split; [done|]. rewrite Hm. by destruct mask.
Qed.

Ltac silent :=
  repeat first
    [ apply selects_ret | apply selects_throw | apply selects_gets
    | apply selects_modify | apply selects_assert | apply selects_run_extern
    | by apply selects_log_user
    | match goal with H : context [selects] |- _ => apply H end
    | apply selects_nil_bind; [|intros]
    | match goal with
      | |- selects [] (if ?c then _ else _) => destruct c
      | |- selects [] (match ?x with _ => _ end) => destruct x
      end ].

Lemma selects_buf_push this v : selects [] (buf_push this v).
Proof. unfold buf_push. silent. Qed.

Lemma selects_receive_loop inst wire n : selects [] (receive_loop inst wire n).
Proof.
  induction n as [|n IH]; simpl; [apply selects_ret|].
  pose proof (selects_buf_push wire). unfold i2c_read_byte. silent.
Qed.

Lemma selects_handleEvent p ev : selects [] (handleEvent p ev).
Proof.
  unfold handleEvent, i2c_hw_index, i2c_get_hw, i2c_get_read_available,
    call_requestHandler, call_receiveHandler.
  pose proof selects_receive_loop. silent.
Qed.

Lemma selects_call_handler h p ev : selects [ev] (call_handler h p ev).
Proof.
  unfold call_handler. destruct h as [f|]; [|apply selects_skip, selects_throw].
  apply selects_bind_nil; [apply selects_log_slave|intros _].
  destruct f; [apply selects_handleEvent|apply selects_run_extern].
Qed.

Lemma selects_finish_stage slave (c : bool) bits hw :
  selects [I2C_SLAVE_FINISH]
    (if c then finish_transfer slave;; read_clr bits hw else mret tt).
Proof.
  destruct c; [|apply selects_skip, selects_ret].
  apply selects_bind_nil; [|intros _; apply selects_modify].
  unfold finish_transfer. apply selects_nil_bind; [apply selects_gets|intros s].
  destruct (transfer_in_progress s); [|apply selects_skip, selects_ret].
  apply selects_bind_nil; [apply selects_call_handler|intros _; apply selects_modify].
Qed.

Lemma selects_irq_handler :
  selects [I2C_SLAVE_FINISH; I2C_SLAVE_FINISH; I2C_SLAVE_FINISH;
           I2C_SLAVE_RECEIVE; I2C_SLAVE_REQUEST] i2c_slave_irq_handler.
Proof.
  assert (Hskip : ∀ A (x : M A) l, selects [] x → selects l x).
  { intros A x l Hx m. destruct (Hx m) as (mask & _ & Hm).
    exists (replicate (length l) false). rewrite length_replicate. split; [done|].
    rewrite Hm, picks_none. by destruct mask. }
  unfold i2c_slave_irq_handler, this_core_slave.
  apply selects_nil_bind; [apply selects_gets|intros slave].
  apply selects_nil_bind; [apply selects_gets|intros p].
  apply selects_nil_bind; [destruct p; [apply selects_ret|apply selects_throw]|intros hw].
  apply selects_nil_bind; [apply selects_gets|intros intr_stat].
  destruct (intr_stat =? 0); [apply Hskip, selects_ret|].
  apply (selects_bind [_] [_; _; _; _]); [apply selects_finish_stage|intros _].
  apply (selects_bind [_] [_; _; _]); [apply selects_finish_stage|intros _].
  apply (selects_bind [_] [_; _]); [apply selects_finish_stage|intros _].
  apply (selects_bind [_] [_]); [|intros _].
  - destruct (negb _); [|apply selects_skip, selects_ret].
    apply selects_nil_bind; [apply selects_modify|intros _].
    apply selects_nil_bind; [apply selects_gets|intros h].
    apply selects_call_handler.
  - destruct (negb _); [|apply selects_skip, selects_ret].
    apply selects_nil_bind; [apply selects_modify|intros _].
    apply selects_nil_bind; [apply selects_gets|intros h].
    apply selects_bind_nil; [apply selects_call_handler|intros _; apply selects_modify].
Qed.

End Order.

Lemma finish_calls_of_pass `{P : Platform} (m : machine) :
  (finish_calls (trace_of (i2c_slave_irq_handler m)) ≤ 1)%nat.
Proof.
  unfold i2c_slave_irq_handler.
  rewrite trace_bind. simpl. fold (current_slave m).
  rewrite trace_bind. simpl.
  destruct (i2c (slave_at (current_slave m) m)) as [hw|] eqn:Hp.
  - rewrite trace_bind. simpl.
    pose proof (capped_dispatch (current_slave m) (Some hw) hw m) as Hcap.
    unfold budget in Hcap. destruct (transfer_in_progress _); lia.
  - rewrite trace_bind. simpl. unfold finish_calls. simpl. lia.
Qed.

(** X1. The slave handler calls of one pass of the interrupt handler, in
    order, are a sublist of Finish, Receive, Request: each event at most once,
    a Finish before any Receive or Request, a Receive before a Request. *)
Theorem irq_handler_event_order `{P : Platform} (m : machine) :
  slave_events (trace_of (i2c_slave_irq_handler m))
    `sublist_of` [I2C_SLAVE_FINISH; I2C_SLAVE_RECEIVE; I2C_SLAVE_REQUEST].
Proof.
  pose proof (finish_calls_of_pass m) as Hle.
  rewrite finish_calls_slave_events in Hle.
  destruct (selects_irq_handler m) as (mask & Hlen & Hsel).
  rewrite Hsel in *. clear Hsel.
  destruct mask as [|b1 [|b2 [|b3 [|b4 [|b5 [|]]]]]]; try done.
  destruct b1, b2, b3, b4, b5; simpl in Hle; try lia; simpl;
    repeat first [ apply sublist_nil | apply sublist_skip | apply sublist_cons ].
Qed.

(** ** The transfer flag across one pass *)

Section Keeps.
Context `{P : Platform}.
Context {B : Type} (part : machine → B).

Lemma keeps_bind {A C} (x : M A) (k : A → M C) :
  keeps part x → (∀ a, keeps part (k a)) → keeps part (x ≫= k).
Proof.
  intros Hx Hk m. rewrite result_bind. specialize (Hx m).
  destruct (result_of (x m)) as [e|[a m1]]; [done|].
  specialize (Hk a m1). destruct (result_of (k a m1)) as [e|[b m2]]; [done|].
  congruence.
Qed.

Lemma keeps_ret {A} (a : A) : keeps part (mret a).
Proof. done. Qed.
Lemma keeps_throw {A} e : keeps part (throw (A := A) e).
Proof. done. Qed.
Lemma keeps_gets {A} (f : machine → A) : keeps part (gets f).
Proof. done. Qed.
Lemma keeps_log e : keeps part (log e).
Proof. done. Qed.
Lemma keeps_assert c : keeps part (assert c).
Proof. by destruct c. Qed.
Lemma keeps_modify f : (∀ m, part (f m) = part m) → keeps part (modify f).
Proof. intros H m. apply H. Qed.
Lemma keeps_run_extern f : extern_keeps part f → keeps part (run_extern f).
Proof. intros H m. specialize (H m). unfold run_extern. by destruct (f m). Qed.

Lemma keeps_hoare {A} (x : M A) (Q : B → Prop) :
  keeps part x → hoare (λ m, Q (part m)) x (λ _ m, Q (part m)).
Proof.
  intros Hx m Hm. specialize (Hx m).
  destruct (result_of (x m)) as [e|[a m1]]; [done|]. by rewrite Hx.
Qed.

End Keeps.

Section Flag.
Context `{P : Platform}.
Variable sl : slave_ptr.
Hypothesis slave_code_keeps : ∀ a p ev, extern_keeps (slave_at sl) (extern_slave_code a p ev).
Hypothesis receive_code_keeps : ∀ h c, extern_keeps (slave_at sl) (receive_code h c).
Hypothesis request_code_keeps : ∀ h, extern_keeps (slave_at sl) (request_code h).

Lemma keeps_slave_update_wire this f : keeps (slave_at sl) (modify (update_wire this f)).
Proof. apply keeps_modify. intros m. by destruct sl, this. Qed.

Lemma keeps_slave_update_hw inst f : keeps (slave_at sl) (modify (update_hw inst f)).
Proof. apply keeps_modify. intros m. by destruct sl, inst. Qed.

Ltac keeps_slave :=
  repeat first
    [ apply keeps_ret | apply keeps_throw | apply keeps_gets | apply keeps_log
    | apply keeps_assert | apply keeps_slave_update_wire | apply keeps_slave_update_hw
    | apply keeps_run_extern;
        first [ apply slave_code_keeps | apply receive_code_keeps | apply request_code_keeps ]
    | match goal with H : context [keeps] |- _ => apply H end
    | apply keeps_bind; [|intros]
    | match goal with
      | |- keeps _ (if ?c then _ else _) => destruct c
      | |- keeps _ (match ?x with _ => _ end) => destruct x
      end ].

Lemma keeps_slave_buf_push this v : keeps (slave_at sl) (buf_push this v).
Proof. unfold buf_push. keeps_slave. Qed.

Lemma keeps_slave_receive_loop inst wire n : keeps (slave_at sl) (receive_loop inst wire n).
Proof.
  induction n as [|n IH]; simpl; [apply keeps_ret|].
  pose proof (keeps_slave_buf_push wire). unfold i2c_read_byte. keeps_slave.
Qed.

Lemma keeps_slave_handleEvent p ev : keeps (slave_at sl) (handleEvent p ev).
Proof.
  unfold handleEvent, i2c_hw_index, i2c_get_hw, i2c_get_read_available,
    call_requestHandler, call_receiveHandler.
  pose proof keeps_slave_receive_loop. keeps_slave.
Qed.

Lemma keeps_slave_call_handler h p ev : keeps (slave_at sl) (call_handler h p ev).
Proof.
  unfold call_handler. pose proof keeps_slave_handleEvent. keeps_slave.
Qed.

Lemma keeps_slave_read_clr bits hw : keeps (slave_at sl) (read_clr bits hw).
Proof. apply keeps_slave_update_hw. Qed.

Lemma flagged_keeps {A} (x : M A) s0 t :
  keeps (slave_at sl) x → hoare (flagged sl s0 t) x (λ _, flagged sl s0 t).
Proof.
  intros Hx. apply (keeps_hoare (slave_at sl) x (λ s, s = set_transfer_in_progress t s0) Hx).
Qed.

Lemma flagged_set s0 t t' :
  hoare (flagged sl s0 t) (modify (update_slave sl (set_transfer_in_progress t')))
    (λ _, flagged sl s0 t').
Proof.
  intros m Hm. unfold flagged in *. simpl.
  destruct sl; simpl in *; rewrite Hm; done.
Qed.

Lemma flagged_finish_stage s0 t (c : bool) bits hw :
  hoare (flagged sl s0 t)
    (if c then finish_transfer sl;; read_clr bits hw else mret tt)
    (λ _, flagged sl s0 (t && negb c)).
Proof.
  destruct c; [|rewrite andb_true_r; by apply hoare_ret].
  rewrite andb_false_r.
  eapply hoare_bind with (mid := λ _, flagged sl s0 false);
    [|intros _; apply flagged_keeps, keeps_slave_read_clr].
  unfold finish_transfer. apply hoare_gets_bind; intros s.
  destruct (transfer_in_progress s) eqn:Hs.
  - eapply hoare_weaken; [intros m [Hm _]; exact Hm|].
    eapply hoare_bind with (mid := λ _, flagged sl s0 t);
      [apply flagged_keeps, keeps_slave_call_handler|intros _].
    apply flagged_set.
  - apply hoare_ret. intros m [Hm Heq]. unfold flagged in *.
    rewrite <- Heq, Hm in Hs. simpl in Hs. by rewrite Hs in Hm.
Qed.

Lemma flagged_data_stage s0 t (c : bool) p ev (after : M unit) :
  keeps (slave_at sl) after →
  hoare (flagged sl s0 t)
    (if c then
       modify (update_slave sl (set_transfer_in_progress true));;
       h ← gets (fun m => handler (slave_at sl m));
       call_handler h p ev;; after
     else mret tt)
    (λ _, flagged sl s0 (c || t)).
Proof.
  intros Hafter. destruct c; [|by apply hoare_ret].
  eapply hoare_bind with (mid := λ _, flagged sl s0 true);
    [apply flagged_set|intros _].
  apply flagged_keeps.
  apply keeps_bind; [apply keeps_gets|intros h].
  apply keeps_bind; [apply keeps_slave_call_handler|intros _; apply Hafter].
Qed.

Lemma flagged_data_stage_last s0 t (c : bool) p ev :
  hoare (flagged sl s0 t)
    (if c then
       modify (update_slave sl (set_transfer_in_progress true));;
       h ← gets (fun m => handler (slave_at sl m));
       call_handler h p ev
     else mret tt)
    (λ _, flagged sl s0 (c || t)).
Proof.
  destruct c; [|by apply hoare_ret].
  eapply hoare_bind with (mid := λ _, flagged sl s0 true);
    [apply flagged_set|intros _].
  apply flagged_keeps.
  apply keeps_bind; [apply keeps_gets|intros h]. apply keeps_slave_call_handler.
Qed.

End Flag.

(** X2. When the application code leaves this core's slave context alone,
    a pass of the interrupt handler that returns changes only the flag of the
    context: it is true afterwards exactly when receive-full or read-request
    was asserted, or it was true before and none of abort, start and stop
    was asserted. *)
Theorem irq_handler_transfer_flag `{P : Platform} m inst :
  let sl := current_slave m in
  let s := masked_status inst m in
  (∀ a p ev, extern_keeps (slave_at sl) (extern_slave_code a p ev)) →
  (∀ h c, extern_keeps (slave_at sl) (receive_code h c)) →
  (∀ h, extern_keeps (slave_at sl) (request_code h)) →
  i2c (slave_at sl m) = Some inst →
  match result_of (i2c_slave_irq_handler m) with
  | inr (_, m') =>
      slave_at sl m' =
      set_transfer_in_progress
        ((asserted s I2C_IC_INTR_STAT_R_RX_FULL_BITS ||
          asserted s I2C_IC_INTR_STAT_R_RD_REQ_BITS) ||
         (transfer_in_progress (slave_at sl m) &&
          negb (asserted s I2C_IC_INTR_STAT_R_TX_ABRT_BITS ||
                asserted s I2C_IC_INTR_STAT_R_START_DET_BITS ||
                asserted s I2C_IC_INTR_STAT_R_STOP_DET_BITS)))
        (slave_at sl m)
  | inl _ => True
  end.
Proof.
  intros sl s Hslave Hreceive Hrequest Hbound.
  unfold i2c_slave_irq_handler, this_core_slave, read_intr_stat.
  rewrite run_bind_gets. fold (current_slave m). fold sl.
  rewrite run_bind_gets, Hbound. unfold i2c_get_hw.
  rewrite run_bind_ret, run_bind_gets. fold (masked_status inst m). fold s.
  destruct (Z.eqb_spec s 0) as [Hzero|Hnonzero].
  - simpl. unfold asserted. rewrite Hzero, !Z.land_0_l. simpl.
    by destruct (slave_at sl m) as [? ? []].
  - fold (asserted s I2C_IC_INTR_STAT_R_TX_ABRT_BITS).
    fold (asserted s I2C_IC_INTR_STAT_R_START_DET_BITS).
    fold (asserted s I2C_IC_INTR_STAT_R_STOP_DET_BITS).
    fold (asserted s I2C_IC_INTR_STAT_R_RX_FULL_BITS).
    fold (asserted s I2C_IC_INTR_STAT_R_RD_REQ_BITS).
    set (s0 := slave_at sl m). set (t := transfer_in_progress s0).
    set (c1 := asserted s I2C_IC_INTR_STAT_R_TX_ABRT_BITS).
    set (c2 := asserted s I2C_IC_INTR_STAT_R_START_DET_BITS).
    set (c3 := asserted s I2C_IC_INTR_STAT_R_STOP_DET_BITS).
    set (c4 := asserted s I2C_IC_INTR_STAT_R_RX_FULL_BITS).
    set (c5 := asserted s I2C_IC_INTR_STAT_R_RD_REQ_BITS).
    match goal with |- match result_of (?x m) with _ => _ end =>
      assert (Hpass : hoare (flagged sl s0 t) x
                (λ _, flagged sl s0 (c5 || (c4 || (t && negb c1 && negb c2 && negb c3)))))
    end.
    { eapply hoare_bind; [by apply flagged_finish_stage|intros ?].
      eapply hoare_bind; [by apply flagged_finish_stage|intros ?].
      eapply hoare_bind; [by apply flagged_finish_stage|intros ?].
      eapply hoare_bind; [by apply flagged_data_stage_last|intros ?].
      apply flagged_data_stage; [done..|]. by apply keeps_slave_read_clr. }
    assert (Hstart : flagged sl s0 t m)
      by (unfold flagged, t, s0; by destruct (slave_at sl m)).
    specialize (Hpass m Hstart).
    destruct (result_of _) as [e|[[] m']]; [done|].
    unfold flagged in Hpass. rewrite Hpass. f_equal.
    by destruct c1, c2, c3, c4, c5, t.
Qed.

Lemma keeps_slave_read sl this : keeps (slave_at sl) (read this).
Proof.
  intros m. unfold read. run_prog.
  repeat (case_bool_decide; [|done]). cbv iota.
  destruct (_ <? _); [|done]. run_prog. unfold buf_at.
  destruct (if bool_decide _ then _ else _); [|done].
  simpl. by destruct sl, this.
Qed.

Lemma irq_handler_transfer_flag_witness :
  match result_of (i2c_slave_irq_handler (P := rp2040 0 true hello)
                     (machine_four_received (Some 1%N))) with
  | inr (_, m') =>
      i2c_core0_slave m' = mk_slave (Some i2c0) (Some TwoWire_handleEvent) false
  | inl _ => True
  end.
Proof.
  assert (Hslave : ∀ a p ev, extern_keeps (slave_at core0_slave)
            (extern_slave_code (Platform := rp2040 0 true hello) a p ev))
    by (by intros a p ev m).
  assert (Hreceive : ∀ h c, extern_keeps (slave_at core0_slave)
            (receive_code (Platform := rp2040 0 true hello) h c)).
  { intros h c m. simpl. unfold app_receive. destruct (h =? 1)%N; [|done].
    pose proof (keeps_slave_read core0_slave Wire_ptr m) as Hread.
    by destruct (result_of (read Wire_ptr m)) as [e|[b m1]]. }
  assert (Hrequest : ∀ h, extern_keeps (slave_at core0_slave)
            (request_code (Platform := rp2040 0 true hello) h))
    by (by intros h m).
  exact (irq_handler_transfer_flag (P := rp2040 0 true hello)
           (machine_four_received (Some 1%N)) i2c0 Hslave Hreceive Hrequest eq_refl).
Defined.

(** ** What init and deinit do to the hardware *)

Section Hardware.
Context `{P : Platform}.

Lemma run_i2c_slave_init m inst address h :
  let sl := current_slave m in
  let num := I2C0_IRQ + hw_index inst in
  i2c_slave_init (Some inst) address (Some h) m
  = ([], inr (tt,
       update_irq num (λ l, mk_irq (irq_handler l) true)
         (update_irq num (λ l, mk_irq (Some i2c_slave_irq_handler_fn) (irq_enabled l))
            (update_hw inst (set_intr_mask slave_intr_mask)
               (update_hw inst (set_slave_mode true address)
                  (update_slave sl (set_handler (Some h))
                     (update_slave sl (set_i2c (Some inst)) m))))))).
Proof.
  intros sl num.
  unfold i2c_slave_init, this_core_slave, i2c_hw_index, i2c_set_slave_mode,
    i2c_get_hw, irq_set_enabled, irq_set_exclusive_handler, write_intr_mask.
  assert (Hvalid : negb (bool_decide (Some inst ≠ Some i2c0) &&
                         bool_decide (Some inst ≠ Some i2c1)) = true)
    by (by destruct inst).
  run_prog. rewrite Hvalid. simpl negb. cbv iota. run_prog.
  fold (current_slave m). done.
Qed.

Lemma run_i2c_slave_deinit m inst :
  let sl := current_slave m in
  let num := I2C0_IRQ + hw_index inst in
  i2c (slave_at sl m) = Some inst →
  i2c_slave_deinit m
  = ([], inr (tt,
       update_hw inst (set_slave_mode false 0)
         (update_hw inst (set_intr_mask I2C_IC_INTR_MASK_RESET)
            (update_irq num (λ l, mk_irq None (irq_enabled l))
               (update_irq num (λ l, mk_irq (irq_handler l) false)
                  (update_slave sl (set_transfer_in_progress false)
                     (update_slave sl (set_handler None)
                        (update_slave sl (set_i2c None) m)))))))).
Proof.
  intros sl num Hsome.
  unfold i2c_slave_deinit, this_core_slave, i2c_hw_index, i2c_set_slave_mode,
    i2c_get_hw, irq_set_enabled, irq_remove_handler, write_intr_mask.
  run_prog. fold (current_slave m). fold sl.
  rewrite Hsome. simpl negb. cbv iota. run_prog. done.
Qed.

Lemma irq_line_of_update_irq inst f m :
  irq_line_of inst (update_irq (I2C0_IRQ + hw_index inst) f m) = f (irq_line_of inst m).
Proof.
  unfold irq_line_of, update_irq. simpl. by rewrite lookup_insert_eq.
Qed.

Lemma irq_line_of_update_hw inst i f m :
  irq_line_of inst (update_hw i f m) = irq_line_of inst m.
Proof. by destruct i. Qed.

Lemma irq_line_of_update_slave inst sl f m :
  irq_line_of inst (update_slave sl f m) = irq_line_of inst m.
Proof. by destruct sl. Qed.

End Hardware.

(** X3. [i2c_slave_init] checks its arguments before it changes anything: a
    pointer that is neither instance, or a null handler, fails the
    assertion. With valid arguments it binds this core's context to the
    instance and the handler without touching the flag, switches the
    instance to slave mode at the address, unmasks exactly the five
    interrupt sources, installs the handler on the line of the instance and
    enables the line, and leaves both TwoWire objects as they are. *)
Theorem i2c_slave_init_binds_and_enables `{P : Platform} m :
  (∀ address h, i2c_slave_init None address h m = ([], inl AssertionFailed)) ∧
  (∀ p address, i2c_slave_init p address None m = ([], inl AssertionFailed)) ∧
  (∀ inst address h, ∃ m',
      i2c_slave_init (Some inst) address (Some h) m = ([], inr (tt, m')) ∧
      slave_at (current_slave m) m'
        = mk_slave (Some inst) (Some h)
            (transfer_in_progress (slave_at (current_slave m) m)) ∧
      hw_at inst m'
        = set_intr_mask slave_intr_mask (set_slave_mode true address (hw_at inst m)) ∧
      irq_line_of inst m' = mk_irq (Some i2c_slave_irq_handler_fn) true ∧
      Wire m' = Wire m ∧ Wire1 m' = Wire1 m).
Proof.
  split_and!.
  - intros address h. unfold i2c_slave_init. by run_prog.
  - intros p address. unfold i2c_slave_init. run_prog.
    by destruct (negb _).
  - intros inst address h. eexists. split; [apply run_i2c_slave_init|].
    split_and!.
    + by destruct (current_slave m), inst.
    + by destruct (current_slave m), inst.
    + rewrite !irq_line_of_update_irq. done.
    + by destruct (current_slave m), inst.
    + by destruct (current_slave m), inst.
Qed.

(** X4. Init followed by deinit on the same core is undone as far as the
    slave is concerned: the context is unbound, the instance is out of slave
    mode with address 0 and its interrupt mask at the reset value, the line
    of the instance has no handler and is disabled, and the other instance
    and both TwoWire objects are as before. *)
Theorem init_then_deinit_releases `{P : Platform} m inst address h :
  let other := match inst with i2c0 => i2c1 | i2c1 => i2c0 end in
  ∃ m1 m2,
    i2c_slave_init (Some inst) address (Some h) m = ([], inr (tt, m1)) ∧
    i2c_slave_deinit m1 = ([], inr (tt, m2)) ∧
    slave_at (current_slave m) m2 = slave_unbound ∧
    hw_at inst m2
      = set_slave_mode false 0 (set_intr_mask I2C_IC_INTR_MASK_RESET (hw_at inst m)) ∧
    irq_line_of inst m2 = mk_irq None false ∧
    hw_at other m2 = hw_at other m ∧
    Wire m2 = Wire m ∧ Wire1 m2 = Wire1 m.
Proof.
  intros other.
  pose proof (run_i2c_slave_init m inst address h) as Hinit. cbv zeta in Hinit.
  set (m1 := update_irq _ _ _) in Hinit.
  assert (Hcur : current_slave m1 = current_slave m).
  { unfold m1, current_slave.
    destruct (core_num m =? 0) eqn:Hc, inst; simpl; by rewrite Hc. }
  assert (Hbound : i2c (slave_at (current_slave m1) m1) = Some inst).
  { rewrite Hcur. unfold m1. by destruct (current_slave m), inst. }
  pose proof (run_i2c_slave_deinit m1 inst Hbound) as Hdeinit.
  cbv zeta in Hdeinit. rewrite Hcur in Hdeinit.
  exists m1. eexists. split; [exact Hinit|]. split; [exact Hdeinit|].
  split_and!.
  - unfold m1. by destruct (current_slave m), inst.
  - unfold m1. by destruct (current_slave m), inst.
  - rewrite !irq_line_of_update_hw, !irq_line_of_update_irq. done.
  - unfold m1, other. by destruct (current_slave m), inst.
  - unfold m1. by destruct (current_slave m), inst.
  - unfold m1. by destruct (current_slave m), inst.
Qed.

(** ** A whole master transmission *)

Lemma run_beginTransmission this address m :
  let w := wire_at this m in
  mode_ w = Master → txAddress_ w = NO_ADDRESS → address ≠ NO_ADDRESS →
  beginTransmission this address m
  = ([], inr (tt, update_wire this
                    (λ w, set_bufPos_ 0 (set_bufLen_ 0 (set_txAddress_ address w))) m)).
Proof.
  intros w Hmode Htx Ha. unfold beginTransmission. run_prog. fold w.
  rewrite !bool_decide_eq_true_2 by done. cbv iota. run_prog.
  by rewrite !update_wire_compose.
Qed.

Lemma run_endTransmission `{P : Platform} this sendStop m :
  let w := wire_at this m in
  let inst := TwoWire_i2c this in
  let r := i2c_write_blocking inst (txAddress_ w) (buf_ w) (bufLen_ w)
             (negb sendStop) (hw_at inst m) in
  mode_ w = Master → txAddress_ w ≠ NO_ADDRESS → bufPos_ w = 0 →
  endTransmission this sendStop m
  = ([], inr (if r.1 <? 0 then 4 else 0,
              update_wire this (λ w, set_bufLen_ 0 (set_txAddress_ NO_ADDRESS w))
                (set_hw_at inst r.2 m))).
Proof.
  intros w inst r Hmode Htx Hpos. subst r.
  unfold endTransmission. run_prog. fold w inst.
  rewrite !bool_decide_eq_true_2 by done. cbv iota.
  destruct (i2c_write_blocking _ _ _ _ _ _) as [result hw'].
  run_prog. simpl fst. simpl snd. rewrite !update_wire_compose, wire_at_update.
  cbn [bufLen_ set_bufLen_].
  by destruct (result <? 0).
Qed.

(** X5. A master transmission as a whole: after [beginTransmission(address)]
    and [write(data, size)], [endTransmission] hands the bulk write the
    target address, a buffer that starts with the first [min(size, 32)] bytes
    of [data], and that count as the length; it returns 4 for a negative
    result and 0 otherwise, and the object is left in master mode with the
    transmission closed and the buffer empty. *)
Theorem transmission_sends_what_was_written `{P : Platform} this address
    (data : list Z) size sendStop m :
  let w := wire_at this m in
  let inst := TwoWire_i2c this in
  let n := Z.min size WIRE_BUFFER_LENGTH in
  let payload := take (Z.to_nat n) data ++ drop (Z.to_nat n) (buf_ w) in
  let r := i2c_write_blocking inst address payload n (negb sendStop) (hw_at inst m) in
  mode_ w = Master → txAddress_ w = NO_ADDRESS → address ≠ NO_ADDRESS →
  length (buf_ w) = Z.to_nat WIRE_BUFFER_LENGTH →
  0 ≤ size ≤ Z.of_nat (length data) →
  ∃ m',
    (beginTransmission this address;; write_data this data size;;
     endTransmission this sendStop) m
      = ([], inr (if r.1 <? 0 then 4 else 0, m')) ∧
    mode_ (wire_at this m') = Master ∧
    txAddress_ (wire_at this m') = NO_ADDRESS ∧
    bufLen_ (wire_at this m') = 0 ∧
    bufPos_ (wire_at this m') = 0 ∧
    hw_at inst m' = r.2.
Proof.
  intros w inst n payload r Hmode Htx Ha Hbuf Hsize.
  set (m1 := update_wire this
               (λ w, set_bufPos_ 0 (set_bufLen_ 0 (set_txAddress_ address w))) m).
  assert (Hw1 : wire_at this m1
                = set_bufPos_ 0 (set_bufLen_ 0 (set_txAddress_ address w)))
    by (unfold m1; by rewrite wire_at_update).
  assert (Hn : length (take (Z.to_nat n) data) = Z.to_nat n)
    by (rewrite length_take; unfold n, WIRE_BUFFER_LENGTH; lia).
  assert (Hwrite : write_data this data size m1
                   = ([], inr (n, update_wire this (appended (take (Z.to_nat n) data)) m1))).
  { rewrite run_write_data_master; rewrite ?Hw1; simpl; try done;
      unfold WIRE_BUFFER_LENGTH in *; try lia. }
  set (m2 := update_wire this (appended (take (Z.to_nat n) data)) m1) in Hwrite.
  assert (Hw2 : wire_at this m2 = appended (take (Z.to_nat n) data) (wire_at this m1))
    by (unfold m2; by rewrite wire_at_update).
  assert (Hbuf2 : buf_ (wire_at this m2) = payload).
  { rewrite Hw2, Hw1. unfold appended. simpl. by rewrite Hn. }
  assert (Hlen2 : bufLen_ (wire_at this m2) = n).
  { rewrite Hw2, Hw1. unfold appended. simpl. rewrite Hn.
    unfold n, WIRE_BUFFER_LENGTH. lia. }
  assert (Hhw2 : hw_at inst m2 = hw_at inst m)
    by (unfold m2, m1; by destruct this).
  pose proof (run_endTransmission this sendStop m2) as Hend. cbv zeta in Hend.
  fold inst in Hend. rewrite Hbuf2, Hlen2, Hhw2 in Hend.
  replace (txAddress_ (wire_at this m2)) with address in Hend
    by (by rewrite Hw2, Hw1).
  fold inst r in Hend.
  eexists. split.
  - unfold mbind, M_bind, bind.
    rewrite run_beginTransmission by done. fold m1. rewrite Hwrite.
    rewrite Hend; rewrite ?Hw2, ?Hw1; try done.
  - rewrite wire_at_update, wire_at_set_hw_at, Hw2, Hw1. simpl.
    split_and!; try done. by destruct this.
Qed.

Lemma transmission_sends_what_was_written_witness :
  ∃ m',
    (beginTransmission Wire1_ptr 0x17;;
     write_data (P := rp2040 32 true []) Wire1_ptr (replicate 40 0x55) 40;;
     endTransmission (P := rp2040 32 true []) Wire1_ptr true) machine_wire1_master
      = ([], inr (0, m')) ∧
    txAddress_ (Wire1 m') = NO_ADDRESS ∧ bufLen_ (Wire1 m') = 0.
Proof.
  assert (Ha : 0x17 ≠ NO_ADDRESS) by (vm_compute; discriminate).
  assert (Hsize : 0 ≤ 40 ≤ Z.of_nat (length (replicate 40 0x55)))
    by (vm_compute; split; discriminate).
  destruct (transmission_sends_what_was_written (P := rp2040 32 true []) Wire1_ptr
              0x17 (replicate 40 0x55) 40 true machine_wire1_master
              eq_refl eq_refl Ha eq_refl Hsize)
    as (m' & Hrun & _ & Htx & Hlen & _).
  exists m'. split; [exact Hrun|]. split; [exact Htx|exact Hlen].
Defined.

Lemma endTransmission_code_witness :
  ∃ m', endTransmission (P := rp2040 (-1) true []) Wire1_ptr true machine_four_buffered
          = ([], inr (4, m')) ∧
        txAddress_ (Wire1 m') = NO_ADDRESS ∧ bufLen_ (Wire1 m') = 0.
Proof.
  assert (Htx : txAddress_ (wire_at Wire1_ptr machine_four_buffered) ≠ NO_ADDRESS)
    by (vm_compute; discriminate).
  destruct (endTransmission_code (P := rp2040 (-1) true []) Wire1_ptr true
              machine_four_buffered eq_refl Htx eq_refl)
    as (m' & Hrun & Hclosed & Hlen).
  exists m'. split; [exact Hrun|]. split; [exact Hclosed|exact Hlen].
Defined.

(** ** The read side *)

(** X7. With the cursor inside the buffer, [peek()] returns the byte at the
    cursor and changes nothing, [read()] returns the same byte and moves the
    cursor by one, and [available()] is the number of bytes from the cursor
    to the end. With the cursor at the end, [available()] is 0 and both
    [peek()] and [read()] return -1 and change nothing. *)
Theorem peek_read_available this m :
  let w := wire_at this m in
  mode_ w ≠ Unassigned → txAddress_ w = NO_ADDRESS →
  0 ≤ bufPos_ w ≤ bufLen_ w →
  bufLen_ w ≤ Z.of_nat (length (buf_ w)) → bufLen_ w ≤ 255 →
  available this m = ([], inr (bufLen_ w - bufPos_ w, m)) ∧
  (bufPos_ w < bufLen_ w →
     ∃ b, buf_ w !! Z.to_nat (bufPos_ w) = Some b ∧
          peek this m = ([], inr (b, m)) ∧
          read this m = ([], inr (b, update_wire this (set_bufPos_ (bufPos_ w + 1)) m))) ∧
  (bufPos_ w = bufLen_ w →
     peek this m = ([], inr (-1, m)) ∧ read this m = ([], inr (-1, m))).
Proof.
  intros w Hmode Htx Hpos Hlen Hcap. split_and!.
  - unfold available. run_prog. fold w.
    rewrite !bool_decide_eq_true_2 by done. cbv iota. run_prog.
    by rewrite to_size_t_small by lia.
  - intros Hin.
    destruct (run_read_data this m) as (b & Hb & Hread); try done; [fold w; lia|].
    fold w in Hb, Hread. exists b. split_and!; [done| |done].
    unfold peek. run_prog. fold w.
    rewrite !bool_decide_eq_true_2 by done. cbv iota.
    destruct (Z.ltb_spec (bufPos_ w) (bufLen_ w)); [|lia].
    unfold buf_at. rewrite bool_decide_eq_true_2 by lia. by rewrite Hb.
  - intros Hend. split.
    + unfold peek. run_prog. fold w.
      rewrite !bool_decide_eq_true_2 by done. cbv iota.
      by destruct (Z.ltb_spec (bufPos_ w) (bufLen_ w)); [lia|].
    + apply run_read_empty; [done..|fold w; lia].
Qed.

Lemma peek_read_available_witness :
  available Wire_ptr (machine_four_received None)
    = ([], inr (4, machine_four_received None)) ∧
  peek Wire_ptr (machine_four_received None)
    = ([], inr (5, machine_four_received None)).
Proof.
  assert (Hmode : mode_ (wire_at Wire_ptr (machine_four_received None)) ≠ Unassigned)
    by discriminate.
  assert (Hpos : 0 ≤ bufPos_ (wire_at Wire_ptr (machine_four_received None))
                 ≤ bufLen_ (wire_at Wire_ptr (machine_four_received None)))
    by (vm_compute; split; discriminate).
  assert (Hlen : bufLen_ (wire_at Wire_ptr (machine_four_received None))
                 ≤ Z.of_nat (length (buf_ (wire_at Wire_ptr (machine_four_received None)))))
    by (vm_compute; discriminate).
  assert (Hcap : bufLen_ (wire_at Wire_ptr (machine_four_received None)) ≤ 255)
    by (vm_compute; discriminate).
  destruct (peek_read_available Wire_ptr (machine_four_received None)
              Hmode eq_refl Hpos Hlen Hcap) as (Havail & Hin & _).
  split; [exact Havail|].
  destruct Hin as (b & Hb & Hpeek & _); [by vm_compute|].
  injection Hb as <-. exact Hpeek.
Defined.

(** X8. After a [requestFrom] whose bulk read did not return more than it
    was asked for, [available()] is the number [requestFrom] returned: 0
    after a failed read. *)
Theorem requestFrom_then_available `{P : Platform} this address count sendStop m :
  let w := wire_at this m in
  let inst := TwoWire_i2c this in
  let len := Z.min count WIRE_BUFFER_LENGTH in
  let result := (i2c_read_blocking inst address len (negb sendStop) (hw_at inst m)).1.1 in
  mode_ w = Master → txAddress_ w = NO_ADDRESS →
  length (buf_ w) = Z.to_nat WIRE_BUFFER_LENGTH →
  0 ≤ count → result ≤ len →
  ∃ m', (n ← requestFrom this address count sendStop;
         a ← available this;
         mret (n, a)) m
        = ([], inr ((Z.max result 0, Z.max result 0), m')).
Proof.
  intros w inst len result Hmode Htx Hbuf Hcount Hres.
  assert (Hn : to_uint8 (Z.max result 0) = Z.max result 0)
    by (apply to_uint8_small; unfold len, WIRE_BUFFER_LENGTH in *; lia).
  eexists. unfold mbind, M_bind, bind.
  rewrite run_requestFrom by done. fold inst len result. rewrite Hn.
  set (m1 := update_wire this (set_bufPos_ 0) _).
  assert (Hw1 : mode_ (wire_at this m1) = Master ∧
                txAddress_ (wire_at this m1) = NO_ADDRESS ∧
                bufLen_ (wire_at this m1) = Z.max result 0 ∧
                bufPos_ (wire_at this m1) = 0).
  { unfold m1. rewrite !wire_at_update, wire_at_set_hw_at. by fold w. }
  destruct Hw1 as (Hmode1 & Htx1 & Hlen1 & Hpos1).
  unfold available. run_prog. rewrite Hmode1, Htx1, Hlen1, Hpos1.
  rewrite !bool_decide_eq_true_2 by done. cbv iota. run_prog.
  rewrite to_size_t_small by (unfold len, WIRE_BUFFER_LENGTH in *; lia).
  simpl. by rewrite Z.sub_0_r.
Qed.

Lemma requestFrom_then_available_witness :
  ∃ m', (n ← requestFrom (P := rp2040 0 false []) Wire1_ptr 0x17 5 true;
         a ← available Wire1_ptr;
         mret (n, a)) machine_wire1_master
        = ([], inr ((0, 0), m')).
Proof.
  assert (Hcount : 0 ≤ 5) by (vm_compute; discriminate).
  assert (Hres : -1 ≤ Z.min 5 WIRE_BUFFER_LENGTH) by (vm_compute; discriminate).
  exact (requestFrom_then_available (P := rp2040 0 false []) Wire1_ptr 0x17 5 true
           machine_wire1_master eq_refl eq_refl eq_refl Hcount Hres).
Defined.

(** ** Calls in the wrong state *)

(** X9. The assertions on the state of the object are fatal. On an object
    that was never initialised, every data operation fails; while a
    transmission is open, re-initialising, opening another transmission,
    [requestFrom] and the three read operations fail; in slave mode, the
    three master operations fail; and [endTransmission] fails with no
    transmission open. *)
Theorem calls_in_the_wrong_state_fail `{P : Platform} this m :
  let w := wire_at this m in
  (mode_ w = Unassigned → ∀ v d n a s,
     write this v m = ([], inl AssertionFailed) ∧
     write_data this d n m = ([], inl AssertionFailed) ∧
     available this m = ([], inl AssertionFailed) ∧
     peek this m = ([], inl AssertionFailed) ∧
     read this m = ([], inl AssertionFailed) ∧
     beginTransmission this a m = ([], inl AssertionFailed) ∧
     endTransmission this s m = ([], inl AssertionFailed) ∧
     requestFrom this a n s m = ([], inl AssertionFailed)) ∧
  (txAddress_ w ≠ NO_ADDRESS → ∀ a n s,
     begin this m = ([], inl AssertionFailed) ∧
     begin_slave this a m = ([], inl AssertionFailed) ∧
     beginTransmission this a m = ([], inl AssertionFailed) ∧
     requestFrom this a n s m = ([], inl AssertionFailed) ∧
     available this m = ([], inl AssertionFailed) ∧
     peek this m = ([], inl AssertionFailed) ∧
     read this m = ([], inl AssertionFailed)) ∧
  (mode_ w = Slave → ∀ a n s,
     beginTransmission this a m = ([], inl AssertionFailed) ∧
     endTransmission this s m = ([], inl AssertionFailed) ∧
     requestFrom this a n s m = ([], inl AssertionFailed)) ∧
  (txAddress_ w = NO_ADDRESS → ∀ s,
     endTransmission this s m = ([], inl AssertionFailed)).
Proof.
  intros w. split_and!.
  - intros Hmode v d n a s.
    unfold write, write_data, available, peek, read, beginTransmission,
      endTransmission, requestFrom.
    run_prog. fold w. rewrite Hmode. by split_and!.
  - intros Htx a n s.
    unfold begin, begin_slave, available, peek, read, beginTransmission, requestFrom.
    run_prog. fold w. rewrite (bool_decide_eq_false_2 _ Htx).
    split_and!; try done; by case_bool_decide.
  - intros Hmode a n s.
    unfold beginTransmission, endTransmission, requestFrom.
    run_prog. fold w. rewrite Hmode. by split_and!.
  - intros Htx s. unfold endTransmission. run_prog. fold w. rewrite Htx.
    by case_bool_decide.
Qed.

Lemma calls_in_the_wrong_state_fail_witness :
  read Wire1_ptr machine_four_buffered = ([], inl AssertionFailed).
Proof.
  assert (Htx : txAddress_ (wire_at Wire1_ptr machine_four_buffered) ≠ NO_ADDRESS)
    by (vm_compute; discriminate).
  destruct (calls_in_the_wrong_state_fail (P := rp2040 0 true []) Wire1_ptr
              machine_four_buffered) as (_ & Hopen & _).
  destruct (Hopen Htx 0 0 true) as (_ & _ & _ & _ & _ & _ & Hread).
  exact Hread.
Defined.

(** ** Writing in slave mode *)

Section SlaveWrite.
Context `{P : Platform}.

Lemma run_wait_tx_not_full_room inst n m :
  I2C_IC_STATUS_TFNF_BITS ≠ 0 →
  Z.of_nat (length (tx_fifo (bus_progress (hw_at inst m)))) < tx_fifo_depth →
  wait_tx_not_full inst (S n) m = ([], inr (tt, update_hw inst bus_progress m)).
Proof.
  intros Hbit Hroom. simpl. unfold read_status. run_prog.
  replace (hw_at inst (update_hw inst bus_progress m))
    with (bus_progress (hw_at inst m)) by (by destruct inst).
  destruct (Z.ltb_spec (Z.of_nat (length (tx_fifo (bus_progress (hw_at inst m)))))
              tx_fifo_depth); [|lia].
  rewrite Z.land_diag. by destruct (Z.eqb_spec I2C_IC_STATUS_TFNF_BITS 0).
Qed.

Lemma run_wait_tx_not_full_stuck inst n : ∀ m,
  (∀ k, tx_fifo_depth
        ≤ Z.of_nat (length (tx_fifo (Nat.iter (S k) bus_progress (hw_at inst m))))) →
  wait_tx_not_full inst n m = ([], inl Hang).
Proof.
  induction n as [|n IH]; intros m Hfull; [done|].
  simpl. unfold read_status. run_prog.
  replace (hw_at inst (update_hw inst bus_progress m))
    with (bus_progress (hw_at inst m)) by (by destruct inst).
  destruct (Z.ltb_spec (Z.of_nat (length (tx_fifo (bus_progress (hw_at inst m)))))
              tx_fifo_depth); [specialize (Hfull 0%nat); simpl in Hfull; lia|].
  rewrite Z.land_0_l. simpl. apply IH. intros k.
  replace (hw_at inst (update_hw inst bus_progress m))
    with (bus_progress (hw_at inst m)) by (by destruct inst).
  rewrite <- Nat.iter_succ_r. apply Hfull.
Qed.

Lemma run_write_slave_loop inst data n : ∀ i m,
  I2C_IC_STATUS_TFNF_BITS ≠ 0 → (0 < spin_limit)%nat →
  (∀ hw, Z.of_nat (length (tx_fifo hw)) ≤ tx_fifo_depth →
         Z.of_nat (length (tx_fifo (bus_progress hw))) < tx_fifo_depth) →
  Z.of_nat (length (tx_fifo (hw_at inst m))) ≤ tx_fifo_depth →
  (i + n ≤ length data)%nat →
  ∃ m', write_slave_loop inst data i n m = ([], inr (tt, m')) ∧
        Z.of_nat (length (tx_fifo (hw_at inst m'))) ≤ tx_fifo_depth.
Proof.
  induction n as [|n IH]; intros i m Hbit Hspin Hroom Hfifo Hdata; [by eexists|].
  simpl. destruct spin_limit as [|k] eqn:Hk; [lia|].
  unfold mbind, M_bind, bind.
  rewrite run_wait_tx_not_full_room by auto.
  destruct (lookup_lt_is_Some_2 data i) as [v Hv]; [lia|]. rewrite Hv.
  unfold i2c_write_byte at 1. simpl.
  destruct (IH (S i) (update_hw inst (λ h, set_tx_fifo (tx_fifo h ++ [v]) h)
                        (update_hw inst bus_progress m))) as (m' & Hm' & Hfifo');
    try done; [|lia|].
  { replace (hw_at inst (update_hw inst _ (update_hw inst bus_progress m)))
      with (set_tx_fifo (tx_fifo (bus_progress (hw_at inst m)) ++ [v])
              (bus_progress (hw_at inst m))) by (by destruct inst).
    simpl. rewrite length_app. simpl. specialize (Hroom _ Hfifo). lia. }
  rewrite Hm'. by eexists.
Qed.

End SlaveWrite.

(** X10. In slave mode [write(value)] does not use the buffer. When the
    transmit FIFO has room at the first poll, the byte goes to the end of the
    FIFO and the call returns 1; when the FIFO is full at every poll from the
    current state of the hardware on, the call does not return. *)
Theorem write_slave_goes_to_fifo `{P : Platform} this value m :
  let inst := TwoWire_i2c this in
  mode_ (wire_at this m) = Slave →
  I2C_IC_STATUS_TFNF_BITS ≠ 0 → (0 < spin_limit)%nat →
  (Z.of_nat (length (tx_fifo (bus_progress (hw_at inst m)))) < tx_fifo_depth →
     write this value m
     = ([], inr (1, update_hw inst (λ h, set_tx_fifo (tx_fifo h ++ [value]) h)
                      (update_hw inst bus_progress m)))) ∧
  ((∀ k, tx_fifo_depth
         ≤ Z.of_nat (length (tx_fifo (Nat.iter (S k) bus_progress (hw_at inst m))))) →
     write this value m = ([], inl Hang)).
Proof.
  intros inst Hmode Hbit Hspin.
  assert (Hrun : write this value m
                 = (wait_tx_not_full inst spin_limit;;
                    i2c_write_byte inst value;; mret 1) m).
  { unfold write. run_prog. rewrite Hmode. done. }
  rewrite Hrun. split.
  - intros Hroom. destruct spin_limit as [|k]; [lia|].
    unfold mbind, M_bind, bind. by rewrite run_wait_tx_not_full_room.
  - intros Hfull. unfold mbind, M_bind, bind.
    by rewrite run_wait_tx_not_full_stuck.
Qed.

(** A slave with one byte waiting in the transmit FIFO of i2c0, and a slave
    with a full FIFO whose master has stopped clocking. *)
Lemma write_slave_goes_to_fifo_witness :
  (∃ m', write (P := rp2040 0 true []) Wire_ptr 0x99
           (set_i2c0_hw (mk_hw 0 0x664 [] [0x11; 0x22] true 0x17) machine_example_setup)
         = ([], inr (1, m')) ∧
         tx_fifo (i2c0_hw m') = [0x22; 0x99]) ∧
  write (P := rp2040_stuck) Wire_ptr 0x99 machine_tx_full = ([], inl Hang).
Proof.
  assert (Hbit : I2C_IC_STATUS_TFNF_BITS (Platform := rp2040 0 true []) ≠ 0)
    by (vm_compute; discriminate).
  assert (Hspin : (0 < spin_limit (Platform := rp2040 0 true []))%nat)
    by (vm_compute; repeat constructor).
  assert (Hbit' : I2C_IC_STATUS_TFNF_BITS (Platform := rp2040_stuck) ≠ 0)
    by (vm_compute; discriminate).
  assert (Hspin' : (0 < spin_limit (Platform := rp2040_stuck))%nat)
    by (vm_compute; repeat constructor).
  assert (Hfull : ∀ k : nat,
            tx_fifo_depth (Platform := rp2040_stuck)
            ≤ Z.of_nat (length (tx_fifo
                (Nat.iter (S k) (bus_progress (Platform := rp2040_stuck))
                   (hw_at (TwoWire_i2c Wire_ptr) machine_tx_full))))).
  { intros k.
    assert (Hid : ∀ (n : nat) hw,
              Nat.iter n (bus_progress (Platform := rp2040_stuck)) hw = hw)
      by (induction n as [|n IHn]; intros hw; [reflexivity|simpl; apply IHn]).
    rewrite Hid. by vm_compute. }
  destruct (write_slave_goes_to_fifo (P := rp2040 0 true []) Wire_ptr 0x99
              (set_i2c0_hw (mk_hw 0 0x664 [] [0x11; 0x22] true 0x17) machine_example_setup)
              eq_refl Hbit Hspin) as [Hroom _].
  destruct (write_slave_goes_to_fifo (P := rp2040_stuck) Wire_ptr 0x99
              machine_tx_full eq_refl Hbit' Hspin') as [_ Hstuck].
  split; [|exact (Hstuck Hfull)].
  eexists. split; [apply Hroom; by vm_compute|]. reflexivity.
Defined.

(** X11. In slave mode [write(data, size)] is not clamped to the buffer
    capacity: with a FIFO within its depth and a bus that leaves room in it
    at every poll, the call returns [size] itself, and both TwoWire objects
    are as before. *)
Theorem write_data_slave_is_not_clamped `{P : Platform} this (data : list Z) size m :
  let inst := TwoWire_i2c this in
  mode_ (wire_at this m) = Slave →
  I2C_IC_STATUS_TFNF_BITS ≠ 0 → (0 < spin_limit)%nat →
  (∀ hw, Z.of_nat (length (tx_fifo hw)) ≤ tx_fifo_depth →
         Z.of_nat (length (tx_fifo (bus_progress hw))) < tx_fifo_depth) →
  Z.of_nat (length (tx_fifo (hw_at inst m))) ≤ tx_fifo_depth →
  0 ≤ size ≤ Z.of_nat (length data) →
  ∃ m', write_data this data size m = ([], inr (size, m')) ∧
        Wire m' = Wire m ∧ Wire1 m' = Wire1 m.
Proof.
  intros inst Hmode Hbit Hspin Hroom Hfifo Hsize.
  destruct (run_write_slave_loop inst data (Z.to_nat size) 0 m)
    as (m' & Hloop & _); try done; [lia|].
  pose proof (keeps_wires_write_slave_loop inst data (Z.to_nat size) 0%nat m)
    as Hkeeps.
  rewrite Hloop in Hkeeps. simpl in Hkeeps.
  exists m'. split; [|done].
  unfold write_data. run_prog. rewrite Hmode. simpl.
  unfold mbind, M_bind, bind. fold inst. by rewrite Hloop.
Qed.

Lemma write_data_slave_is_not_clamped_witness :
  ∃ m', write_data (P := rp2040 0 true []) Wire_ptr (replicate 40 0x55) 40
          machine_example_setup = ([], inr (40, m')) ∧
        Wire m' = Wire machine_example_setup.
Proof.
  assert (Hbit : I2C_IC_STATUS_TFNF_BITS (Platform := rp2040 0 true []) ≠ 0)
    by (vm_compute; discriminate).
  assert (Hspin : (0 < spin_limit (Platform := rp2040 0 true []))%nat)
    by (vm_compute; repeat constructor).
  assert (Hroom : ∀ hw, Z.of_nat (length (tx_fifo hw)) ≤ 16 →
            Z.of_nat (length (tx_fifo
              (bus_progress (Platform := rp2040 0 true []) hw))) < 16).
  { intros hw Hle. simpl. destruct (tx_fifo hw); simpl in *; lia. }
  assert (Hfifo : Z.of_nat (length (tx_fifo (hw_at i2c0 machine_example_setup))) ≤ 16)
    by (vm_compute; discriminate).
  assert (Hsize : 0 ≤ 40 ≤ Z.of_nat (length (replicate 40 0x55)))
    by (vm_compute; split; discriminate).
  destruct (write_data_slave_is_not_clamped (P := rp2040 0 true []) Wire_ptr
              (replicate 40 0x55) 40 machine_example_setup
              eq_refl Hbit Hspin Hroom Hfifo Hsize)
    as (m' & Hrun & Hwire & _).
  exists m'. split; [exact Hrun|exact Hwire].
Defined.

(** ** The Receive event in the facade *)

Lemma update_hw_update_wire inst f wire g m :
  update_hw inst f (update_wire wire g m) = update_wire wire g (update_hw inst f m).
Proof. by destruct inst, wire. Qed.

Lemma update_hw_compose inst f g m :
  update_hw inst f (update_hw inst g m) = update_hw inst (λ h, f (g h)) m.
Proof. by destruct inst. Qed.

Lemma hw_at_update_hw inst f m : hw_at inst (update_hw inst f m) = f (hw_at inst m).
Proof. by destruct inst. Qed.

Lemma wire_at_update_hw wire inst f m :
  wire_at wire (update_hw inst f m) = wire_at wire m.
Proof. by destruct wire, inst. Qed.

Lemma hw_at_update_wire inst wire f m :
  hw_at inst (update_wire wire f m) = hw_at inst m.
Proof. by destruct wire, inst. Qed.

Lemma update_hw_same inst f m :
  f (hw_at inst m) = hw_at inst m → update_hw inst f m = m.
Proof. unfold update_hw. intros ->. by destruct m, inst. Qed.

Lemma run_receive_loop inst wire : ∀ (fifo : list Z) m,
  let w := wire_at wire m in
  rx_fifo (hw_at inst m) = fifo →
  0 ≤ bufLen_ w ≤ WIRE_BUFFER_LENGTH →
  length (buf_ w) = Z.to_nat WIRE_BUFFER_LENGTH →
  receive_loop inst wire (length fifo) m
  = ([], inr (tt,
       update_wire wire
         (appended (take (Z.to_nat (WIRE_BUFFER_LENGTH - bufLen_ w)) (to_uint8 <$> fifo)))
         (update_hw inst (set_rx_fifo []) m))).
Proof.
  induction fifo as [|b rest IH]; intros m w Hfifo HL Hbuf.
  - simpl. rewrite run_ret, take_nil.
    rewrite update_wire_same
      by (rewrite wire_at_update_hw; apply appended_nil; fold w; lia).
    rewrite update_hw_same; [done|].
    destruct (hw_at inst m); simpl in *; by subst.
  - cbn [receive_loop length]. unfold i2c_read_byte. run_prog.
    rewrite Hfifo. run_prog. rewrite wire_at_update_hw. fold w.
    unfold WIRE_BUFFER_LENGTH in *.
    destruct (Z.ltb_spec (bufLen_ w) 32) as [Hroom|Hfull].
    + unfold mbind, M_bind, bind.
      rewrite run_buf_push by (rewrite wire_at_update_hw; fold w; lia).
      set (m1 := update_wire wire (pushed (to_uint8 b))
                   (update_hw inst (set_rx_fifo rest) m)).
      assert (Hw1 : wire_at wire m1 = pushed (to_uint8 b) w)
        by (unfold m1; by rewrite wire_at_update, wire_at_update_hw).
      assert (HL1 : bufLen_ (wire_at wire m1) = bufLen_ w + 1)
        by (rewrite Hw1; simpl; apply to_uint8_small; lia).
      rewrite IH; rewrite ?HL1; try lia.
      * unfold m1.
        rewrite update_hw_update_wire, update_hw_compose, update_wire_compose.
        do 3 f_equal. apply update_wire_ext. rewrite wire_at_update_hw. fold w.
        replace (Z.to_nat (32 - bufLen_ w)) with (S (Z.to_nat (32 - (bufLen_ w + 1))))
          by lia.
        rewrite fmap_cons. cbn [take].
        apply appended_cons; rewrite ?length_take, ?length_fmap; lia.
      * unfold m1. by rewrite hw_at_update_wire, hw_at_update_hw.
      * rewrite Hw1. simpl. by rewrite length_insert.
    + unfold mbind, M_bind, bind. rewrite run_ret. cbv iota beta.
      rewrite IH; rewrite ?wire_at_update_hw, ?hw_at_update_hw; fold w;
        try done; try lia.
      rewrite update_hw_compose.
      replace (Z.to_nat (32 - bufLen_ w)) with 0%nat by lia.
      by rewrite !take_0.
Qed.

Lemma run_handleEvent_receive `{P : Platform} inst m :
  let wire := wire_of inst in
  let w := wire_at wire m in
  mode_ w = Slave → bufPos_ w = 0 →
  0 ≤ bufLen_ w ≤ WIRE_BUFFER_LENGTH →
  length (buf_ w) = Z.to_nat WIRE_BUFFER_LENGTH →
  handleEvent (Some inst) I2C_SLAVE_RECEIVE m
  = ([], inr (tt,
       update_wire wire
         (appended (take (Z.to_nat (WIRE_BUFFER_LENGTH - bufLen_ w))
                      (to_uint8 <$> rx_fifo (hw_at inst m))))
         (update_hw inst (set_rx_fifo []) m))).
Proof.
  intros wire w Hmode Hpos HL Hbuf.
  unfold handleEvent, i2c_hw_index, i2c_get_hw, i2c_get_read_available.
  rewrite run_bind_ret.
  replace (if hw_index inst =? 0 then Wire_ptr else Wire1_ptr) with wire
    by (by destruct inst).
  run_prog. fold w. rewrite Hmode, Hpos.
  rewrite !bool_decide_eq_true_2 by done. cbv iota. run_prog.
  rewrite Nat2Z.id. by apply run_receive_loop.
Qed.

(** X12. In slave mode the Receive event empties the receive FIFO into the
    buffer: the bytes are appended after the ones already buffered, in
    order, as long as there is room, and the others are taken from the FIFO
    and dropped. Nothing is called and nothing fails. *)
Theorem handleEvent_receive_drains_fifo `{P : Platform} inst m :
  let wire := wire_of inst in
  let w := wire_at wire m in
  let fifo := rx_fifo (hw_at inst m) in
  let room := Z.to_nat (WIRE_BUFFER_LENGTH - bufLen_ w) in
  mode_ w = Slave → bufPos_ w = 0 →
  0 ≤ bufLen_ w ≤ WIRE_BUFFER_LENGTH →
  length (buf_ w) = Z.to_nat WIRE_BUFFER_LENGTH →
  ∃ m', handleEvent (Some inst) I2C_SLAVE_RECEIVE m = ([], inr (tt, m')) ∧
        m' = update_wire wire (appended (take room (to_uint8 <$> fifo)))
               (update_hw inst (set_rx_fifo []) m) ∧
        rx_fifo (hw_at inst m') = [] ∧
        bufLen_ (wire_at wire m')
          = Z.min (bufLen_ w + Z.of_nat (length fifo)) WIRE_BUFFER_LENGTH ∧
        take (Z.to_nat (bufLen_ (wire_at wire m'))) (buf_ (wire_at wire m'))
          = take (Z.to_nat (bufLen_ w)) (buf_ w) ++ take room (to_uint8 <$> fifo).
Proof.
  intros wire w fifo room Hmode Hpos HL Hbuf.
  eexists. split; [|split; [reflexivity|]].
  - by apply run_handleEvent_receive.
  - rewrite hw_at_update_wire, hw_at_update_hw, wire_at_update, wire_at_update_hw.
    fold w. unfold appended. simpl.
    assert (Hn : length (take room (to_uint8 <$> fifo))
                 = Nat.min room (length fifo))
      by (by rewrite length_take, length_fmap).
    rewrite Hn. unfold room, WIRE_BUFFER_LENGTH in *.
    split_and!; [done|lia|].
    rewrite app_assoc, take_app_length'; [done|].
    rewrite length_app, Hn, length_take. lia.
Qed.

(** 40 bytes wait in the FIFO of i2c0 and the buffer of [Wire] is empty. *)
Lemma handleEvent_receive_drains_fifo_witness :
  ∃ m', handleEvent (P := rp2040 0 true []) (Some i2c0) I2C_SLAVE_RECEIVE
          (set_i2c0_hw (mk_hw 0 0x664 (replicate 40 0x41) [] true 0x17)
             machine_example_setup)
        = ([], inr (tt, m')) ∧
        rx_fifo (i2c0_hw m') = [] ∧ bufLen_ (Wire m') = 32.
Proof.
  assert (HL : 0 ≤ 0 ≤ WIRE_BUFFER_LENGTH) by (vm_compute; split; discriminate).
  destruct (handleEvent_receive_drains_fifo (P := rp2040 0 true []) i2c0
              (set_i2c0_hw (mk_hw 0 0x664 (replicate 40 0x41) [] true 0x17)
                 machine_example_setup) eq_refl eq_refl HL eq_refl)
    as (m' & Hrun & _ & Hfifo & Hlen & _).
  exists m'. split; [exact Hrun|]. split; [exact Hfifo|exact Hlen].
Defined.

(** X13. Registering a receive handler and then taking a Receive and a
    Finish event, from an empty slave buffer: the handler is called once,
    with the number of bytes that were in the FIFO or the capacity if that
    is smaller, and is not called at all when the FIFO was empty. *)
Theorem receive_then_finish_reports_count `{P : Platform} inst m h :
  let wire := wire_of inst in
  let w := wire_at wire m in
  let fifo := rx_fifo (hw_at inst m) in
  mode_ w = Slave → bufPos_ w = 0 → bufLen_ w = 0 →
  length (buf_ w) = Z.to_nat WIRE_BUFFER_LENGTH →
  trace_of ((onReceive wire (Some h);;
             handleEvent (Some inst) I2C_SLAVE_RECEIVE;;
             handleEvent (Some inst) I2C_SLAVE_FINISH) m)
  = if bool_decide (fifo = []) then []
    else [CallReceiveHandler h (Z.min (Z.of_nat (length fifo)) WIRE_BUFFER_LENGTH)].
Proof.
  intros wire w fifo Hmode Hpos Hlen Hbuf.
  unfold onReceive. rewrite run_bind_modify.
  set (m0 := update_wire wire (set_receiveHandler_ (Some h)) m).
  assert (Hw0 : wire_at wire m0 = set_receiveHandler_ (Some h) w)
    by (unfold m0; by rewrite wire_at_update).
  assert (Hfifo0 : rx_fifo (hw_at inst m0) = fifo)
    by (unfold m0; by rewrite hw_at_update_wire).
  assert (HL0 : 0 ≤ bufLen_ (wire_at (wire_of inst) m0) ≤ WIRE_BUFFER_LENGTH)
    by (fold wire; rewrite Hw0; simpl; rewrite Hlen; done).
  pose proof (run_handleEvent_receive inst m0) as Hrecv. cbv zeta in Hrecv.
  fold wire in Hrecv. rewrite Hw0, Hfifo0 in Hrecv. simpl in Hrecv.
  rewrite Hlen in Hrecv. specialize (Hrecv Hmode Hpos).
  unfold WIRE_BUFFER_LENGTH in *.
  set (bytes := take (Z.to_nat (32 - 0)) (to_uint8 <$> fifo)) in Hrecv.
  set (m1 := update_wire wire (appended bytes) _) in Hrecv.
  assert (Hrecv' : handleEvent (Some inst) I2C_SLAVE_RECEIVE m0 = ([], inr (tt, m1)))
    by (apply Hrecv; [lia|done]).
  assert (Hw1 : wire_at wire m1 = appended bytes (set_receiveHandler_ (Some h) w))
    by (unfold m1; by rewrite wire_at_update, wire_at_update_hw, Hw0).
  assert (Hbytes : Z.of_nat (length bytes) = Z.min (Z.of_nat (length fifo)) 32)
    by (unfold bytes; rewrite length_take, length_fmap; lia).
  rewrite trace_bind, Hrecv'. simpl.
  rewrite run_handleEvent_finish; fold wire; rewrite ?Hw1; simpl;
    rewrite ?Hlen, ?Hbytes; try done.
  rewrite !Z.add_0_l.
  destruct fifo as [|b rest]; [done|].
  rewrite bool_decide_eq_false_2 by done.
  destruct (Z.ltb_spec 0 (Z.min (Z.of_nat (length (b :: rest))) 32));
    [done|simpl in *; lia].
Qed.

(** 40 bytes wait in the FIFO of i2c0: the handler at address 1 is told of
    32. *)
Lemma receive_then_finish_reports_count_witness :
  trace_of ((onReceive Wire_ptr (Some 1%N);;
             handleEvent (P := rp2040 0 true []) (Some i2c0) I2C_SLAVE_RECEIVE;;
             handleEvent (P := rp2040 0 true []) (Some i2c0) I2C_SLAVE_FINISH)
            (set_i2c0_hw (mk_hw 0 0x664 (replicate 40 0x41) [] true 0x17)
               machine_example_setup))
  = [CallReceiveHandler 1%N 32].
Proof.
  exact (receive_then_finish_reports_count (P := rp2040 0 true []) i2c0
           (set_i2c0_hw (mk_hw 0 0x664 (replicate 40 0x41) [] true 0x17)
              machine_example_setup) 1%N eq_refl eq_refl eq_refl eq_refl).
Defined.

(** ** Receive and Request in one pass *)

Lemma slave_at_update_slave sl f m :
  slave_at sl (update_slave sl f m) = f (slave_at sl m).
Proof. by destruct sl. Qed.

Lemma slave_at_update_wire sl wire f m :
  slave_at sl (update_wire wire f m) = slave_at sl m.
Proof. by destruct sl, wire. Qed.

Lemma slave_at_update_hw sl inst f m :
  slave_at sl (update_hw inst f m) = slave_at sl m.
Proof. by destruct sl, inst. Qed.

Lemma wire_at_update_slave wire sl f m :
  wire_at wire (update_slave sl f m) = wire_at wire m.
Proof. by destruct sl, wire. Qed.

Lemma hw_at_update_slave inst sl f m :
  hw_at inst (update_slave sl f m) = hw_at inst m.
Proof. by destruct sl, inst. Qed.

Lemma run_call_handleEvent `{P : Platform} p ev m :
  call_handler (Some TwoWire_handleEvent) p ev m
  = (CallSlaveHandler TwoWire_handleEvent p ev :: trace_of (handleEvent p ev m),
     result_of (handleEvent p ev m)).
Proof. unfold call_handler. by rewrite run_bind_log. Qed.

(** The Request event with bytes in the slave buffer. *)
Lemma run_handleEvent_request_nonempty `{P : Platform} inst m :
  let w := wire_at (wire_of inst) m in
  mode_ w = Slave → bufPos_ w = 0 → bufLen_ w ≠ 0 →
  handleEvent (Some inst) I2C_SLAVE_REQUEST m = ([], inl AssertionFailed).
Proof.
  intros w Hmode Hpos Hlen. unfold handleEvent, i2c_hw_index.
  rewrite run_bind_ret.
  replace (if hw_index inst =? 0 then Wire_ptr else Wire1_ptr) with (wire_of inst)
    by (by destruct inst).
  run_prog. fold w. rewrite Hmode, Hpos.
  rewrite !bool_decide_eq_true_2 by done. cbv iota.
  by rewrite bool_decide_eq_false_2.
Qed.

(** X14. When one pass finds receive-full and read-request asserted together
    (and none of abort, start and stop), the context bound to the facade's
    handler, the facade's object in slave mode with room in its buffer, and
    a byte waiting in the receive FIFO, the pass ends in a failed assertion
    of the facade and no user handler is called. With the read cursor at 0
    the Receive event buffers the bytes and the Request event that follows
    fails the assertion that the buffer is empty; with the cursor away from
    0 the Receive event itself fails the assertion on the cursor and no
    Request event is raised. *)
Theorem irq_receive_and_request_in_one_pass `{P : Platform} inst m t :
  let sl := current_slave m in
  let s := masked_status inst m in
  let w := wire_at (wire_of inst) m in
  slave_at sl m = mk_slave (Some inst) (Some TwoWire_handleEvent) t →
  asserted s I2C_IC_INTR_STAT_R_TX_ABRT_BITS = false →
  asserted s I2C_IC_INTR_STAT_R_START_DET_BITS = false →
  asserted s I2C_IC_INTR_STAT_R_STOP_DET_BITS = false →
  asserted s I2C_IC_INTR_STAT_R_RX_FULL_BITS = true →
  asserted s I2C_IC_INTR_STAT_R_RD_REQ_BITS = true →
  mode_ w = Slave →
  0 ≤ bufLen_ w < WIRE_BUFFER_LENGTH →
  length (buf_ w) = Z.to_nat WIRE_BUFFER_LENGTH →
  rx_fifo (hw_at inst m) ≠ [] →
  i2c_slave_irq_handler m
  = (CallSlaveHandler TwoWire_handleEvent (Some inst) I2C_SLAVE_RECEIVE ::
       (if bool_decide (bufPos_ w = 0)
        then [CallSlaveHandler TwoWire_handleEvent (Some inst) I2C_SLAVE_REQUEST]
        else []),
     inl AssertionFailed).
Proof.
  intros sl s w Hslave Habrt Hstart Hstop Hrx Hrd Hmode HL Hbuf Hfifo.
  unfold i2c_slave_irq_handler, this_core_slave, read_intr_stat.
  rewrite run_bind_gets. fold (current_slave m). fold sl.
  rewrite run_bind_gets, Hslave. unfold i2c_get_hw. cbn [i2c]. cbv iota.
  rewrite run_bind_ret, run_bind_gets. fold (masked_status inst m). fold s.
  destruct (Z.eqb_spec s 0) as [Hzero|_].
  { unfold asserted in Hrx. rewrite Hzero, Z.land_0_l in Hrx. done. }
  fold (asserted s I2C_IC_INTR_STAT_R_TX_ABRT_BITS).
  fold (asserted s I2C_IC_INTR_STAT_R_START_DET_BITS).
  fold (asserted s I2C_IC_INTR_STAT_R_STOP_DET_BITS).
  fold (asserted s I2C_IC_INTR_STAT_R_RX_FULL_BITS).
  fold (asserted s I2C_IC_INTR_STAT_R_RD_REQ_BITS).
  rewrite Habrt, Hstart, Hstop, Hrx, Hrd.
  run_prog. rewrite slave_at_update_slave, Hslave. cbn [handler set_transfer_in_progress].
  set (m1 := update_slave sl (set_transfer_in_progress true) m).
  assert (Hw1 : wire_at (wire_of inst) m1 = w)
    by (unfold m1; by rewrite wire_at_update_slave).
  destruct (decide (bufPos_ w = 0)) as [Hpos|Hpos]; cycle 1.
  { rewrite bool_decide_eq_false_2 by done.
    assert (Hfail : handleEvent (Some inst) I2C_SLAVE_RECEIVE m1
                    = ([], inl AssertionFailed))
      by (apply run_handleEvent_cursor_nonzero; by rewrite Hw1).
    unfold mbind, M_bind, bind. by rewrite run_call_handleEvent, Hfail. }
  rewrite bool_decide_eq_true_2 by done.
  pose proof (run_handleEvent_receive inst m1) as Hrecv. cbv zeta in Hrecv.
  rewrite Hw1 in Hrecv. specialize (Hrecv Hmode Hpos).
  unfold m1 in Hrecv at 2. rewrite hw_at_update_slave in Hrecv.
  set (bytes := take _ (to_uint8 <$> rx_fifo (hw_at inst m))) in Hrecv.
  set (m2 := update_wire (wire_of inst) (appended bytes) _) in Hrecv.
  assert (Hrecv' : handleEvent (Some inst) I2C_SLAVE_RECEIVE m1 = ([], inr (tt, m2)))
    by (apply Hrecv; [lia|done]).
  assert (Hbytes : (0 < length bytes)%nat).
  { unfold bytes. rewrite length_take, length_fmap.
    destruct (rx_fifo (hw_at inst m)); [done|].
    unfold WIRE_BUFFER_LENGTH in *. simpl. lia. }
  set (m3 := update_slave sl (set_transfer_in_progress true) m2).
  assert (Hw3 : wire_at (wire_of inst) m3 = appended bytes w).
  { unfold m3, m2. by rewrite wire_at_update_slave, wire_at_update,
      wire_at_update_hw, Hw1. }
  assert (Hh3 : handler (slave_at sl m3) = Some TwoWire_handleEvent).
  { unfold m3, m2, m1.
    by rewrite slave_at_update_slave, slave_at_update_wire, slave_at_update_hw,
      slave_at_update_slave, Hslave. }
  assert (Hreq : handleEvent (Some inst) I2C_SLAVE_REQUEST m3
                 = ([], inl AssertionFailed)).
  { apply run_handleEvent_request_nonempty; rewrite Hw3; simpl; try done. lia. }
  unfold mbind, M_bind, bind.
  rewrite run_call_handleEvent, Hrecv'. simpl. fold m3.
  rewrite Hh3. rewrite run_call_handleEvent, Hreq. done.
Qed.

(** The example's slave with a byte in the FIFO and both conditions raised,
    with an empty buffer, and with four bytes buffered of which the main
    program has read one. *)
Lemma irq_receive_and_request_in_one_pass_witness :
  i2c_slave_irq_handler (P := rp2040 0 true [])
    (set_i2c0_hw (mk_hw 0x24 0x664 [0x05] [] true 0x17) machine_example_setup)
  = ([CallSlaveHandler TwoWire_handleEvent (Some i2c0) I2C_SLAVE_RECEIVE;
      CallSlaveHandler TwoWire_handleEvent (Some i2c0) I2C_SLAVE_REQUEST],
     inl AssertionFailed) ∧
  i2c_slave_irq_handler (P := rp2040 0 true [])
    (set_i2c0_hw (mk_hw 0x24 0x664 [0x05] [] true 0x17)
       (update_wire Wire_ptr (set_bufPos_ 1) (machine_four_received None)))
  = ([CallSlaveHandler TwoWire_handleEvent (Some i2c0) I2C_SLAVE_RECEIVE],
     inl AssertionFailed).
Proof.
  assert (HL : 0 ≤ 0 < WIRE_BUFFER_LENGTH) by (vm_compute; split; congruence).
  assert (HL4 : 0 ≤ 4 < WIRE_BUFFER_LENGTH) by (vm_compute; split; congruence).
  assert (Hfifo : [0x05] ≠ @nil Z) by discriminate.
  split.
  - exact (irq_receive_and_request_in_one_pass (P := rp2040 0 true []) i2c0
             (set_i2c0_hw (mk_hw 0x24 0x664 [0x05] [] true 0x17) machine_example_setup)
             false eq_refl eq_refl eq_refl eq_refl eq_refl eq_refl eq_refl
             HL eq_refl Hfifo).
  - exact (irq_receive_and_request_in_one_pass (P := rp2040 0 true []) i2c0
             (set_i2c0_hw (mk_hw 0x24 0x664 [0x05] [] true 0x17)
                (update_wire Wire_ptr (set_bufPos_ 1) (machine_four_received None)))
             true eq_refl eq_refl eq_refl eq_refl eq_refl eq_refl eq_refl
             HL4 eq_refl Hfifo).
Defined.

(** ** Switching a port between slave and master *)

(** X15. On a port that was never initialised, [begin(address)] makes it a
    slave with an empty buffer and binds this core's context to the port's
    instance with the facade's own handler, the instance listening at the
    address; a [begin()] after that unbinds the context again, takes the
    instance out of slave mode and its line out of service, and leaves the
    port a master with an empty buffer. *)
Theorem begin_slave_then_begin `{P : Platform} this address m :
  let inst := TwoWire_i2c this in
  let sl := current_slave m in
  let w := wire_at this m in
  mode_ w = Unassigned → txAddress_ w = NO_ADDRESS →
  ∃ m1 m2,
    begin_slave this address m = ([], inr (tt, m1)) ∧
    wire_at this m1 = set_bufPos_ 0 (set_bufLen_ 0 (set_mode_ Slave w)) ∧
    slave_at sl m1
      = mk_slave (Some inst) (Some TwoWire_handleEvent)
          (transfer_in_progress (slave_at sl m)) ∧
    slave_mode (hw_at inst m1) = true ∧
    slave_address (hw_at inst m1) = address ∧
    irq_line_of inst m1 = mk_irq (Some i2c_slave_irq_handler_fn) true ∧
    begin this m1 = ([], inr (tt, m2)) ∧
    wire_at this m2 = set_bufPos_ 0 (set_bufLen_ 0 (set_mode_ Master w)) ∧
    slave_at sl m2 = slave_unbound ∧
    slave_mode (hw_at inst m2) = false ∧
    irq_line_of inst m2 = mk_irq None false.
Proof.
  intros inst sl w Hmode Htx.
  set (m0 := update_wire this (set_bufPos_ 0)
               (update_wire this (set_bufLen_ 0)
                  (update_wire this (set_mode_ Slave) m))).
  assert (Hcur0 : current_slave m0 = sl) by (unfold m0; by destruct this).
  pose proof (run_i2c_slave_init m0 inst address TwoWire_handleEvent) as Hinit.
  cbv zeta in Hinit. rewrite Hcur0 in Hinit.
  set (m1 := update_irq _ _ _) in Hinit.
  assert (Hrun1 : begin_slave this address m = ([], inr (tt, m1))).
  { unfold begin_slave. run_prog. fold w. rewrite Hmode, Htx. simpl.
    run_prog. fold m0. exact Hinit. }
  assert (Hw1 : wire_at this m1 = set_bufPos_ 0 (set_bufLen_ 0 (set_mode_ Slave w))).
  { unfold m1, m0, w. by destruct this, sl, inst. }
  assert (Hs1 : slave_at sl m1
                = mk_slave (Some inst) (Some TwoWire_handleEvent)
                    (transfer_in_progress (slave_at sl m))).
  { unfold m1, m0. by destruct this, sl. }
  assert (Hcur1 : current_slave m1 = sl).
  { unfold m1, m0, sl, current_slave.
    destruct (core_num m =? 0) eqn:Hc, this; simpl; by rewrite Hc. }
  assert (Hbound : i2c (slave_at (current_slave m1) m1) = Some inst)
    by (by rewrite Hcur1, Hs1).
  pose proof (run_i2c_slave_deinit m1 inst Hbound) as Hdeinit.
  cbv zeta in Hdeinit. rewrite Hcur1 in Hdeinit.
  set (m1' := update_hw inst (set_slave_mode false 0) _) in Hdeinit.
  assert (Hrun2 : begin this m1
                  = ([], inr (tt, update_wire this (set_bufPos_ 0)
                                    (update_wire this (set_bufLen_ 0)
                                       (update_wire this (set_mode_ Master) m1'))))).
  { unfold begin. run_prog. rewrite Hw1. simpl.
    rewrite Htx. simpl.
    unfold mbind at 1. unfold M_bind, bind. rewrite Hdeinit. by run_prog. }
  exists m1. eexists. split; [exact Hrun1|]. split; [exact Hw1|].
  split; [exact Hs1|]. split_and!.
  - unfold m1, m0. by destruct this, sl.
  - unfold m1, m0. by destruct this, sl.
  - unfold m1. rewrite !irq_line_of_update_irq. done.
  - exact Hrun2.
  - rewrite !update_wire_compose, wire_at_update.
    replace (wire_at this m1') with (wire_at this m1)
      by (unfold m1'; by destruct this, sl).
    rewrite Hw1. done.
  - unfold m1', m1, m0. by destruct this, sl.
  - unfold m1', m1, m0. by destruct this, sl.
  - replace (irq_line_of inst _) with (irq_line_of inst m1')
      by (by destruct this).
    unfold m1'. rewrite !irq_line_of_update_hw, !irq_line_of_update_irq. done.
Qed.

Lemma begin_slave_then_begin_witness :
  ∃ m1 m2,
    begin_slave (P := rp2040 0 true []) Wire_ptr 0x17 machine_reset = ([], inr (tt, m1)) ∧
    i2c_core0_slave m1 = mk_slave (Some i2c0) (Some TwoWire_handleEvent) false ∧
    begin (P := rp2040 0 true []) Wire_ptr m1 = ([], inr (tt, m2)) ∧
    i2c_core0_slave m2 = slave_unbound ∧
    mode_ (Wire m2) = Master.
Proof.
  destruct (begin_slave_then_begin (P := rp2040 0 true []) Wire_ptr 0x17
              machine_reset eq_refl eq_refl)
    as (m1 & m2 & Hrun1 & _ & Hs1 & _ & _ & _ & Hrun2 & Hw2 & Hs2 & _).
  exists m1, m2. split; [exact Hrun1|]. split; [exact Hs1|].
  split; [exact Hrun2|]. split; [exact Hs2|].
  exact (f_equal mode_ Hw2).
Defined.

(** ** The handlers of the memory example *)

Lemma run_bind_known {A B} (x : M A) (k : A → M B) m a m1 :
  x m = ([], inr (a, m1)) → (x ≫= k) m = k a m1.
Proof.
  intros Hx. unfold mbind, M_bind, bind. rewrite Hx. by destruct (k a m1).
Qed.

Lemma run_available this m :
  let w := wire_at this m in
  mode_ w ≠ Unassigned → txAddress_ w = NO_ADDRESS →
  0 ≤ bufPos_ w ≤ bufLen_ w → bufLen_ w ≤ 255 →
  available this m = ([], inr (bufLen_ w - bufPos_ w, m)).
Proof.
  intros w Hmode Htx Hpos Hcap. unfold available. run_prog. fold w.
  rewrite !bool_decide_eq_true_2 by done. cbv iota. run_prog.
  by rewrite to_size_t_small by lia.
Qed.

Lemma run_slave_on_receive_loop : ∀ (k : nat) rounds ctx m,
  let w := wire_at Wire_ptr m in
  mode_ w ≠ Unassigned → txAddress_ w = NO_ADDRESS →
  0 ≤ bufPos_ w → bufPos_ w + Z.of_nat k = bufLen_ w →
  bufLen_ w ≤ Z.of_nat (length (buf_ w)) → bufLen_ w ≤ 255 →
  length (mem ctx) = 256%nat → 0 ≤ mem_address ctx < 256 →
  (k < rounds)%nat →
  slave_on_receive_loop rounds ctx m
  = ([], inr (stored (take k (drop (Z.to_nat (bufPos_ w)) (buf_ w))) ctx,
              update_wire Wire_ptr (set_bufPos_ (bufLen_ w)) m)).
Proof.
  induction k as [|k IH]; intros rounds ctx m w Hmode Htx Hlo Hhi Hlen Hcap Hmem Ha Hk;
    (destruct rounds as [|rounds]; [lia|]); cbn [slave_on_receive_loop];
    (assert (Hav : available Wire_ptr m = ([], inr (bufLen_ w - bufPos_ w, m)))
       by (apply run_available; fold w; done || lia));
    rewrite (run_bind_known _ _ _ _ _ Hav).
  - destruct (Z.eqb_spec (bufLen_ w - bufPos_ w) 0); [|lia].
    rewrite run_ret, take_0. cbn [stored foldl].
    rewrite update_wire_same; [done|]. fold w.
    replace (bufLen_ w) with (bufPos_ w) by lia. by destruct w.
  - destruct (Z.eqb_spec (bufLen_ w - bufPos_ w) 0); [lia|].
    destruct (run_read_data Wire_ptr m) as (b & Hb & Hread); try done; [fold w; lia|].
    fold w in Hb, Hread. rewrite (run_bind_known _ _ _ _ _ Hread).
    rewrite bool_decide_eq_true_2 by lia.
    set (m1 := update_wire Wire_ptr (set_bufPos_ (bufPos_ w + 1)) m).
    assert (Hw1 : wire_at Wire_ptr m1 = set_bufPos_ (bufPos_ w + 1) w) by done.
    rewrite IH; rewrite ?Hw1; cbn [mode_ txAddress_ buf_ bufLen_ bufPos_ set_bufPos_
      mem mem_address]; rewrite ?length_insert; try done; try lia.
    + unfold m1. rewrite update_wire_compose. do 3 f_equal.
      rewrite (drop_S _ _ _ Hb). cbn [take stored foldl].
      by replace (Z.to_nat (bufPos_ w + 1)) with (S (Z.to_nat (bufPos_ w))) by lia.
    + unfold to_uint8. apply Z.mod_pos_bound. lia.
Qed.

(** What [stored] leaves in the memory: the cell at distance [d] after the
    start address holds byte [d] of the data, the address has moved on by
    the length of the data, both modulo 256, and the other cells are as
    before. *)
Lemma stored_cells : ∀ (data : list Z) ctx,
  length (mem ctx) = 256%nat → 0 ≤ mem_address ctx < 256 →
  (length data ≤ 256)%nat →
  length (mem (stored data ctx)) = 256%nat ∧
  mem_address (stored data ctx) = (mem_address ctx + Z.of_nat (length data)) mod 256 ∧
  ∀ j, 0 ≤ j < 256 →
    mem (stored data ctx) !! Z.to_nat j
    = if (j - mem_address ctx) mod 256 <? Z.of_nat (length data)
      then to_uint8 <$> data !! Z.to_nat ((j - mem_address ctx) mod 256)
      else mem ctx !! Z.to_nat j.
Proof.
  induction data as [|b data IH]; intros ctx Hmem Ha Hlen.
  - cbn [stored foldl length]. change (Z.of_nat 0) with 0.
    split; [done|]. split; [by rewrite Z.add_0_r, Z.mod_small|].
    intros j Hj.
    destruct (Z.ltb_spec ((j - mem_address ctx) mod 256) 0); [|done].
    pose proof (Z.mod_pos_bound (j - mem_address ctx) 256). lia.
  - cbn [stored foldl].
    set (a := mem_address ctx) in *.
    set (ctx1 := mk_context (<[Z.to_nat a := to_uint8 b]> (mem ctx)) (to_uint8 (a + 1))).
    assert (Ha1 : 0 ≤ to_uint8 (a + 1) < 256)
      by (unfold to_uint8; apply Z.mod_pos_bound; lia).
    destruct (IH ctx1) as (Hmem' & Haddr' & Hcells');
      [by unfold ctx1; cbn [mem]; rewrite length_insert
      |done|cbn [length] in Hlen; lia|].
    fold (stored data ctx1). split; [done|]. split.
    + rewrite Haddr'. simpl. unfold to_uint8.
      rewrite Zplus_mod_idemp_l. f_equal. lia.
    + intros j Hj. rewrite (Hcells' j Hj). simpl mem_address. simpl mem.
      simpl length in *.
      assert (Hshift : (j - to_uint8 (a + 1)) mod 256
                       = (if (j - a) mod 256 =? 0 then 255 else (j - a) mod 256 - 1)).
      { unfold to_uint8.
        destruct (Z.eqb_spec ((j - a) mod 256) 0) as [Hz|Hnz];
          pose proof (Z.mod_pos_bound (j - a) 256);
          revert Hz || revert Hnz;
          rewrite Zminus_mod_idemp_r;
          replace (j - (a + 1)) with ((j - a) - 1) by lia;
          generalize (j - a); intros d; intros;
          Z.div_mod_to_equations; lia. }
      rewrite Hshift.
      destruct (Z.eqb_spec ((j - a) mod 256) 0) as [Hz|Hnz].
      * assert (j = a) by (revert Hz; Z.div_mod_to_equations; lia). subst j.
        rewrite Hz. simpl.
        destruct (Z.ltb_spec 255 (Z.of_nat (length data))); [lia|].
        destruct (Z.ltb_spec 0 (Z.pos (Pos.of_succ_nat (length data)))); [|lia].
        apply list_lookup_insert_eq. lia.
      * pose proof (Z.mod_pos_bound (j - a) 256).
        assert (Hne : Z.to_nat a ≠ Z.to_nat j).
        { intros Heq. apply Hnz. replace j with a by lia.
          by rewrite Z.sub_diag. }
        destruct (Z.ltb_spec ((j - a) mod 256 - 1) (Z.of_nat (length data)));
          destruct (Z.ltb_spec ((j - a) mod 256) (Z.of_nat (S (length data))));
          try lia.
        -- replace (Z.to_nat ((j - a) mod 256)) with (S (Z.to_nat ((j - a) mod 256 - 1)))
             by lia.
           done.
        -- by apply list_lookup_insert_ne.
Qed.

Lemma run_slave_on_receive rounds count ctx m a data :
  let w := wire_at Wire_ptr m in
  mode_ w ≠ Unassigned → txAddress_ w = NO_ADDRESS →
  0 ≤ bufPos_ w ≤ bufLen_ w →
  bufLen_ w ≤ Z.of_nat (length (buf_ w)) → bufLen_ w ≤ 255 →
  take (Z.to_nat (bufLen_ w - bufPos_ w)) (drop (Z.to_nat (bufPos_ w)) (buf_ w))
  = a :: data →
  length (mem ctx) = 256%nat →
  (length data < rounds)%nat →
  slave_on_receive rounds count ctx m
  = ([], inr (stored data (mk_context (mem ctx) (to_uint8 a)),
              update_wire Wire_ptr (set_bufPos_ (bufLen_ w)) m)).
Proof.
  intros w Hmode Htx Hpos Hlen Hcap Hpending Hmem Hrounds.
  assert (Hcount : bufLen_ w - bufPos_ w = Z.of_nat (S (length data))).
  { apply (f_equal length) in Hpending.
    rewrite length_take, length_drop in Hpending. cbn [length] in Hpending. lia. }
  assert (Hav : available Wire_ptr m = ([], inr (bufLen_ w - bufPos_ w, m)))
    by (apply run_available; fold w; done || lia).
  destruct (run_read_data Wire_ptr m) as (b & Hb & Hread); try done; [fold w; lia|].
  fold w in Hb, Hread.
  assert (b = a) as ->.
  { apply (f_equal (λ l, l !! 0%nat)) in Hpending.
    rewrite lookup_take_lt, lookup_drop, Nat.add_0_r, Hb in Hpending by lia.
    by injection Hpending. }
  unfold slave_on_receive.
  rewrite (run_bind_known _ _ _ _ _ Hav), run_bind_assert.
  destruct (Z.eqb_spec (bufLen_ w - bufPos_ w) 0); [lia|]. cbv beta iota. cbn [negb].
  rewrite (run_bind_known _ _ _ _ _ Hread).
  set (m1 := update_wire Wire_ptr (set_bufPos_ (bufPos_ w + 1)) m).
  assert (Hw1 : wire_at Wire_ptr m1 = set_bufPos_ (bufPos_ w + 1) w) by done.
  rewrite (run_slave_on_receive_loop (length data)); rewrite ?Hw1;
    cbn [mode_ txAddress_ buf_ bufLen_ bufPos_ set_bufPos_ mem mem_address];
    try done; try lia.
  - unfold m1. rewrite update_wire_compose. do 3 f_equal.
    apply (f_equal (drop 1)) in Hpending.
    replace (Z.to_nat (bufLen_ w - bufPos_ w)) with (1 + length data)%nat
      in Hpending by lia.
    rewrite <- take_drop_commute, drop_drop in Hpending.
    change (drop 1 (a :: data)) with (drop 0 data) in Hpending.
    rewrite drop_0 in Hpending.
    replace (Z.to_nat (bufPos_ w + 1)) with (Z.to_nat (bufPos_ w) + 1)%nat by lia.
    by rewrite Hpending.
  - unfold to_uint8. apply Z.mod_pos_bound. lia.
Qed.

Lemma run_slave_on_receive_readable rounds count ctx m a data :
  readable Wire_ptr m → pending Wire_ptr m = a :: data →
  length (mem ctx) = 256%nat → (length data < rounds)%nat →
  slave_on_receive rounds count ctx m
  = ([], inr (stored data (mk_context (mem ctx) (to_uint8 a)),
              update_wire Wire_ptr (set_bufPos_ (bufLen_ (wire_at Wire_ptr m))) m)).
Proof.
  intros (Hmode & Htx & Hpos & Hlen & Hcap) Hpending Hmem Hrounds.
  unfold WIRE_BUFFER_LENGTH in Hcap.
  apply run_slave_on_receive; try done. lia.
Qed.

Lemma pending_length this m :
  readable this m → Z.of_nat (length (pending this m)) ≤ WIRE_BUFFER_LENGTH.
Proof.
  intros (_ & _ & Hpos & Hlen & Hcap). unfold pending.
  rewrite length_take. lia.
Qed.

(** X16. The receive handler of the memory example. When the bytes waiting
    in [Wire] are an address followed by data, the handler returns, the data
    bytes are in the memory cells from that address on, in order and wrapping
    from 255 to 0, every other cell is as before, the memory address has
    moved past the last cell written, and [Wire] has nothing left to read. *)
Theorem slave_on_receive_stores rounds count ctx m a data :
  readable Wire_ptr m → pending Wire_ptr m = a :: data →
  length (mem ctx) = 256%nat → (length data < rounds)%nat →
  ∃ ctx' m',
    slave_on_receive rounds count ctx m = ([], inr (ctx', m')) ∧
    pending Wire_ptr m' = [] ∧
    length (mem ctx') = 256%nat ∧
    mem_address ctx' = (to_uint8 a + Z.of_nat (length data)) mod 256 ∧
    (∀ (d : nat) b, data !! d = Some b →
       mem ctx' !! Z.to_nat ((to_uint8 a + Z.of_nat d) mod 256) = Some (to_uint8 b)) ∧
    (∀ j, 0 ≤ j < 256 → Z.of_nat (length data) ≤ (j - to_uint8 a) mod 256 →
       mem ctx' !! Z.to_nat j = mem ctx !! Z.to_nat j).
Proof.
  intros Hready Hpending Hmem Hrounds.
  pose proof (pending_length _ _ Hready) as Hshort.
  rewrite Hpending in Hshort. cbn [length] in Hshort. unfold WIRE_BUFFER_LENGTH in Hshort.
  assert (Ha : 0 ≤ to_uint8 a < 256) by (unfold to_uint8; apply Z.mod_pos_bound; lia).
  destruct (stored_cells data (mk_context (mem ctx) (to_uint8 a)))
    as (Hmem' & Haddr & Hcells); [done|done|lia|].
  cbn [mem mem_address] in Haddr, Hcells.
  eexists _, _. split; [by apply run_slave_on_receive_readable|].
  split_and!; try done.
  - unfold pending.
    replace (wire_at Wire_ptr (update_wire Wire_ptr _ m))
      with (set_bufPos_ (bufLen_ (wire_at Wire_ptr m)) (wire_at Wire_ptr m)) by done.
    cbn [bufLen_ bufPos_ set_bufPos_ buf_]. by rewrite Z.sub_diag.
  - intros d b Hd.
    pose proof (lookup_lt_Some _ _ _ Hd) as Hlt.
    pose proof (Z.mod_pos_bound (to_uint8 a + Z.of_nat d) 256).
    rewrite Hcells by lia.
    assert (Hback : ((to_uint8 a + Z.of_nat d) mod 256 - to_uint8 a) mod 256 = Z.of_nat d).
    { rewrite Zminus_mod_idemp_l.
      replace (to_uint8 a + Z.of_nat d - to_uint8 a) with (Z.of_nat d) by lia.
      apply Z.mod_small. lia. }
    rewrite Hback.
    destruct (Z.ltb_spec (Z.of_nat d) (Z.of_nat (length data))); [|lia].
    by rewrite Nat2Z.id, Hd.
  - intros j Hj Hfar. rewrite Hcells by done.
    by destruct (Z.ltb_spec ((j - to_uint8 a) mod 256) (Z.of_nat (length data))); [lia|].
Qed.

Lemma slave_on_receive_stores_witness :
  ∃ ctx' m',
    slave_on_receive 8 4 (mk_context (replicate 256 0) 0)
      (set_Wire (mk_wire None None Slave 255
                   ([0xFE; 0x41; 0x42; 0x43] ++ replicate 28 0) 4 0)
         machine_example_setup)
    = ([], inr (ctx', m')) ∧
    mem_address ctx' = 1 ∧
    mem ctx' !! 254%nat = Some 0x41 ∧ mem ctx' !! 255%nat = Some 0x42 ∧
    mem ctx' !! 0%nat = Some 0x43 ∧ mem ctx' !! 1%nat = Some 0.
Proof.
  set (m := set_Wire (mk_wire None None Slave 255
                        ([0xFE; 0x41; 0x42; 0x43] ++ replicate 28 0) 4 0)
              machine_example_setup).
  set (ctx := mk_context (replicate 256 0) 0).
  assert (Hready : readable Wire_ptr m)
    by (repeat split; vm_compute; discriminate).
  assert (Hpending : pending Wire_ptr m = [0xFE; 0x41; 0x42; 0x43]) by reflexivity.
  assert (Hmem : length (mem ctx) = 256%nat) by reflexivity.
  assert (Hrounds : (length [0x41; 0x42; 0x43] < 8)%nat) by (vm_compute; lia).
  destruct (slave_on_receive_stores 8 4 ctx m 0xFE [0x41; 0x42; 0x43]
              Hready Hpending Hmem Hrounds)
    as (ctx' & m' & Hrun & _ & _ & Haddr & Hcells & Hrest).
  exists ctx', m'. split; [exact Hrun|]. split; [exact Haddr|].
  split; [exact (Hcells 0%nat 0x41 eq_refl)|].
  split; [exact (Hcells 1%nat 0x42 eq_refl)|].
  split; [exact (Hcells 2%nat 0x43 eq_refl)|].
  apply (Hrest 1); [split; [by vm_compute|reflexivity]|by vm_compute].
Defined.

Lemma run_slave_on_request `{P : Platform} ctx m v :
  mode_ (Wire m) = Slave →
  I2C_IC_STATUS_TFNF_BITS ≠ 0 → (0 < spin_limit)%nat →
  Z.of_nat (length (tx_fifo (bus_progress (i2c0_hw m)))) < tx_fifo_depth →
  0 ≤ mem_address ctx → mem ctx !! Z.to_nat (mem_address ctx) = Some v →
  slave_on_request ctx m
  = ([], inr (mk_context (mem ctx) (to_uint8 (mem_address ctx + 1)),
              update_hw i2c0 (λ h, set_tx_fifo (tx_fifo h ++ [v]) h)
                (update_hw i2c0 bus_progress m))).
Proof.
  intros Hmode Hbit Hspin Hroom Ha Hv.
  assert (Hwrite : write Wire_ptr v m
                   = ([], inr (1, update_hw i2c0 (λ h, set_tx_fifo (tx_fifo h ++ [v]) h)
                                    (update_hw i2c0 bus_progress m)))).
  { unfold write. run_prog.
    change (wire_at Wire_ptr m) with (Wire m). rewrite Hmode.
    rewrite bool_decide_eq_true_2 by done. cbv iota.
    rewrite bool_decide_eq_false_2 by done. cbv iota zeta.
    destruct spin_limit as [|k]; [lia|].
    rewrite (run_bind_known _ _ _ _ _
               (run_wait_tx_not_full_room (TwoWire_i2c Wire_ptr) k m Hbit Hroom)).
    unfold i2c_write_byte. by run_prog. }
  unfold slave_on_request.
  rewrite bool_decide_eq_true_2 by done. rewrite Hv.
  by rewrite (run_bind_known _ _ _ _ _ Hwrite), run_ret.
Qed.

(** X17. The memory example reads back what was written. After the receive
    handler stored the data of one write, a second write of a single address
    byte that points at one of the cells just written moves the memory
    address there, and the request handler then puts the byte stored in that
    cell at the end of the transmit FIFO of i2c0 and moves the address to
    the next cell. *)
Theorem stored_byte_is_read_back `{P : Platform} rounds c1 c2 ctx m m2 m3 a data seek
    (d : nat) b :
  readable Wire_ptr m → pending Wire_ptr m = a :: data →
  readable Wire_ptr m2 → pending Wire_ptr m2 = [seek] →
  to_uint8 seek = (to_uint8 a + Z.of_nat d) mod 256 → data !! d = Some b →
  mode_ (Wire m3) = Slave →
  I2C_IC_STATUS_TFNF_BITS ≠ 0 → (0 < spin_limit)%nat →
  Z.of_nat (length (tx_fifo (bus_progress (i2c0_hw m3)))) < tx_fifo_depth →
  length (mem ctx) = 256%nat → (length data < rounds)%nat →
  ∃ ctx1 m1 ctx2 m2' ctx3 m3',
    slave_on_receive rounds c1 ctx m = ([], inr (ctx1, m1)) ∧
    slave_on_receive rounds c2 ctx1 m2 = ([], inr (ctx2, m2')) ∧
    slave_on_request ctx2 m3 = ([], inr (ctx3, m3')) ∧
    tx_fifo (i2c0_hw m3') = tx_fifo (bus_progress (i2c0_hw m3)) ++ [to_uint8 b] ∧
    mem_address ctx3 = (to_uint8 seek + 1) mod 256 ∧
    mem ctx3 = mem ctx1.
Proof.
  intros Hready Hpending Hready2 Hpending2 Hseek Hd Hmode Hbit Hspin Hroom Hmem Hrounds.
  pose proof (pending_length _ _ Hready) as Hshort.
  rewrite Hpending in Hshort. cbn [length] in Hshort. unfold WIRE_BUFFER_LENGTH in Hshort.
  assert (Ha : 0 ≤ to_uint8 a < 256) by (unfold to_uint8; apply Z.mod_pos_bound; lia).
  destruct (stored_cells data (mk_context (mem ctx) (to_uint8 a)))
    as (Hmem1 & _ & Hcells); [done|done|lia|].
  cbn [mem mem_address] in Hcells.
  set (ctx1 := stored data (mk_context (mem ctx) (to_uint8 a))) in *.
  assert (Hcell : mem ctx1 !! Z.to_nat (to_uint8 seek) = Some (to_uint8 b)).
  { pose proof (lookup_lt_Some _ _ _ Hd) as Hlt.
    pose proof (Z.mod_pos_bound (to_uint8 a + Z.of_nat d) 256).
    rewrite Hseek, Hcells by lia.
    rewrite Zminus_mod_idemp_l.
    replace (to_uint8 a + Z.of_nat d - to_uint8 a) with (Z.of_nat d) by lia.
    rewrite Z.mod_small by lia.
    destruct (Z.ltb_spec (Z.of_nat d) (Z.of_nat (length data))); [|lia].
    by rewrite Nat2Z.id, Hd. }
  assert (Hs : 0 ≤ to_uint8 seek < 256) by (unfold to_uint8; apply Z.mod_pos_bound; lia).
  eexists _, _, _, _, _, _.
  split; [by apply run_slave_on_receive_readable|].
  split; [apply run_slave_on_receive_readable; try done; cbn [length]; lia|].
  cbn [stored foldl]. fold ctx1.
  split; [apply (run_slave_on_request _ _ (to_uint8 b)); try done;
          cbn [mem mem_address]; done || lia|].
  cbn [mem mem_address]. by split_and!.
Qed.

(** The master writes 41 42 43 to address FE, then seeks to FF and reads one
    byte. *)
Lemma stored_byte_is_read_back_witness :
  ∃ ctx1 m1 ctx2 m2' ctx3 m3',
    slave_on_receive 8 4 (mk_context (replicate 256 0) 0)
      (set_Wire (mk_wire None None Slave 255
                   ([0xFE; 0x41; 0x42; 0x43] ++ replicate 28 0) 4 0)
         machine_example_setup)
    = ([], inr (ctx1, m1)) ∧
    slave_on_receive 8 1 ctx1
      (set_Wire (mk_wire None None Slave 255 ([0xFF] ++ replicate 31 0) 1 0)
         machine_example_setup)
    = ([], inr (ctx2, m2')) ∧
    slave_on_request (P := rp2040 0 true []) ctx2 machine_example_setup
    = ([], inr (ctx3, m3')) ∧
    tx_fifo (i2c0_hw m3') = [0x42] ∧
    mem_address ctx3 = 0.
Proof.
  set (m := set_Wire (mk_wire None None Slave 255
                        ([0xFE; 0x41; 0x42; 0x43] ++ replicate 28 0) 4 0)
              machine_example_setup).
  set (m2 := set_Wire (mk_wire None None Slave 255 ([0xFF] ++ replicate 31 0) 1 0)
               machine_example_setup).
  set (ctx := mk_context (replicate 256 0) 0).
  assert (Hready : readable Wire_ptr m)
    by (repeat split; vm_compute; discriminate).
  assert (Hpending : pending Wire_ptr m = [0xFE; 0x41; 0x42; 0x43]) by reflexivity.
  assert (Hready2 : readable Wire_ptr m2)
    by (repeat split; vm_compute; discriminate).
  assert (Hpending2 : pending Wire_ptr m2 = [0xFF]) by reflexivity.
  assert (Hseek : to_uint8 0xFF = (to_uint8 0xFE + Z.of_nat 1) mod 256) by reflexivity.
  assert (Hd : [0x41; 0x42; 0x43] !! 1%nat = Some 0x42) by reflexivity.
  assert (Hmode : mode_ (Wire machine_example_setup) = Slave) by reflexivity.
  assert (Hbit : I2C_IC_STATUS_TFNF_BITS (Platform := rp2040 0 true []) ≠ 0)
    by (vm_compute; discriminate).
  assert (Hspin : (0 < spin_limit (Platform := rp2040 0 true []))%nat)
    by (vm_compute; repeat constructor).
  assert (Hroom : Z.of_nat (length (tx_fifo (bus_progress (Platform := rp2040 0 true [])
                                               (i2c0_hw machine_example_setup))))
                  < tx_fifo_depth (Platform := rp2040 0 true []))
    by reflexivity.
  assert (Hmem : length (mem ctx) = 256%nat) by reflexivity.
  assert (Hrounds : (length [0x41; 0x42; 0x43] < 8)%nat) by (vm_compute; lia).
  destruct (stored_byte_is_read_back (P := rp2040 0 true []) 8 4 1 ctx m m2
              machine_example_setup 0xFE [0x41; 0x42; 0x43] 0xFF 1%nat 0x42
              Hready Hpending Hready2 Hpending2 Hseek Hd Hmode Hbit Hspin Hroom
              Hmem Hrounds)
    as (ctx1 & m1 & ctx2 & m2' & ctx3 & m3' & H1 & H2 & H3 & Hfifo & Haddr & _).
  exists ctx1, m1, ctx2, m2', ctx3, m3'.
  split; [exact H1|]. split; [exact H2|]. split; [exact H3|].
  split; [exact Hfifo|exact Haddr].
Defined.
